(** * RFID attendance system: a shallow embedding of the scan-processing core

  The development follows the JavaScript sources of the repository:
  the card reader service ([RFIDService]), the attendance model
  ([Attendance]), the network and authentication middleware
  ([NetworkSecurity], [Auth]), the socket handler ([SocketIOHandlers]) and
  the HTTP routes ([Api], [Staff], [EventManager]).

  Conventions of the embedding.
  - JavaScript strings are [string]; characters are 8-bit, so the model
    covers Latin-1 input, and [toUpperCase] only moves [a-z].
  - Wall-clock values are integers: [Date.now()] is a number of milliseconds,
    a formatted [YYYY-MM-DD HH:mm:ss] instant is a number of seconds and a
    [YYYY-MM-DD] date is the day number [seconds / 86400]; one clock is used
    for every caller.
  - A table is the list of its rows in insertion order; [ORDER BY .. LIMIT 1]
    keeps the first row of the stable ordering.
  - Truthiness tests of the source ([if (x)], [x || y], [x && y]) are written
    out with [truthy_str] and [truthy_num]. *)

From Stdlib Require Import ZArith Strings.String Strings.Ascii List Lia Bool.
From stdpp Require Import gmap strings list sorting pretty.

Local Open Scope string_scope.
Local Open Scope list_scope.
Local Open Scope Z_scope.

(** ** JavaScript string primitives used by the sources *)
Module JS.

Definition code (c : ascii) : N := N_of_ascii c.

(** [\d] *)
Definition is_digit (c : ascii) : bool :=
  ((48 <=? code c) && (code c <=? 57))%N.

(** [\s], restricted to 8-bit characters *)
Definition is_space (c : ascii) : bool :=
  ((9 <=? code c) && (code c <=? 13) || (code c =? 32) || (code c =? 160))%N.

(** [A-Z] *)
Definition is_upper (c : ascii) : bool :=
  ((65 <=? code c) && (code c <=? 90))%N.

(** [a-z] *)
Definition is_lower (c : ascii) : bool :=
  ((97 <=? code c) && (code c <=? 122))%N.

Definition upper_char (c : ascii) : ascii :=
  if is_lower c then ascii_of_N (code c - 32) else c.

Fixpoint filter_chars (p : ascii -> bool) (s : string) : string :=
  match s with
  | EmptyString => EmptyString
  | String c r => if p c then String c (filter_chars p r) else filter_chars p r
  end.

Fixpoint all_chars (p : ascii -> bool) (s : string) : bool :=
  match s with
  | EmptyString => true
  | String c r => p c && all_chars p r
  end.

Fixpoint map_chars (f : ascii -> ascii) (s : string) : string :=
  match s with
  | EmptyString => EmptyString
  | String c r => String (f c) (map_chars f r)
  end.

Fixpoint repeat_char (c : ascii) (n : nat) : string :=
  match n with
  | O => EmptyString
  | S k => String c (repeat_char c k)
  end.

(** [s.padStart(n, c)] for a one-character filler *)
Definition padStart (n : nat) (c : ascii) (s : string) : string :=
  repeat_char c (n - String.length s) +:+ s.

(** [s.toUpperCase()] *)
Definition toUpperCase (s : string) : string := map_chars upper_char s.

Fixpoint trimStart (s : string) : string :=
  match s with
  | EmptyString => EmptyString
  | String c r => if is_space c then trimStart r else s
  end.

(** [s.trim()] *)
Definition trim (s : string) : string :=
  String.rev (trimStart (String.rev (trimStart s))).

(** [s.replace(/[cls]+/g, by)]: every maximal run of characters of the
    class becomes one [by]; [in_run] tells that the previous character was
    in the class. *)
Fixpoint replace_runs (cls : ascii -> bool) (by_ : ascii) (in_run : bool)
         (s : string) : string :=
  match s with
  | EmptyString => EmptyString
  | String c r =>
      if cls c
      then if in_run then replace_runs cls by_ true r
           else String by_ (replace_runs cls by_ true r)
      else String c (replace_runs cls by_ false r)
  end.

(** a string in a condition: the empty string is falsy *)
Definition truthy_str (s : string) : bool :=
  match s with EmptyString => false | _ => true end.

(** a possibly absent string in a condition *)
Definition truthy_ostr (o : option string) : bool :=
  match o with Some s => truthy_str s | None => false end.

(** a number in a condition: zero is falsy *)
Definition truthy_num (z : Z) : bool := negb (z =? 0).

Definition truthy_onum (o : option Z) : bool :=
  match o with Some z => truthy_num z | None => false end.

(** a value that is neither [null] nor [undefined], of a kind that has no
    falsy inhabitant *)
Definition present {A} (o : option A) : bool :=
match o with Some _ => true | None => false end.

(** [x || null] on strings: a falsy string becomes [null] *)
Definition or_null (o : option string) : option string :=
  if truthy_ostr o then o else None.

(** [l.slice(start, end)] on integer arguments: a negative index counts from
    the end, and both are clamped to the array *)
Definition slice {A} (start end_ : Z) (l : list A) : list A :=
  let len := Z.of_nat (length l) in
  let k := if start <? 0 then Z.max (len + start) 0 else Z.min start len in
  let final := if end_ <? 0 then Z.max (len + end_) 0 else Z.min end_ len in
  take (Z.to_nat (final - k)) (drop (Z.to_nat k) l).

(** [s.startsWith(p)] *)
Definition startsWith (p s : string) : bool := String.prefix p s.

(** [s.indexOf(sub) > -1] *)
Fixpoint includes (sub s : string) : bool :=
  String.prefix sub s
  || match s with
     | EmptyString => false
     | String _ r => includes sub r
     end.

(** [s.slice(0, n)] on a string, for a length [n] *)
Definition slice_str (n : nat) (s : string) : string := String.substring 0 n s.

End JS.

(** ** The card reader service (RFIDService) *)
Module RFIDService.

(** what the service emits through its EventEmitter interface *)
Inductive emitted :=
| Spam (cardId : string) (timeSinceLastScan : Z)
| Scan (cardId : string) (timestamp : Z) (device : option string).

Record t := mk {
  isConnected : bool;
  lastScans : gmap string Z;
  minScanInterval : Z;
  deviceInfo : option string
}.

Definition constructor : t :=
  {| isConnected := false; lastScans := ∅; minScanInterval := 5000;
     deviceInfo := None |}.

Definition set_lastScans (m : gmap string Z) (s : t) : t :=
  {| isConnected := isConnected s; lastScans := m;
     minScanInterval := minScanInterval s; deviceInfo := deviceInfo s |}.

(** [processRFIDScan(cardId)]; [now] is the value of [Date.now()]. *)
Definition processRFIDScan (now : Z) (cardId : string) (s : t)
  : t * list emitted :=
  let accept :=
    (set_lastScans (<[cardId := now]> (lastScans s)) s,
     [Scan cardId now (deviceInfo s)]) in
  match lastScans s !! cardId with
  | Some lastScanTime =>
      if JS.truthy_num lastScanTime && (now - lastScanTime <? minScanInterval s)
      then (s, [Spam cardId (now - lastScanTime)])
      else accept
  | None => accept
  end.

(** [normalizeCardId(cardId)]; [None] is [null]. *)
Definition normalizeCardId (cardId : string) : option string :=
  if negb (JS.truthy_str cardId) then None
  else
    let cleaned := JS.filter_chars JS.is_digit cardId in
    Some (JS.padStart 10 "0" cleaned).

(** [isValidCardId(cardId)] *)
Definition isValidCardId (cardId : string) : bool :=
  if negb (JS.truthy_str cardId) then false
  else if negb (JS.truthy_str cardId && JS.all_chars JS.is_digit cardId) then false
  else if (String.length cardId <? 8)%nat || (12 <? String.length cardId)%nat then false
  else true.

(** the guard shared by [handleRFIDData] and [processManualScan]:
    [normalizedId && this.isValidCardId(normalizedId)] *)
Definition acceptedCardId (raw : string) : option string :=
  match normalizeCardId raw with
  | Some normalizedId =>
      if JS.truthy_str normalizedId && isValidCardId normalizedId
      then Some normalizedId else None
  | None => None
  end.

(** [processManualScan(cardId)] *)
Definition processManualScan (now : Z) (cardId : string) (s : t)
  : bool * t * list emitted :=
  match acceptedCardId cardId with
  | Some normalizedId =>
      let '(s', out) := processRFIDScan now normalizedId s in (true, s', out)
  | None => (false, s, [])
  end.

(** [handleRFIDData(data)] *)
Definition handleRFIDData (now : Z) (data : string) (s : t)
  : t * list emitted :=
  match acceptedCardId (JS.trim data) with
  | Some cardId => processRFIDScan now cardId s
  | None => (s, [])
  end.

(** [cleanupOldScans()] *)
Definition cleanupOldScans (now : Z) (s : t) : t :=
  let maxAge := 24 * 60 * 60 * 1000 in
  set_lastScans
  (filter (fun kv : string * Z => negb (maxAge <? now - kv.2) = true) (lastScans s)) s.

End RFIDService.


(** ** The attendance table and its model class (models/Attendance.js) *)

Inductive action := check_in | check_out.

(** column [status]: ['valid'], or any other text for a voided record *)
Inductive validity := valid | voided.

#[global] Instance action_eq_dec : EqDecision action.
Proof. solve_decision. Defined.

#[global] Instance validity_eq_dec : EqDecision validity.
Proof. solve_decision. Defined.

Definition action_eqb (a b : action) : bool :=
match a, b with
| check_in, check_in | check_out, check_out => true
| _, _ => false
end.

(** a row of table [attendance], under its column names *)
Module Entry.
Record t := mk {
  id : nat;
  user_id : string;
  rfid_card : string;
  scan_time : Z;
  scan_date : Z;
  action_type : action;
  event_id : option Z;
  client_ip : option string;
  gateway_ip : option string;
  wifi_name : option string;
  location : option string;
  notes : option string;
  status : validity
}.
End Entry.

(** the [attendanceData] object handed to [recordAttendance] *)
Module AttendanceData.
Record t := mk {
  userId : string;
  rfidCard : string;
  scanTime : Z;
  scanDate : Z;
  actionType : action;
  eventId : option Z;
  clientIp : option string;
  gatewayIp : option string;
  wifiName : option string;
  location : option string;
  notes : option string;
  status : option validity
}.
End AttendanceData.

Module Attendance.

(** an instance of class [Attendance]: the constructor copies the columns to
    camelCase properties, and the object has no other property *)
Record t := mk {
  id : nat;
  userId : string;
  rfidCard : string;
  scanTime : Z;
  scanDate : Z;
  actionType : action;
  eventId : option Z;
  clientIp : option string;
  gatewayIp : option string;
  wifiName : option string;
  location : option string;
  notes : option string;
  status : validity
}.

Definition constructor (r : Entry.t) : t :=
{| id := Entry.id r; userId := Entry.user_id r; rfidCard := Entry.rfid_card r;
   scanTime := Entry.scan_time r; scanDate := Entry.scan_date r;
   actionType := Entry.action_type r; eventId := Entry.event_id r;
   clientIp := Entry.client_ip r; gatewayIp := Entry.gateway_ip r;
   wifiName := Entry.wifi_name r; location := Entry.location r;
   notes := Entry.notes r; status := Entry.status r |}.

(** [sanitizeParams]: [undefined] and the empty string become [null] *)
Definition sanitize (o : option string) : option string :=
match o with
| Some EmptyString => None
| _ => o
end.

(** the key of the next inserted row *)
Definition insertId (tbl : list Entry.t) : nat :=
S (foldr Nat.max O (map Entry.id tbl)).

(** [findById(id)] *)
Definition findById (i : nat) (tbl : list Entry.t) : option t :=
constructor <$> head (filter (fun r => Entry.id r = i) tbl).

(** [recordAttendance(attendanceData)]: the INSERT and the read-back.  The
    columns [user_id] and [rfid_card] are NOT NULL, so a value sanitized to
    [null] makes the statement fail; [None] stands for the exception.  The
    read-back [findById(result.insertId)] is the object of the inserted row
    (lemma [findById_inserted]). *)
Definition recordAttendance (d : AttendanceData.t) (tbl : list Entry.t)
  : option (t * list Entry.t) :=
match sanitize (Some (AttendanceData.userId d)),
      sanitize (Some (AttendanceData.rfidCard d)) with
| Some u, Some c =>
    let r := {| Entry.id := insertId tbl; Entry.user_id := u; Entry.rfid_card := c;
                Entry.scan_time := AttendanceData.scanTime d;
                Entry.scan_date := AttendanceData.scanDate d;
                Entry.action_type := AttendanceData.actionType d;
                Entry.event_id := AttendanceData.eventId d;
                Entry.client_ip := sanitize (AttendanceData.clientIp d);
                Entry.gateway_ip := sanitize (AttendanceData.gatewayIp d);
                Entry.wifi_name := sanitize (AttendanceData.wifiName d);
                Entry.location := sanitize (AttendanceData.location d);
                Entry.notes := sanitize (AttendanceData.notes d);
                Entry.status := default valid (AttendanceData.status d) |} in
    Some (constructor r, tbl ++ [r])
| _, _ => None
end.

(** [ORDER BY scan_time DESC LIMIT 1]: the latest row, the earliest stored
    one among rows of equal time *)
Fixpoint latest (rows : list Entry.t) : option Entry.t :=
match rows with
| [] => None
| r :: rest =>
    match latest rest with
    | Some r' => if Entry.scan_time r <? Entry.scan_time r' then Some r' else Some r
    | None => Some r
    end
end.

Definition not_before (a b : Entry.t) : Prop := Entry.scan_time b <= Entry.scan_time a.

Definition not_after (a b : Entry.t) : Prop := Entry.scan_time a <= Entry.scan_time b.

#[global] Instance not_before_dec a b : Decision (not_before a b) :=
Z_le_dec _ _.

#[global] Instance not_after_dec a b : Decision (not_after a b) :=
Z_le_dec _ _.

(** [ORDER BY scan_time DESC] *)
Definition by_scan_time_desc (rows : list Entry.t) : list Entry.t :=
merge_sort not_before rows.

(** [ORDER BY scan_time ASC] *)
Definition by_scan_time_asc (rows : list Entry.t) : list Entry.t :=
merge_sort not_after rows.

Definition between (lo hi x : Z) : bool := (lo <=? x) && (x <=? hi).

(** [findByUserAndDate(userId, date)] *)
Definition findByUserAndDate (userId : string) (date : Z) (tbl : list Entry.t)
  : list t :=
constructor <$>
  by_scan_time_asc
    (filter (fun r => Entry.user_id r = userId ∧ Entry.scan_date r = date) tbl).

(** [findByDateRange(startDate, endDate, userId = null)] *)
Definition findByDateRange (startDate endDate : Z) (userId : option string)
           (tbl : list Entry.t) : list t :=
let in_range :=
  filter (fun r => between startDate endDate (Entry.scan_date r) = true) tbl in
let rows :=
  if JS.truthy_ostr userId
  then filter (fun r => Some (Entry.user_id r) = userId) in_range
  else in_range in
constructor <$> by_scan_time_desc rows.

(** [getLastScanForUser(userId, date = null)] *)
Definition getLastScanForUser (userId : string) (date : option Z)
           (tbl : list Entry.t) : option t :=
let rows :=
  filter (fun r => Entry.user_id r = userId ∧ Entry.status r = valid) tbl in
let rows :=
  match date with
  | Some d => filter (fun r => Entry.scan_date r = d) rows
  | None => rows
  end in
constructor <$> latest rows.

(** [checkDuplicateScan(userId, rfidCard, minInterval = 5)]; [now] is the
    clock read by [moment()] *)
Definition checkDuplicateScan (now : Z) (userId rfidCard : string)
           (minInterval : Z) (tbl : list Entry.t) : bool :=
let cutoffTime := now - minInterval in
let results :=
  filter (fun r => Entry.user_id r = userId ∧ Entry.rfid_card r = rfidCard
                   ∧ cutoffTime < Entry.scan_time r) tbl in
bool_decide (0 < length results)%nat.

(** rows selected by [scan_date BETWEEN ? AND ? AND status = 'valid'] *)
Definition valid_in_range (startDate endDate : Z) (tbl : list Entry.t)
  : list Entry.t :=
filter (fun r => between startDate endDate (Entry.scan_date r) = true
                 ∧ Entry.status r = valid) tbl.

Record stats := mkStats {
  totalRecords : nat;
  uniqueUsers : nat;
  actionTypeStats : list (action * nat);
  dailyStats : list (Z * nat)
}.

Definition count_where {A} (p : A -> bool) (l : list A) : nat :=
length (List.filter p l).

(** [getAttendanceStats(startDate, endDate)] *)
Definition getAttendanceStats (startDate endDate : Z) (tbl : list Entry.t)
  : stats :=
let rows := valid_in_range startDate endDate tbl in
{| totalRecords := length rows;
   uniqueUsers := length (remove_dups (map Entry.user_id rows));
   actionTypeStats :=
     map (fun a => (a, count_where (fun r => action_eqb (Entry.action_type r) a) rows))
         (remove_dups (map Entry.action_type rows));
   dailyStats :=
     map (fun d => (d, count_where (fun r => Entry.scan_date r =? d) rows))
         (merge_sort Z.le (remove_dups (map Entry.scan_date rows))) |}.

Record report_line := mkLine {
  line_scan_date : Z;
  first_check_in : option Z;
  last_check_out : option Z;
  check_ins : nat;
  check_outs : nat
}.

(** [MIN(..)] and [MAX(..)] of a column: [NULL] on no value *)
Definition sql_min (l : list Z) : option Z :=
match l with [] => None | x :: r => Some (foldr Z.min x r) end.

Definition sql_max (l : list Z) : option Z :=
match l with [] => None | x :: r => Some (foldr Z.max x r) end.

(** [getUserAttendanceReport(userId, startDate, endDate)] *)
Definition getUserAttendanceReport (userId : string) (startDate endDate : Z)
           (tbl : list Entry.t) : list report_line :=
let rows :=
  filter (fun r => Entry.user_id r = userId)
         (valid_in_range startDate endDate tbl) in
let times a d :=
  map Entry.scan_time
      (List.filter (fun r => (Entry.scan_date r =? d) && action_eqb (Entry.action_type r) a)
                   rows) in
map (fun d =>
       {| line_scan_date := d;
          first_check_in := sql_min (times check_in d);
          last_check_out := sql_max (times check_out d);
          check_ins := length (times check_in d);
          check_outs := length (times check_out d) |})
    (merge_sort Z.le (remove_dups (map Entry.scan_date rows))).

(** [updateStatus(id, status, notes = null)] *)
Definition updateStatus (i : nat) (st : validity) (nt : option string)
           (tbl : list Entry.t) : list Entry.t :=
map (fun r =>
       if Nat.eqb (Entry.id r) i
       then {| Entry.id := Entry.id r; Entry.user_id := Entry.user_id r;
               Entry.rfid_card := Entry.rfid_card r; Entry.scan_time := Entry.scan_time r;
               Entry.scan_date := Entry.scan_date r; Entry.action_type := Entry.action_type r;
               Entry.event_id := Entry.event_id r; Entry.client_ip := Entry.client_ip r;
               Entry.gateway_ip := Entry.gateway_ip r; Entry.wifi_name := Entry.wifi_name r;
               Entry.location := Entry.location r;
               Entry.notes := match sanitize nt with Some n => Some n | None => Entry.notes r end;
               Entry.status := st |}
       else r) tbl.

(** [delete(id)] *)
Definition delete (i : nat) (tbl : list Entry.t) : list Entry.t :=
filter (fun r => Entry.id r <> i) tbl.

End Attendance.

(** ** The network middleware (middleware/networkSecurity.js) *)
Module NetworkSecurity.

(** the parts of a request read by the middleware *)
Record request := mkRequest {
  header_x_forwarded_for : option string;
  header_x_real_ip : option string;
  connection_remoteAddress : option string;
  socket_remoteAddress : option string;
  req_ip : option string;
  header_x_gateway_ip : option string;
  body_gateway_ip : option string;
  query_gateway_ip : option string;
  header_x_wifi_name : option string;
  body_wifi_name : option string;
  query_wifi_name : option string
}.

(** [a || b] on possibly absent strings *)
Definition or_else (a b : option string) : option string :=
if JS.truthy_ostr a then a else b.

Fixpoint before_comma (s : string) : string :=
match s with
| EmptyString => EmptyString
| String c r => if Ascii.eqb c "," then EmptyString else String c (before_comma r)
end.

(** [getClientIp(req)] *)
Definition getClientIp (req : request) : option string :=
or_else ((fun s => JS.trim (before_comma s)) <$> header_x_forwarded_for req)
  (or_else (header_x_real_ip req)
     (or_else (connection_remoteAddress req)
        (or_else (socket_remoteAddress req) (req_ip req)))).

(** [getGatewayIp(req)] *)
Definition getGatewayIp (req : request) : option string :=
or_else (header_x_gateway_ip req)
  (or_else (body_gateway_ip req) (query_gateway_ip req)).

(** [getWifiName(req)] *)
Definition getWifiName (req : request) : option string :=
or_else (header_x_wifi_name req)
  (or_else (body_wifi_name req) (query_wifi_name req)).

Inductive access_method := gateway | client_ip | wifi.

Record networkInfo := mkInfo {
  clientIp : option string;
  gatewayIp : option string;
  wifiName : option string;
  accessMethod : access_method
}.

(** the [debug] object of the 403 answer *)
Record debug := mkDebug {
  debug_clientIp : option string;
  debug_gatewayIp : option string;
  debug_wifiName : option string;
  gatewayAllowed : bool;
  clientIpAllowed : bool;
  wifiAllowed : bool
}.

Inductive outcome :=
| Denied (http : nat) (error : string) (message_details : list string) (d : debug)
| Next (info : networkInfo).

Section Gate.

(** the two allow-list checks the middleware awaits *)
Variable checkNetwork : option string -> bool.
Variable checkWifi : string -> bool.

(** [requireCompanyNetwork], over the two checks.  The message of a denial is
    a fixed sentence followed by the details listed in [message_details]. *)
Definition requireCompanyNetworkWith (req : request) : outcome :=
let clientIp := getClientIp req in
let gatewayIp := getGatewayIp req in
let wifiName := getWifiName req in
let gatewayAllowed :=
  if JS.truthy_ostr gatewayIp then checkNetwork gatewayIp else false in
let clientIpAllowed := checkNetwork clientIp in
let wifiAllowed :=
  match wifiName with
  | Some w => if JS.truthy_str w then checkWifi w else false
  | None => false
  end in
let accessAllowed := gatewayAllowed || clientIpAllowed || wifiAllowed in
if negb accessAllowed then
  Denied 403 "NETWORK_ACCESS_DENIED"
    ((if JS.truthy_ostr wifiName then [default "" wifiName] else []) ++
     (if JS.truthy_ostr gatewayIp then [default "" gatewayIp] else []))
    {| debug_clientIp := clientIp; debug_gatewayIp := gatewayIp;
       debug_wifiName := wifiName; gatewayAllowed := gatewayAllowed;
       clientIpAllowed := clientIpAllowed; wifiAllowed := wifiAllowed |}
else
  Next {| clientIp := clientIp; gatewayIp := gatewayIp; wifiName := wifiName;
          accessMethod := if gatewayAllowed then gateway
                          else if clientIpAllowed then client_ip else wifi |}.

End Gate.

(** [isCompanyNetwork(clientIp)]: the allow-list lookup is switched off in
    the source and the function answers [true] *)
Definition isCompanyNetwork (clientIp : option string) : bool := true.

(** [isCompanyWifi(wifiName)]: switched off as well *)
Definition isCompanyWifi (wifiName : string) : bool := true.

(** [requireCompanyNetwork] as deployed *)
Definition requireCompanyNetwork (req : request) : outcome :=
requireCompanyNetworkWith isCompanyNetwork isCompanyWifi req.

End NetworkSecurity.

(** ** The authentication middleware (middleware/auth.js) *)
Module Auth.

(** the properties of a [User] object read by the middleware *)
Record account := mkAccount {
  account_id : string;
  account_role : string
}.

(** the parts of a request read by the middleware; [session_userId] is
    [None] without a session or without [userId] in it *)
Record request := mkRequest {
  session_userId : option string;
  path : string;
  xhr : bool;
  accept : option string;
  content_type : option string
}.

(** the answer of a middleware: a JSON error, a redirection, or [next()]
    with what the middleware leaves in [req.user] *)
Inductive outcome (A : Type) :=
| Json (http : nat) (error : string)
| Redirect (url : string)
| Next (user : A).

Arguments Json {A} http error.
Arguments Redirect {A} url.
Arguments Next {A} user.

(** [isApiRequest] *)
Definition isApiRequest (req : request) : bool :=
JS.startsWith "/api/" (path req)
|| JS.startsWith "/admin/api/" (path req)
|| xhr req
|| match accept req with Some a => JS.includes "json" a | None => false end
|| match content_type req with Some c => JS.includes "json" c | None => false end.

(** [requireAuth] *)
Definition requireAuth (req : request) : outcome unit :=
if negb (JS.truthy_ostr (session_userId req))
then if isApiRequest req then Json 401 "AUTH_REQUIRED" else Redirect "/auth/login"
else Next tt.

(** the dashboard of a role *)
Definition dashboard (role : string) : string :=
if String.eqb role "admin" then "/admin"
else if String.eqb role "event_manager" then "/events"
else "/staff".

Section Roles.

(** [User.findById] over the users table of the moment: an active user, no
    row ([Some None]), or a rejected query ([None]) *)
Variable findById : string -> option (option account).

(** [requireRole(allowedRoles)] *)
Definition requireRole (allowedRoles : list string) (req : request) : outcome account :=
if negb (JS.truthy_ostr (session_userId req))
then if isApiRequest req then Json 401 "AUTH_REQUIRED" else Redirect "/auth/login"
else
  match findById (default "" (session_userId req)) with
  | None => Json 500 "AUTH_CHECK_ERROR"
  | Some None =>
      if isApiRequest req then Json 401 "USER_NOT_FOUND" else Redirect "/auth/login"
  | Some (Some user) =>
      if negb (existsb (String.eqb (account_role user)) allowedRoles)
      then if isApiRequest req then Json 403 "INSUFFICIENT_PERMISSIONS"
           else Redirect (dashboard (account_role user))
      else Next user
  end.

Definition requireAdmin : request -> outcome account :=
requireRole ["admin"].

Definition requireEventManager : request -> outcome account :=
requireRole ["admin"; "event_manager"].

Definition requireStaff : request -> outcome account :=
requireRole ["admin"; "event_manager"; "staff"].

Definition requireUser : request -> outcome account :=
requireRole ["admin"; "event_manager"; "staff"; "at_work"].

(** [loadUser] and [optionalAuth]: [req.user] after the middleware, which
    always calls [next()] *)
Definition loadUser (req : request) : option account :=
if JS.truthy_ostr (session_userId req)
then match findById (default "" (session_userId req)) with
     | Some (Some user) => Some user
     | _ => None
     end
else None.

End Roles.

End Auth.

(** ** Requests and answers shared by the attendance routes *)

(** [req.user] *)
Record session_user := mkUser {
  user_id : string;
  user_name : string
}.

(** the result of [User.findByRfidCard]: an active user, no row, or a
    rejected query *)
Inductive card_lookup :=
| Owner (owner_id : string)
| NoOwner
| LookupError.

Inductive response :=
| Failure (http : nat) (error : string)
| Success (act : action) (time : Z) (attendance : Attendance.t)
          (eventId : option Z).

Definition toggle (last : action) : action :=
match last with check_in => check_out | check_out => check_in end.

(** the clock's date: the day of an instant in seconds *)
Definition date_of (now : Z) : Z := now / 86400.

(** the body and context of an attendance request, after the middleware *)
Record scan_request := mkScan {
  req_user : session_user;
  rfid_card : option string;
  event_id : option Z;
  location : option string;
  method : option string;
  force_action : option string;
  networkInfo : option NetworkSecurity.networkInfo;
  ip : option string
}.

Definition info_clientIp (req : scan_request) : option string :=
NetworkSecurity.or_else
  (NetworkSecurity.or_else
     (networkInfo req ≫= NetworkSecurity.clientIp) (ip req)) None.

Definition info_gatewayIp (req : scan_request) : option string :=
JS.or_null (networkInfo req ≫= NetworkSecurity.gatewayIp).

Definition info_wifiName (req : scan_request) : option string :=
JS.or_null (networkInfo req ≫= NetworkSecurity.wifiName).

(** [undefined == v], the comparison met when a property that the object
    does not carry is compared with a request value: it holds for a nullish
    [v] only *)
Definition undefined_loose_eq (v : option Z) : bool :=
match v with None => true | Some _ => false end.

(** ** The attendance routes of routes/api.js *)
Module Api.

Section Routes.

(** [User.findByRfidCard] over the users table of the moment *)
Variable findByRfidCard : string -> card_lookup.

(** the location lookup of the check-in and check-out routes: the name stored
    with the record ([locationName || null]), or [None] when the lookup
    throws *)
Variable resolveLocation : string -> option (option string).

(** the target of a scan: the active owner of the card, else the session
    user; a failed lookup is ignored *)
Definition targetUser (req : scan_request) (rfid_card : string) : string :=
match findByRfidCard rfid_card with
| Owner i => if JS.truthy_str i then i else user_id (req_user req)
| NoOwner => user_id (req_user req)
| LookupError => user_id (req_user req)
end.

Definition scanned_by (req : scan_request) (target : string) : bool :=
JS.truthy_str (user_id (req_user req))
&& negb (String.eqb (user_id (req_user req)) target).

(** [POST /rfid/scan] *)
Definition rfid_scan (now : Z) (req : scan_request) (tbl : list Entry.t)
  : response * list Entry.t :=
match rfid_card req with
| None | Some EmptyString => (Failure 400 "MISSING_RFID", tbl)
| Some rfid_card =>
    let targetUserId := targetUser req rfid_card in
    let today := date_of now in
    let currentTime := now in
    if Attendance.checkDuplicateScan now targetUserId rfid_card 5 tbl
    then (Failure 429 "DUPLICATE_SCAN", tbl)
    else
      let lastScan :=
        Attendance.getLastScanForUser targetUserId
          (if JS.truthy_onum (event_id req) then None else Some today) tbl in
      let actionType :=
        match lastScan with
        | Some lastScan =>
            if JS.truthy_onum (event_id req)
            then toggle (Attendance.actionType lastScan)
            else if Attendance.scanDate lastScan =? today
                 then toggle (Attendance.actionType lastScan)
                 else check_in
        | None => check_in
        end in
      let eventId := if JS.truthy_onum (event_id req) then event_id req else None in
      let attendanceData :=
        {| AttendanceData.userId := targetUserId;
           AttendanceData.rfidCard := rfid_card;
           AttendanceData.scanTime := currentTime;
           AttendanceData.scanDate := today;
           AttendanceData.actionType := actionType;
           AttendanceData.eventId := eventId;
           AttendanceData.clientIp := info_clientIp req;
           AttendanceData.gatewayIp := info_gatewayIp req;
           AttendanceData.wifiName := info_wifiName req;
           AttendanceData.location := Some "Main Office";
           AttendanceData.notes :=
             if scanned_by req targetUserId
             then Some ("scanned_by:" +:+ user_id (req_user req)) else None;
           AttendanceData.status := Some valid |} in
      match Attendance.recordAttendance attendanceData tbl with
      | Some (attendance, tbl') =>
          (Success actionType currentTime attendance (event_id req), tbl')
      | None => (Failure 500 "RFID_SCAN_ERROR", tbl)
      end
end.

(** [POST /rfid/manual], up to the hand-over to the scan route: the answer
    of the route itself, or the normalized card placed in [req.body.rfid_card] *)
Definition rfid_manual (card_id : option string) : response + string :=
match card_id with
| None | Some EmptyString => inl (Failure 400 "MISSING_CARD_ID")
| Some card_id =>
    let normalizedCardId :=
      JS.padStart 10 "0" (JS.filter_chars JS.is_digit card_id) in
    if (String.length normalizedCardId <? 8)%nat
       || (12 <? String.length normalizedCardId)%nat
    then inl (Failure 400 "INVALID_CARD_ID")
    else inr normalizedCardId
end.

Definition method_note (req : scan_request) (target : string) : string :=
let m := default "manual" (JS.or_null (method req)) in
if scanned_by req target
then "scanned_by:" +:+ user_id (req_user req) +:+ ", method:" +:+ m
else "method:" +:+ m.

(** the record written by the check-in and check-out routes *)
Definition located_record (now : Z) (req : scan_request) (userId rfid_card : string)
           (actionType : action) (locationName : option string)
  : AttendanceData.t :=
{| AttendanceData.userId := userId;
   AttendanceData.rfidCard := rfid_card;
   AttendanceData.scanTime := now;
   AttendanceData.scanDate := date_of now;
   AttendanceData.actionType := actionType;
   AttendanceData.eventId := None;
   AttendanceData.clientIp := info_clientIp req;
   AttendanceData.gatewayIp := info_gatewayIp req;
   AttendanceData.wifiName := info_wifiName req;
   AttendanceData.location := locationName;
   AttendanceData.notes := Some (method_note req userId);
   AttendanceData.status := Some valid |}.

(** [force_action && (force_action === 'check_in' || force_action ===
    'check_out')]: the forced action, when the request names one *)
Definition forced_action (force_action : option string) : option action :=
match force_action with
| Some f =>
    if String.eqb f "check_in" then Some check_in
    else if String.eqb f "check_out" then Some check_out
    else None
| None => None
end.

(** [POST /attendance/checkin] *)
Definition attendance_checkin (now : Z) (req : scan_request) (tbl : list Entry.t)
  : response * list Entry.t :=
match rfid_card req with
| None | Some EmptyString => (Failure 400 "MISSING_RFID", tbl)
| Some rfid_card =>
    match location req with
    | None | Some EmptyString => (Failure 400 "MISSING_LOCATION", tbl)
    | Some location =>
        let userId := targetUser req rfid_card in
        let today := date_of now in
        if Attendance.checkDuplicateScan now userId rfid_card 5 tbl
        then (Failure 429 "DUPLICATE_SCAN", tbl)
        else
          let actionType :=
            match forced_action (force_action req) with
            | Some forced => forced
            | None =>
                match Attendance.getLastScanForUser userId (Some today) tbl with
                | Some lastScan => toggle (Attendance.actionType lastScan)
                | None => check_in
                end
            end in
          match resolveLocation location with
          | None => (Failure 500 "CHECKIN_ERROR", tbl)
          | Some locationName =>
              match Attendance.recordAttendance
                      (located_record now req userId rfid_card actionType locationName)
                      tbl with
              | Some (attendance, tbl') =>
                  (Success actionType now attendance None, tbl')
              | None => (Failure 500 "CHECKIN_ERROR", tbl)
              end
          end
    end
end.

(** [POST /attendance/checkout] *)
Definition attendance_checkout (now : Z) (req : scan_request) (tbl : list Entry.t)
  : response * list Entry.t :=
match rfid_card req with
| None | Some EmptyString => (Failure 400 "MISSING_RFID", tbl)
| Some rfid_card =>
    match location req with
    | None | Some EmptyString => (Failure 400 "MISSING_LOCATION", tbl)
    | Some location =>
        let userId := targetUser req rfid_card in
        if Attendance.checkDuplicateScan now userId rfid_card 5 tbl
        then (Failure 429 "DUPLICATE_SCAN", tbl)
        else
          let actionType := check_out in
          match resolveLocation location with
          | None => (Failure 500 "CHECKOUT_ERROR", tbl)
          | Some locationName =>
              match Attendance.recordAttendance
                      (located_record now req userId rfid_card actionType locationName)
                      tbl with
              | Some (attendance, tbl') =>
                  (Success actionType now attendance None, tbl')
              | None => (Failure 500 "CHECKOUT_ERROR", tbl)
              end
          end
    end
end.

(** [POST /attendance/event].  The route calls
    [getLastScanForUser(userId, today, event_id)], whose third argument the
    model class does not take, and compares [lastScan.event_id], a property
    that instances of [Attendance] do not carry, with the request's
    [event_id].  The bookkeeping of table [event_participants] that follows
    the write is not part of the model. *)
Definition attendance_event (now : Z) (req : scan_request) (tbl : list Entry.t)
  : response * list Entry.t :=
if negb (JS.truthy_onum (event_id req)) || negb (JS.truthy_ostr (rfid_card req))
then (Failure 400 "MISSING_FIELDS", tbl)
else
  let rfid_card := default "" (rfid_card req) in
  let userId := user_id (req_user req) in
  let today := date_of now in
  if Attendance.checkDuplicateScan now userId rfid_card 5 tbl
  then (Failure 429 "DUPLICATE_SCAN", tbl)
  else
    let lastScan := Attendance.getLastScanForUser userId (Some today) tbl in
    let actionType :=
      match lastScan with
      | Some lastScan =>
          if undefined_loose_eq (event_id req)
          then toggle (Attendance.actionType lastScan)
          else check_in
      | None => check_in
      end in
    let attendanceData :=
      {| AttendanceData.userId := userId;
         AttendanceData.rfidCard := rfid_card;
         AttendanceData.scanTime := now;
         AttendanceData.scanDate := today;
         AttendanceData.actionType := actionType;
         AttendanceData.eventId := event_id req;
         AttendanceData.clientIp := info_clientIp req;
         AttendanceData.gatewayIp := info_gatewayIp req;
         AttendanceData.wifiName := info_wifiName req;
         AttendanceData.location := None;
         AttendanceData.notes :=
           Some ("Method: " +:+ default "manual" (JS.or_null (method req))
                 +:+ ", Event: " +:+ from_option pretty "" (event_id req));
         AttendanceData.status := Some valid |} in
    match Attendance.recordAttendance attendanceData tbl with
    | Some (attendance, tbl') =>
        (Success actionType now attendance (event_id req), tbl')
    | None => (Failure 500 "EVENT_ATTENDANCE_ERROR", tbl)
    end.

End Routes.

(** *** GET /attendance/history *)

(** the query of the route; [pageNum] and [limitNum] are the values of
    [parseInt(page)] and [parseInt(limit)], [None] for [NaN] *)
Record history_request := mkHistory {
  hist_user : session_user;
  start_date : option Z;
  end_date : option Z;
  date : option Z;
  pageNum : option Z;
  limitNum : option Z
}.

(** the [pagination] object of the answer; a number that is not finite is
    [None] (it is serialized as [null]) *)
Record pagination := mkPagination {
  page : option Z;
  limit : option Z;
  total : nat;
  totalPages : option Z;
  hasNext : bool;
  hasPrev : bool
}.

(** [Math.ceil(a / b)] for integers [a] and [b], [b] not zero *)
Definition ceil_div (a b : Z) : Z := - ((- a) / b).

(** the pagination of the route, over the selected records *)
Definition paginate {A} (pageNum limitNum : option Z) (allRecords : list A)
  : list A * pagination :=
let offset :=
  match pageNum, limitNum with
  | Some p, Some l => Some ((p - 1) * l)
  | _, _ => None
  end in
let paginatedRecords :=
  match offset, limitNum with
  | Some o, Some l => JS.slice o (o + l) allRecords
  | _, _ => JS.slice 0 0 allRecords
  end in
(paginatedRecords,
 {| page := pageNum;
    limit := limitNum;
    total := length allRecords;
    totalPages :=
      match limitNum with
      | Some l => if l =? 0 then None
                  else Some (ceil_div (Z.of_nat (length allRecords)) l)
      | None => None
      end;
    hasNext :=
      match offset, limitNum with
      | Some o, Some l => o + l <? Z.of_nat (length allRecords)
      | _, _ => false
      end;
    hasPrev := match pageNum with Some p => 1 <? p | None => false end |}).

(** the records the route selects: every valid record of the given date, or
    the valid records of the session user in the range (by default the last
    thirty days), latest first *)
Definition history_records (now : Z) (req : history_request) (tbl : list Entry.t)
  : list Entry.t :=
match date req with
| Some d =>
    Attendance.by_scan_time_desc
      (filter (fun r => Entry.scan_date r = d ∧ Entry.status r = valid) tbl)
| None =>
    let endDate := default (date_of now) (end_date req) in
    let startDate := default (date_of now - 30) (start_date req) in
    Attendance.by_scan_time_desc
      (filter (fun r => Entry.user_id r = user_id (hist_user req)
                        ∧ Attendance.between startDate endDate (Entry.scan_date r) = true
                        ∧ Entry.status r = valid) tbl)
end.

(** the route *)
Definition attendance_history (now : Z) (req : history_request) (tbl : list Entry.t)
  : list Entry.t * pagination :=
paginate (pageNum req) (limitNum req) (history_records now req tbl).

(** *** GET /attendance/summary *)

Inductive day_status := not_checked_in | checked_in | checked_out.

(** [data.today.status] of the answer *)
Definition summary_status (now : Z) (userId : string) (tbl : list Entry.t)
  : day_status :=
let todayStatus := Attendance.findByUserAndDate userId (date_of now) tbl in
match last todayStatus with
| Some lastRecord =>
    if action_eqb (Attendance.actionType lastRecord) check_in
    then checked_in else checked_out
| None => not_checked_in
end.

End Api.

(** ** The socket handler (services/SocketIOHandlers.js) *)
Module SocketIOHandlers.

(** what [processRFIDScan] sends back: an [attendance_error] with its code,
    or the broadcast [attendance_processed] *)
Inductive outcome :=
| attendance_error (error : string)
| attendance_processed (act : action) (attendance : Attendance.t)
                       (event : option Z).

Section Handler.

(** [User.findById] over the users table of the moment *)
Variable findById : string -> option session_user.

(** [processRFIDScan(cardId, eventId = null, originSocket = null)] *)
Definition processRFIDScan (now : Z) (cardId : string) (eventId : option Z)
           (tbl : list Entry.t) : outcome * list Entry.t :=
match findById cardId with
| None => (attendance_error "USER_NOT_FOUND", tbl)
| Some user =>
    let today := date_of now in
    if Attendance.checkDuplicateScan now (user_id user) cardId 5 tbl
    then (attendance_error "DUPLICATE_SCAN", tbl)
    else
      let lastScan := Attendance.getLastScanForUser (user_id user) (Some today) tbl in
      let actionType :=
        match lastScan with
        | None => check_in
        | Some lastScan =>
            if action_eqb (Attendance.actionType lastScan) check_out
            then check_in else check_out
        end in
      let attendanceData :=
        {| AttendanceData.userId := user_id user;
           AttendanceData.rfidCard := cardId;
           AttendanceData.scanTime := now;
           AttendanceData.scanDate := today;
           AttendanceData.actionType := actionType;
           AttendanceData.eventId := eventId;
           AttendanceData.clientIp := None;
           AttendanceData.gatewayIp := None;
           AttendanceData.wifiName := None;
           AttendanceData.location := None;
           AttendanceData.notes := None;
           AttendanceData.status := Some valid |} in
      match Attendance.recordAttendance attendanceData tbl with
      | Some (attendance, tbl') =>
          (attendance_processed actionType attendance
             (if JS.truthy_onum eventId then eventId else None), tbl')
      | None => (attendance_error "PROCESSING_ERROR", tbl)
      end
end.

End Handler.

(** *** The registry of connected clients *)

(** [connectedClients] maps a socket to the user of its [clientInfo], if it
    has one; the two rooms are the sockets that [socket.join] has put in
    them, and a socket leaves its rooms when it disconnects *)
Record clients := mkClients {
  connectedClients : gmap string (option Auth.account);
  adminClients : gset string;
  staffClients : gset string;
  admin_room : gset string;
  staff_room : gset string
}.

Definition constructor : clients :=
{| connectedClients := ∅; adminClients := ∅; staffClients := ∅;
   admin_room := ∅; staff_room := ∅ |}.

(** what reaches the handlers of a socket; [found] is the user that
    [User.findById(data.userId)] has answered, [None] when [data.userId] is
    missing, when no user is found and when the lookup fails *)
Inductive socket_event :=
| connection (id : string)
| disconnect (id : string)
| authenticate (id : string) (found : option Auth.account)
| join_admin_room (id : string)
| join_staff_room (id : string).

Definition is_staff_role (role : string) : bool :=
String.eqb role "staff" || String.eqb role "at_work".

Definition handle (e : socket_event) (s : clients) : clients :=
match e with
| connection id =>
    {| connectedClients := <[id := None]> (connectedClients s);
       adminClients := adminClients s; staffClients := staffClients s;
       admin_room := admin_room s; staff_room := staff_room s |}
| disconnect id =>
    {| connectedClients := delete id (connectedClients s);
       adminClients := adminClients s ∖ {[id]};
       staffClients := staffClients s ∖ {[id]};
       admin_room := admin_room s ∖ {[id]};
       staff_room := staff_room s ∖ {[id]} |}
| authenticate id (Some user) =>
    match connectedClients s !! id with
    | Some _ =>
        {| connectedClients := <[id := Some user]> (connectedClients s);
           adminClients :=
             if String.eqb (Auth.account_role user) "admin"
             then {[id]} ∪ adminClients s else adminClients s;
           staffClients :=
             if String.eqb (Auth.account_role user) "admin" then staffClients s
             else if is_staff_role (Auth.account_role user)
             then {[id]} ∪ staffClients s else staffClients s;
           admin_room := admin_room s; staff_room := staff_room s |}
    | None => s
    end
| authenticate id None => s
| join_admin_room id =>
    match connectedClients s !! id with
    | Some (Some user) =>
        if String.eqb (Auth.account_role user) "admin"
        then {| connectedClients := connectedClients s;
                adminClients := adminClients s; staffClients := staffClients s;
                admin_room := {[id]} ∪ admin_room s; staff_room := staff_room s |}
        else s
    | _ => s
    end
| join_staff_room id =>
    match connectedClients s !! id with
    | Some (Some user) =>
        if is_staff_role (Auth.account_role user)
        then {| connectedClients := connectedClients s;
                adminClients := adminClients s; staffClients := staffClients s;
                admin_room := admin_room s; staff_room := {[id]} ∪ staff_room s |}
        else s
    | _ => s
    end
end.

(** [getConnectionStats()]: the three counts *)
Definition getConnectionStats (s : clients) : nat * nat * nat :=
(size (connectedClients s), size (adminClients s), size (staffClients s)).

End SocketIOHandlers.

(** ** The staff routes (routes/staff.js) *)
Module Staff.

(** the object [POST /checkoutwork] expects from [Attendance.getTodayStatus] *)
Record today_status := mkToday {
  check_in_time : option Z;
  check_out_time : option Z
}.

Section Routes.

Variable findByRfidCard : string -> card_lookup.

(** [Attendance.getTodayStatus(userId, today)]: the route calls it, and the
    model class of models/Attendance.js does not define it; it is left open
    here *)
Variable getTodayStatus : string -> Z -> list Entry.t -> option today_status.

Definition office_record (now : Z) (req : scan_request) (rfid_card : string)
           (actionType : action) : AttendanceData.t :=
{| AttendanceData.userId := user_id (req_user req);
   AttendanceData.rfidCard := rfid_card;
   AttendanceData.scanTime := now;
   AttendanceData.scanDate := date_of now;
   AttendanceData.actionType := actionType;
   AttendanceData.eventId := None;
   AttendanceData.clientIp := info_clientIp req;
   AttendanceData.gatewayIp := info_gatewayIp req;
   AttendanceData.wifiName := info_wifiName req;
   AttendanceData.location := Some "Main Office";
   AttendanceData.notes := None;
   AttendanceData.status := Some valid |}.

(** [POST /checkinwork] *)
Definition checkinwork (now : Z) (req : scan_request) (tbl : list Entry.t)
  : response * list Entry.t :=
match rfid_card req with
| None | Some EmptyString => (Failure 400 "MISSING_RFID", tbl)
| Some rfid_card =>
    let userId := user_id (req_user req) in
    let today := date_of now in
    if Attendance.checkDuplicateScan now userId rfid_card 5 tbl
    then (Failure 429 "DUPLICATE_SCAN", tbl)
    else
      let actionType :=
        match Attendance.getLastScanForUser userId (Some today) tbl with
        | Some lastScan => toggle (Attendance.actionType lastScan)
        | None => check_in
        end in
      match Attendance.recordAttendance (office_record now req rfid_card actionType) tbl with
      | Some (attendance, tbl') => (Success actionType now attendance None, tbl')
      | None => (Failure 500 "CHECKIN_ERROR", tbl)
      end
end.

(** [POST /checkoutwork] *)
Definition checkoutwork (now : Z) (req : scan_request) (tbl : list Entry.t)
  : response * list Entry.t :=
match rfid_card req with
| None | Some EmptyString => (Failure 400 "MISSING_RFID", tbl)
| Some rfid_card =>
    let userId := user_id (req_user req) in
    let today := date_of now in
    if Attendance.checkDuplicateScan now userId rfid_card 5 tbl
    then (Failure 429 "DUPLICATE_SCAN", tbl)
    else
      let card_check :=
        if negb (bool_decide (method req = Some "manual"))
        then match findByRfidCard rfid_card with
             | Owner i => if String.eqb i userId then None
                          else Some (Failure 403 "INVALID_CARD")
             | NoOwner => Some (Failure 403 "INVALID_CARD")
             | LookupError => Some (Failure 500 "CHECKOUT_ERROR")
             end
        else None in
      match card_check with
      | Some failure => (failure, tbl)
      | None =>
          match getTodayStatus userId today tbl with
          | None => (Failure 400 "NOT_CHECKED_IN", tbl)
          | Some todayAttendance =>
              if negb (JS.present (check_in_time todayAttendance))
              then (Failure 400 "NOT_CHECKED_IN", tbl)
              else if JS.present (check_out_time todayAttendance)
              then (Failure 400 "ALREADY_CHECKED_OUT", tbl)
              else
                match Attendance.recordAttendance
                        (office_record now req rfid_card check_out) tbl with
                | Some (attendance, tbl') =>
                    (Success check_out now attendance None, tbl')
                | None => (Failure 500 "CHECKOUT_ERROR", tbl)
                end
          end
      end
end.

End Routes.

End Staff.

(** ** Event checkpoints: registry, logging and the availability matrix
    (routes/api.js) *)

Inductive checkpoint_kind := IN | OUT.

#[global] Instance checkpoint_kind_eq_dec : EqDecision checkpoint_kind.
Proof. solve_decision. Defined.

(** a row of table [events] *)
Module Event.
Record t := mk { id : Z; name : string }.
End Event.

(** a row of table [event_checkpoints] *)
Module Checkpoint.
Record t := mk {
  event_name : string;
  checkpoint_name : string;
  checkpoint_type : checkpoint_kind;
  display_order : Z;
  is_active : bool
}.
End Checkpoint.

(** a row of table [event_participants] *)
Module Participant.
Record t := mk {
  event_id : Z;
  user_id : string;
  name : option string;
  phone : option string
}.
End Participant.

(** a row of table [event_checkpoint_logs] *)
Module Log.
Record t := mk {
  event_id : Z;
  user_id : string;
  checkpoint_name : string;
  action_time : Z;
  method : string
}.
End Log.

Module EventManager.

Record database := mkDb {
  events : list Event.t;
  event_checkpoints : list Checkpoint.t;
  event_participants : list Participant.t;
  event_checkpoint_logs : list Log.t
}.

(** [SELECT name FROM events WHERE id = ?], first row *)
Definition event_name_of (i : Z) (db : database) : option string :=
Event.name <$> head (filter (fun e => Event.id e = i) (events db)).

(** [SELECT id FROM events WHERE name = ? LIMIT 1] *)
Definition event_id_of (n : string) (db : database) : option Z :=
Event.id <$> head (filter (fun e => Event.name e = n) (events db)).

(** *** POST /event-manager/add-checkpoint *)

Record add_request := mkAdd {
  add_role : option string;
  add_event_name : option string;
  add_event_id : option Z;
  add_checkpoint_name : option string;
  add_checkpoint_type : option string;
  add_type : option string;
  add_checkpointType : option string;
  add_display_order : option Z
}.

(** the five answers of the route: 403, three 400 with their message, 200 *)
Inductive add_answer :=
| add_forbidden
| add_missing_fields
| add_invalid_type
| add_invalid_name
| add_done.

(** [a ?? b] *)
Definition nullish_or {A} (a b : option A) : option A :=
match a with Some _ => a | None => b end.

(** [/^[A-Z0-9_]+$/.test(name)] *)
Definition name_ok (name : string) : bool :=
JS.truthy_str name
&& JS.all_chars (fun c => JS.is_upper c || JS.is_digit c || Ascii.eqb c "_") name.

(** [String(checkpoint_name).trim().replace(/[\s-]+/g, '_').toUpperCase()] *)
Definition normalize_name (checkpoint_name : string) : string :=
JS.toUpperCase
  (JS.replace_runs (fun c => JS.is_space c || Ascii.eqb c "-") "_" false
     (JS.trim checkpoint_name)).

Definition parse_kind (type : string) : option checkpoint_kind :=
if String.eqb type "IN" then Some IN
else if String.eqb type "OUT" then Some OUT
else None.

Definition same_key (event_name name : string) (c : Checkpoint.t) : bool :=
String.eqb (Checkpoint.event_name c) event_name
&& String.eqb (Checkpoint.checkpoint_name c) name.

(** the INSERT, and on its failure the UPDATE of the existing row: the table
    has a unique key on (event_name, checkpoint_name) *)
Definition upsert (event_name name : string) (type : checkpoint_kind) (order : Z)
           (cps : list Checkpoint.t) : list Checkpoint.t :=
if existsb (same_key event_name name) cps
then map (fun c =>
            if same_key event_name name c
            then {| Checkpoint.event_name := Checkpoint.event_name c;
                    Checkpoint.checkpoint_name := Checkpoint.checkpoint_name c;
                    Checkpoint.checkpoint_type := type;
                    Checkpoint.display_order := order;
                    Checkpoint.is_active := true |}
            else c) cps
else cps ++ [ {| Checkpoint.event_name := event_name;
                 Checkpoint.checkpoint_name := name;
                 Checkpoint.checkpoint_type := type;
                 Checkpoint.display_order := order;
                 Checkpoint.is_active := true |} ].

Definition set_checkpoints (cps : list Checkpoint.t) (db : database) : database :=
{| events := events db; event_checkpoints := cps;
   event_participants := event_participants db;
   event_checkpoint_logs := event_checkpoint_logs db |}.

(** [req.user && ['admin', 'event_manager'].includes(req.user.role)] *)
Definition allowed_role (role : option string) : bool :=
match role with
| Some role => String.eqb role "admin" || String.eqb role "event_manager"
| None => false
end.

(** the route; [display_order] is a number or absent *)
Definition add_checkpoint (req : add_request) (db : database)
  : add_answer * database :=
if negb (allowed_role (add_role req)) then (add_forbidden, db)
else
    let resolvedEventName :=
      if negb (JS.truthy_ostr (add_event_name req)) && JS.truthy_onum (add_event_id req)
      then match event_name_of (default 0 (add_event_id req)) db with
           | Some n => Some n
           | None => add_event_name req
           end
      else add_event_name req in
    if negb (JS.truthy_ostr resolvedEventName)
       || negb (JS.truthy_ostr (add_checkpoint_name req))
    then (add_missing_fields, db)
    else
      let rawType :=
        default "IN"
          (nullish_or (add_checkpoint_type req)
             (nullish_or (add_type req) (add_checkpointType req))) in
      match parse_kind (JS.toUpperCase rawType) with
      | None => (add_invalid_type, db)
      | Some type =>
          let name := normalize_name (default "" (add_checkpoint_name req)) in
          if negb (name_ok name) then (add_invalid_name, db)
          else
            let order := default 1 (add_display_order req) in
            (add_done,
             set_checkpoints
               (upsert (default "" resolvedEventName) name type order
                       (event_checkpoints db)) db)
      end.

(** *** POST /event-manager/check *)

(** the database flavour and what the schema of [event_participants] says
    about column [user_id] *)
Record config := mkConfig {
  DB_TYPE_mysql : bool;
  user_id_is_int : bool
}.

Record check_request := mkCheck {
  chk_event_name : option string;
  chk_event_id : option Z;
  column_type : option string;
  card_id : option string;
  qr_data : option string;
  customer_id : option string;
  customer_name : option string;
  customer_phone : option string
}.

Inductive check_answer :=
| check_failed (http : nat) (error : string)
| checked (user_id : string) (checkpoint : string) (time : Z) (event_id : Z).

Definition set_participants (ps : list Participant.t) (db : database) : database :=
{| events := events db; event_checkpoints := event_checkpoints db;
   event_participants := ps;
   event_checkpoint_logs := event_checkpoint_logs db |}.

Definition set_logs (ls : list Log.t) (db : database) : database :=
{| events := events db; event_checkpoints := event_checkpoints db;
   event_participants := event_participants db;
   event_checkpoint_logs := ls |}.

(** the event of the request: the given id, else the id of the given name *)
Definition resolve_event (req : check_request) (db : database) : option Z :=
let resolvedEventId :=
  if JS.truthy_onum (chk_event_id req) then chk_event_id req else None in
if negb (JS.truthy_onum resolvedEventId) && JS.truthy_ostr (chk_event_name req)
then match event_id_of (default "" (chk_event_name req)) db with
     | Some i => Some i
     | None => resolvedEventId
     end
else resolvedEventId.

(** [SELECT 1 FROM event_checkpoints WHERE event_name = ? AND
    checkpoint_name = ? AND is_active = 1 LIMIT 1] is not empty *)
Definition checkpoint_active (event_name checkpoint : string) (db : database) : bool :=
existsb (fun c => same_key event_name checkpoint c && Checkpoint.is_active c)
        (event_checkpoints db).

(** the identifier of the person: card, else QR payload, else typed id *)
Definition identifier_of (req : check_request) : option string :=
if JS.truthy_ostr (card_id req) then JS.trim <$> card_id req
else if JS.truthy_ostr (qr_data req) then JS.trim <$> qr_data req
else if JS.truthy_ostr (customer_id req) then JS.trim <$> customer_id req
else None.

Definition method_of (req : check_request) : string :=
if JS.truthy_ostr (card_id req) then "rfid"
else if JS.truthy_ostr (qr_data req) then "qr" else "manual".

Definition is_participant (eventId : Z) (userId : string) (db : database) : bool :=
existsb (fun p => (Participant.event_id p =? eventId)
                  && String.eqb (Participant.user_id p) userId)
        (event_participants db).

(** the route; [now] is the clock in seconds *)
Definition check (cfg : config) (now : Z) (req : check_request) (db : database)
  : check_answer * database :=
if negb (JS.truthy_ostr (chk_event_name req)) && negb (JS.truthy_onum (chk_event_id req))
then (check_failed 400 "MISSING_EVENT", db)
else
match column_type req with
| None | Some EmptyString => (check_failed 400 "MISSING_CHECKPOINT", db)
| Some column_type =>
    match resolve_event req db with
    | None => (check_failed 404 "EVENT_NOT_FOUND", db)
    | Some resolvedEventId =>
        if negb (JS.truthy_num resolvedEventId)
        then (check_failed 404 "EVENT_NOT_FOUND", db)
        else if negb (checkpoint_active
                        (default "" (JS.or_null (chk_event_name req)))
                        column_type db)
        then (check_failed 400 "CHECKPOINT_NOT_FOUND", db)
        else
          match identifier_of req with
          | None => (check_failed 400 "NO_IDENTIFIER", db)
          | Some userId =>
              if DB_TYPE_mysql cfg && user_id_is_int cfg
                 && negb (JS.truthy_str userId && JS.all_chars JS.is_digit userId)
              then (check_failed 400 "INVALID_USER_ID", db)
              else
                let enrolled :=
                  if is_participant resolvedEventId userId db then Some db
                  else if JS.truthy_ostr (customer_name req)
                  then Some (set_participants
                               (event_participants db ++
                                [ {| Participant.event_id := resolvedEventId;
                                     Participant.user_id := userId;
                                     Participant.name := customer_name req;
                                     Participant.phone :=
                                       Some (default "" (JS.or_null (customer_phone req))) |} ])
                               db)
                  else None in
                match enrolled with
                | None => (check_failed 404 "PARTICIPANT_NOT_FOUND", db)
                | Some db1 =>
                    (checked userId column_type now resolvedEventId,
                     set_logs
                       (event_checkpoint_logs db1 ++
                        [ {| Log.event_id := resolvedEventId;
                             Log.user_id := userId;
                             Log.checkpoint_name := column_type;
                             Log.action_time := now;
                             Log.method := method_of req |} ])
                       db1)
                end
          end
    end
end.

(** *** GET /event-manager/available *)

(** a row of the answer: the participant and, per header, the last time or
    nothing (the empty string of the source) *)
Record customer := mkCustomer {
  cust_id : string;
  cust_name : string;
  cust_phone : string;
  cells : list (string * option Z)
}.

Inductive available_answer :=
| available_failed (http : nat) (error : string)
| matrix (headers : list string) (customers : list customer).

Definition order_le (a b : Checkpoint.t) : Prop :=
Checkpoint.display_order a <= Checkpoint.display_order b.

#[global] Instance order_le_dec a b : Decision (order_le a b) := Z_le_dec _ _.

Definition user_le (a b : Participant.t) : Prop :=
String.leb (Participant.user_id a) (Participant.user_id b) = true.

#[global] Instance user_le_dec a b : Decision (user_le a b).
Proof. unfold user_le. solve_decision. Defined.

(** the active checkpoint names of the event, [ORDER BY display_order] *)
Definition headers_of (event_name : string) (db : database) : list string :=
Checkpoint.checkpoint_name <$>
  merge_sort order_le
    (filter (fun c => Checkpoint.event_name c = event_name
                      ∧ Checkpoint.is_active c = true)
            (event_checkpoints db)).

(** the participants of the event, [ORDER BY user_id] *)
Definition participants_of (eventId : Z) (db : database) : list Participant.t :=
merge_sort user_le
  (filter (fun p => Participant.event_id p = eventId) (event_participants db)).

(** [MAX(action_time)] of a group *)
Definition max_time (times : list Z) : Z := foldr Z.max (hd 0 times) times.

(** [SELECT user_id, checkpoint_name, MAX(action_time) AS last_time ..
    WHERE event_id = ? GROUP BY user_id, checkpoint_name] *)
Definition logsRows (eventId : Z) (db : database) : list (string * string * Z) :=
let rows := filter (fun l => Log.event_id l = eventId) (event_checkpoint_logs db) in
(fun k : string * string =>
   (k.1, k.2,
    max_time
      (Log.action_time <$>
         filter (fun l => Log.user_id l = k.1 ∧ Log.checkpoint_name l = k.2) rows)))
  <$> remove_dups ((fun l => (Log.user_id l, Log.checkpoint_name l)) <$> rows).

(** the key of [logMap]: [uid + '::' + checkpoint_name] *)
Definition log_key (uid checkpoint : string) : string :=
uid +:+ "::" +:+ checkpoint.

(** [logMap]: one [set] per grouped row, in the order of the rows *)
Definition logMap_of (rows : list (string * string * Z)) : gmap string Z :=
foldl (fun m r => <[log_key r.1.1 r.1.2 := r.2]> m) ∅ rows.

(** the route *)
Definition available (event_name : option string) (db : database)
  : available_answer :=
match event_name with
| None | Some EmptyString => available_failed 400 "MISSING_EVENT_NAME"
| Some event_name =>
    match event_id_of event_name db with
    | None => available_failed 404 "EVENT_NOT_FOUND"
    | Some eventId =>
        let headers := headers_of event_name db in
        let participants := participants_of eventId db in
        let logMap := logMap_of (logsRows eventId db) in
        let customers :=
          (fun p =>
             {| cust_id := Participant.user_id p;
                cust_name := default "" (JS.or_null (Participant.name p));
                cust_phone := default "" (JS.or_null (Participant.phone p));
                cells :=
                  (fun h => (h, logMap !! log_key (Participant.user_id p) h))
                    <$> headers |})
            <$> participants in
        matrix headers customers
    end
end.

(** the cell of a participant under a header, read in the row object *)
Definition cell (c : customer) (h : string) : option Z :=
match List.find (fun hv => String.eqb hv.1 h) (rev (cells c)) with
| Some hv => hv.2
| None => None
end.

(** *** POST /event-manager/list-checkpoints, remove-checkpoint and
    update-checkpoint-order *)

(** the event name of a registry request: the given name, else the name of
    the event with the given id *)
Definition resolved_event_name (event_name : option string) (event_id : option Z)
           (db : database) : option string :=
if negb (JS.truthy_ostr event_name) && JS.truthy_onum event_id
then match event_name_of (default 0 event_id) db with
     | Some n => Some n
     | None => event_name
     end
else event_name.

(** an item of [columns] *)
Record column := mkColumn {
  col_name : string;
  col_type : checkpoint_kind;
  col_order : Z
}.

Inductive list_answer :=
| list_forbidden
| list_missing_event
| listed (columns : list column).

(** [ORDER BY display_order ASC, checkpoint_name ASC], names compared by
    their character codes *)
Definition listing_le (a b : Checkpoint.t) : Prop :=
Checkpoint.display_order a < Checkpoint.display_order b
\/ (Checkpoint.display_order a = Checkpoint.display_order b
    /\ String.leb (Checkpoint.checkpoint_name a) (Checkpoint.checkpoint_name b) = true).

#[global] Instance listing_le_dec a b : Decision (listing_le a b).
Proof. unfold listing_le. solve_decision. Defined.

Definition column_of (c : Checkpoint.t) : column :=
{| col_name := Checkpoint.checkpoint_name c;
   col_type := Checkpoint.checkpoint_type c;
   col_order := Checkpoint.display_order c |}.

(** the listing route (its first, answering handler) *)
Definition list_checkpoints (role : option string) (event_name : option string)
           (event_id : option Z) (db : database) : list_answer :=
if negb (allowed_role role) then list_forbidden
else
  let resolvedEventName := resolved_event_name event_name event_id db in
  if negb (JS.truthy_ostr resolvedEventName) then list_missing_event
  else
    listed
      (column_of <$>
         merge_sort listing_le
           (filter (fun c => Checkpoint.event_name c = default "" resolvedEventName
                             ∧ Checkpoint.is_active c = true)
                   (event_checkpoints db))).

Record remove_request := mkRemove {
  rm_role : option string;
  rm_event_name : option string;
  rm_event_id : option Z;
  rm_checkpoint_name : option string
}.

Inductive remove_answer :=
| remove_forbidden
| remove_missing_fields
| remove_done.

(** [UPDATE event_checkpoints SET is_active = 0 WHERE event_name = ? AND
    checkpoint_name = ?] *)
Definition deactivate (event_name name : string) (cps : list Checkpoint.t)
  : list Checkpoint.t :=
map (fun c =>
       if same_key event_name name c
       then {| Checkpoint.event_name := Checkpoint.event_name c;
               Checkpoint.checkpoint_name := Checkpoint.checkpoint_name c;
               Checkpoint.checkpoint_type := Checkpoint.checkpoint_type c;
               Checkpoint.display_order := Checkpoint.display_order c;
               Checkpoint.is_active := false |}
       else c) cps.

(** the removal route (its first, answering handler): the name is used as
    given *)
Definition remove_checkpoint (req : remove_request) (db : database)
  : remove_answer * database :=
if negb (allowed_role (rm_role req)) then (remove_forbidden, db)
else
  let resolvedEventName :=
    resolved_event_name (rm_event_name req) (rm_event_id req) db in
  if negb (JS.truthy_ostr resolvedEventName)
     || negb (JS.truthy_ostr (rm_checkpoint_name req))
  then (remove_missing_fields, db)
  else
    (remove_done,
     set_checkpoints
       (deactivate (default "" resolvedEventName)
                   (default "" (rm_checkpoint_name req))
                   (event_checkpoints db)) db).

(** [UPDATE event_checkpoints SET display_order = ? WHERE event_name = ? AND
    checkpoint_name = ?] *)
Definition set_order (event_name name : string) (order : Z) (cps : list Checkpoint.t)
  : list Checkpoint.t :=
map (fun c =>
       if same_key event_name name c
       then {| Checkpoint.event_name := Checkpoint.event_name c;
               Checkpoint.checkpoint_name := Checkpoint.checkpoint_name c;
               Checkpoint.checkpoint_type := Checkpoint.checkpoint_type c;
               Checkpoint.display_order := order;
               Checkpoint.is_active := Checkpoint.is_active c |}
       else c) cps.

Inductive order_answer :=
| order_invalid_request
| order_done.

(** the reordering route; [checkpoints] is [None] when the body carries no
    array, and each item carries a name and a number *)
Definition update_checkpoint_order (event_name : option string)
           (checkpoints : option (list (string * Z))) (db : database)
  : order_answer * database :=
match checkpoints with
| Some checkpoints =>
    if negb (JS.truthy_ostr event_name) then (order_invalid_request, db)
    else
      (order_done,
       set_checkpoints
         (foldl (fun cps cp => set_order (default "" event_name) cp.1 cp.2 cps)
                (event_checkpoints db) checkpoints) db)
| None => (order_invalid_request, db)
end.

(** *** POST /event-manager/remove-participant *)

Inductive remove_participant_answer :=
| participant_missing_fields
| participant_forbidden
| participant_event_not_found
| participant_removed (logsDeleted participantsDeleted : nat).

Definition log_of (eventId : Z) (userId : string) (l : Log.t) : Prop :=
Log.event_id l = eventId /\ Log.user_id l = userId.

#[global] Instance log_of_dec e u l : Decision (log_of e u l).
Proof. unfold log_of. solve_decision. Defined.

Definition enrolment_of (eventId : Z) (userId : string) (p : Participant.t) : Prop :=
Participant.event_id p = eventId /\ Participant.user_id p = userId.

#[global] Instance enrolment_of_dec e u p : Decision (enrolment_of e u p).
Proof. unfold enrolment_of. solve_decision. Defined.

(** the route: the two DELETE statements run in one transaction *)
Definition remove_participant (role : option string) (event_name user_id : option string)
           (db : database) : remove_participant_answer * database :=
if negb (JS.truthy_ostr event_name) || negb (JS.truthy_ostr user_id)
then (participant_missing_fields, db)
else if negb (allowed_role role) then (participant_forbidden, db)
else
  match event_id_of (default "" event_name) db with
  | None => (participant_event_not_found, db)
  | Some eventId =>
      let uid := default "" user_id in
      let logs := event_checkpoint_logs db in
      let participants := event_participants db in
      (participant_removed
         (length (filter (log_of eventId uid) logs))
         (length (filter (enrolment_of eventId uid) participants)),
       set_participants
         (filter (fun p => ~ enrolment_of eventId uid p) participants)
         (set_logs (filter (fun l => ~ log_of eventId uid l) logs) db))
  end.

(** *** GET /event-manager/export-availability *)

(** a row of the sheet under the header row: the three fixed cells and one
    value per header *)
Record sheet_row := mkSheetRow {
  sheet_id : string;
  sheet_name : string;
  sheet_phone : string;
  sheet_values : list (option Z)
}.

Inductive export_answer :=
| export_missing_event_name
| export_forbidden
| export_event_not_found
| sheet (safeName : string) (headerRow : list string) (rows : list sheet_row).

(** [a-zA-Z0-9_-] *)
Definition is_file_char (c : ascii) : bool :=
JS.is_lower c || JS.is_upper c || JS.is_digit c || Ascii.eqb c "_" || Ascii.eqb c "-".

(** the route, up to the encoding of the sheet *)
Definition export_availability (role : option string) (event_name : option string)
           (db : database) : export_answer :=
match event_name with
| None | Some EmptyString => export_missing_event_name
| Some event_name =>
    if negb (allowed_role role) then export_forbidden
    else
      match event_id_of event_name db with
      | None => export_event_not_found
      | Some eventId =>
          let headers := headers_of event_name db in
          let participants := participants_of eventId db in
          let logMap := logMap_of (logsRows eventId db) in
          let rows :=
            (fun p =>
               {| sheet_id := Participant.user_id p;
                  sheet_name := default "" (JS.or_null (Participant.name p));
                  sheet_phone := default "" (JS.or_null (Participant.phone p));
                  sheet_values :=
                    (fun h => logMap !! log_key (Participant.user_id p) h)
                      <$> headers |})
              <$> participants in
          sheet (JS.replace_runs (fun c => negb (is_file_char c)) "_" false event_name)
                ("ID" :: "Name" :: "Phone" :: headers) rows
      end
end.

(** *** importParticipantsCore and POST /event-manager/import-participants *)

(** what the function finds out about table [event_participants] before it
    reads the list: the kind and the maximal length of column [user_id],
    the presence of columns [name] and [phone] and their maximal lengths;
    a length is [None] for [null] *)
Record schema := mkSchema {
  userIdIsNumeric : bool;
  userIdMaxLen : option nat;
  hasNameCol : bool;
  hasPhoneCol : bool;
  nameMaxLen : option nat;
  phoneMaxLen : option nat
}.

(** an item of [participants], under the two spellings of its keys *)
Record import_item := mkItem {
  item_id : option string;
  item_ID : option string;
  item_name : option string;
  item_Name : option string;
  item_phone : option string;
  item_Phone : option string
}.

(** the counters of the answer *)
Record import_report := mkReport {
  inserted : nat;
  updated : nat;
  skipped : nat;
  missingFields : nat;
  idTooLong : nat;
  idInvalid : nat
}.

Inductive import_answer :=
| import_forbidden
| import_failed (status : nat)
| imported (report : import_report).

(** a length in a condition: [null] and zero are falsy *)
Definition truthy_len (o : option nat) : bool :=
match o with Some n => negb (Nat.eqb n 0) | None => false end.

(** [normalizePhone] *)
Definition normalizePhone (s : string) : string :=
if negb (JS.truthy_str s) then ""
else JS.filter_chars (fun c => Ascii.eqb c "+" || JS.is_digit c) s.

(** [value.slice(0, max)] when the column has a maximal length and the value
    is longer *)
Definition clip (has : bool) (max : option nat) (value : string) : string :=
if has && truthy_len max && JS.truthy_str value
   && (default O max <? String.length value)%nat
then JS.slice_str (default O max) value
else value.

Definition skip_missing (r : import_report) : import_report :=
{| inserted := inserted r; updated := updated r; skipped := S (skipped r);
   missingFields := S (missingFields r); idTooLong := idTooLong r;
   idInvalid := idInvalid r |}.

Definition skip_invalid (r : import_report) : import_report :=
{| inserted := inserted r; updated := updated r; skipped := S (skipped r);
   missingFields := missingFields r; idTooLong := idTooLong r;
   idInvalid := S (idInvalid r) |}.

Definition skip_too_long (r : import_report) : import_report :=
{| inserted := inserted r; updated := updated r; skipped := S (skipped r);
   missingFields := missingFields r; idTooLong := S (idTooLong r);
   idInvalid := idInvalid r |}.

Definition count_updated (r : import_report) : import_report :=
{| inserted := inserted r; updated := S (updated r); skipped := skipped r;
   missingFields := missingFields r; idTooLong := idTooLong r;
   idInvalid := idInvalid r |}.

Definition count_inserted (r : import_report) : import_report :=
{| inserted := S (inserted r); updated := updated r; skipped := skipped r;
   missingFields := missingFields r; idTooLong := idTooLong r;
   idInvalid := idInvalid r |}.

Section Participants.

Variable sch : schema.

(** the text under which a numeric column [user_id] gives back the number
    that [parseInt] reads in a string of digits *)
Variable stored_number : string -> string.

(** the identifier under which an item is stored, or the counter of the
    reason for which it is skipped *)
Definition import_uid (p : import_item)
  : string + (import_report -> import_report) :=
let uidRaw := JS.trim (default "" (nullish_or (item_id p) (nullish_or (item_ID p) (Some "")))) in
if negb (JS.truthy_str uidRaw) then inr skip_missing
else if userIdIsNumeric sch
then if negb (JS.all_chars JS.is_digit uidRaw) then inr skip_invalid
     else inl (stored_number uidRaw)
else if truthy_len (userIdMaxLen sch)
        && (default O (userIdMaxLen sch) <? String.length uidRaw)%nat
then inr skip_too_long
else inl uidRaw.

(** one turn of the loop *)
Definition import_one (eventId : Z) (st : database * import_report) (p : import_item)
  : database * import_report :=
let name :=
  clip (hasNameCol sch) (nameMaxLen sch)
       (JS.trim (default "" (nullish_or (item_name p) (nullish_or (item_Name p) (Some ""))))) in
let phone :=
  clip (hasPhoneCol sch) (phoneMaxLen sch)
       (normalizePhone
          (JS.trim (default "" (nullish_or (item_phone p)
                                           (nullish_or (item_Phone p) (Some "")))))) in
match import_uid p with
| inr skip => (st.1, skip st.2)
| inl uid =>
    if is_participant eventId uid st.1
    then
      (set_participants
         (map (fun q =>
                 if (Participant.event_id q =? eventId)
                    && String.eqb (Participant.user_id q) uid
                 then {| Participant.event_id := Participant.event_id q;
                         Participant.user_id := Participant.user_id q;
                         Participant.name :=
                           if hasNameCol sch && JS.truthy_str name
                           then Some name else Participant.name q;
                         Participant.phone :=
                           if hasPhoneCol sch && JS.truthy_str phone
                           then Some phone else Participant.phone q |}
                 else q)
              (event_participants st.1))
         st.1,
       count_updated st.2)
    else
      (set_participants
         (event_participants st.1 ++
          [ {| Participant.event_id := eventId;
               Participant.user_id := uid;
               Participant.name :=
                 if hasNameCol sch then JS.or_null (Some name) else None;
               Participant.phone :=
                 if hasPhoneCol sch then JS.or_null (Some phone) else None |} ])
         st.1,
       count_inserted st.2)
end.

(** [importParticipantsCore({ event_name, event_id, participants })];
    [participants] is [None] when the body carries no array *)
Definition importParticipantsCore (event_name : option string) (event_id : option Z)
           (participants : option (list import_item)) (db : database)
  : import_answer * database :=
match participants with
| None | Some [] => (import_failed 400, db)
| Some participants =>
    if negb (JS.truthy_ostr event_name) && negb (JS.truthy_onum event_id)
    then (import_failed 400, db)
    else
      let resolvedEventId :=
        let given := if JS.truthy_onum event_id then event_id else None in
        if negb (JS.truthy_onum given) && JS.truthy_ostr event_name
        then match event_id_of (default "" event_name) db with
             | Some i => Some i
             | None => given
             end
        else given in
      if negb (JS.truthy_onum resolvedEventId) then (import_failed 404, db)
      else
        let final :=
          foldl (import_one (default 0 resolvedEventId))
                (db, {| inserted := 0; updated := 0; skipped := 0;
                        missingFields := 0; idTooLong := 0; idInvalid := 0 |})
                participants in
        (imported final.2, final.1)
end.

(** the route *)
Definition import_participants (role : option string) (event_name : option string)
           (event_id : option Z) (participants : option (list import_item))
           (db : database) : import_answer * database :=
if negb (allowed_role role) then (import_forbidden, db)
else importParticipantsCore event_name event_id participants db.

End Participants.

End EventManager.

(** ** Vocabulary of the statements *)

(** the action of a successful answer *)
Definition action_of (r : response) : option action :=
match r with
| Success act _ _ _ => Some act
| Failure _ _ => None
end.

(** the rows that are not voided *)
Definition valid_rows (tbl : list Entry.t) : list Entry.t :=
filter (fun r => Entry.status r = valid) tbl.

(** the actions recorded for a user on a day, in the order of the writes *)
Definition day_actions (userId : string) (day : Z) (tbl : list Entry.t) : list action :=
Entry.action_type <$>
  filter (fun r => Entry.user_id r = userId ∧ Entry.scan_date r = day
                   ∧ Entry.status r = valid) tbl.

(** the actions recorded for a user under an event, in the order of the writes *)
Definition event_actions (userId : string) (event : Z) (tbl : list Entry.t) : list action :=
Entry.action_type <$>
  filter (fun r => Entry.user_id r = userId ∧ Entry.event_id r = Some event
                   ∧ Entry.status r = valid) tbl.

(** [expected], then its opposite, and so on *)
Fixpoint alternates (expected : action) (l : list action) : bool :=
match l with
| [] => true
| a :: r => action_eqb a expected && alternates (toggle expected) r
end.

(** the requests of a list submitted one after the other to a route *)
Fixpoint replay (route : Z -> scan_request -> list Entry.t -> response * list Entry.t)
         (scans : list (Z * scan_request)) (tbl : list Entry.t) : list Entry.t :=
match scans with
| [] => tbl
| (now, req) :: rest => replay route rest (route now req tbl).2
end.

(** a request that carries a card and, possibly, an event *)
Definition plain_scan (user card : string) (event : option Z) : scan_request :=
{| req_user := {| user_id := user; user_name := user |};
   rfid_card := Some card; event_id := event; location := None;
   method := None; force_action := None; networkInfo := None; ip := None |}.

(** a request of the check-in and check-out routes *)
Definition located_scan (user card loc : string) (force : option string)
  : scan_request :=
{| req_user := {| user_id := user; user_name := user |};
   rfid_card := Some card; event_id := None; location := Some loc;
   method := None; force_action := force; networkInfo := None; ip := None |}.

(** a stored record of a user, with what the statements vary *)
Definition stored (i : nat) (user card : string) (time : Z) (act : action)
           (event : option Z) (st : validity) : Entry.t :=
{| Entry.id := i; Entry.user_id := user; Entry.rfid_card := card;
   Entry.scan_time := time; Entry.scan_date := date_of time;
   Entry.action_type := act; Entry.event_id := event;
   Entry.client_ip := None; Entry.gateway_ip := None; Entry.wifi_name := None;
   Entry.location := None; Entry.notes := None; Entry.status := st |}.

(** a users table without card owners, and a location lookup that succeeds *)
Definition no_owner (card : string) : card_lookup := NoOwner.

Definition main_gate (location : string) : option (option string) :=
Some (Some "Main Gate").

(** a users table in which every card number is the id of an active user *)
Definition card_holder (cardId : string) : option session_user :=
Some {| user_id := cardId; user_name := cardId |}.

(** no [:] in a name *)
Definition colon_free (s : string) : bool :=
JS.all_chars (fun c => negb (Ascii.eqb c ":")) s.

(** the instants logged for a participant at a checkpoint of an event, in the
    order of the writes *)
Definition times_at (eventId : Z) (uid checkpoint : string)
           (db : EventManager.database) : list Z :=
Log.action_time <$>
  filter (fun l => Log.user_id l = uid ∧ Log.checkpoint_name l = checkpoint)
         (filter (fun l => Log.event_id l = eventId)
                 (EventManager.event_checkpoint_logs db)).

(** a cell of the matrix: nothing without a log, else the greatest instant *)
Definition last_write (times : list Z) : option Z :=
match times with
| [] => None
| _ => Some (EventManager.max_time times)
end.

(** the part of a string after its last [:], the string itself without one *)
Fixpoint after_last_colon (s : string) : string :=
match s with
| EmptyString => EmptyString
| String c r =>
    if negb (JS.all_chars (fun c => negb (Ascii.eqb c ":")) r)
    then after_last_colon r
    else if Ascii.eqb c ":" then r else s
end.

(** the log row written by a check *)
Definition logged (eventId : Z) (uid checkpoint : string) (time : Z)
           (req : EventManager.check_request) : Log.t :=
{| Log.event_id := eventId; Log.user_id := uid;
   Log.checkpoint_name := checkpoint; Log.action_time := time;
   Log.method := EventManager.method_of req |}.

(** the action that continues an alternating sequence begun with [start] *)
Definition next_action (start : action) (l : list action) : action :=
match last l with
| Some a => toggle a
| None => start
end.

(** the rows of a user on a day that are not voided *)
Definition day_rows (userId : string) (day : Z) (tbl : list Entry.t) : list Entry.t :=
filter (fun r => Entry.user_id r = userId ∧ Entry.scan_date r = day
                 ∧ Entry.status r = valid) tbl.

Definition earlier (a b : Entry.t) : Prop := Entry.scan_time a < Entry.scan_time b.

(** a small event: one active checkpoint and one enrolled participant *)
Definition gala : EventManager.database :=
{| EventManager.events := [ {| Event.id := 1; Event.name := "Gala" |} ];
   EventManager.event_checkpoints :=
     [ {| Checkpoint.event_name := "Gala"; Checkpoint.checkpoint_name := "GATE_A";
          Checkpoint.checkpoint_type := IN; Checkpoint.display_order := 1;
          Checkpoint.is_active := true |} ];
   EventManager.event_participants :=
     [ {| Participant.event_id := 1; Participant.user_id := "42";
          Participant.name := None; Participant.phone := None |} ];
   EventManager.event_checkpoint_logs := [] |}.

Definition gala_check : EventManager.check_request :=
{| EventManager.chk_event_name := Some "Gala";
   EventManager.chk_event_id := None;
   EventManager.column_type := Some "GATE_A";
   EventManager.card_id := Some "42";
   EventManager.qr_data := None;
   EventManager.customer_id := None;
   EventManager.customer_name := None;
   EventManager.customer_phone := None |}.

Definition sqlite : EventManager.config :=
{| EventManager.DB_TYPE_mysql := false; EventManager.user_id_is_int := false |}.

(** the rows among which [getLastScanForUser] chooses *)
Definition in_scope (userId : string) (date : option Z) (r : Entry.t) : Prop :=
Entry.user_id r = userId /\ Entry.status r = valid
/\ match date with Some d => Entry.scan_date r = d | None => True end.

(** the instants of an action of a user on a day *)
Definition day_times (a : action) (userId : string) (day : Z) (tbl : list Entry.t)
  : list Z :=
Entry.scan_time <$> filter (fun r => Entry.action_type r = a) (day_rows userId day tbl).


(** the rows of a user on a day are stored at increasing instants before
    [now] and alternate from the entry *)
Definition day_in_order (userId : string) (day now : Z) (tbl : list Entry.t) : Prop :=
StronglySorted earlier (day_rows userId day tbl)
/\ Forall (fun r => Entry.scan_time r < now) (day_rows userId day tbl)
/\ alternates check_in (Entry.action_type <$> day_rows userId day tbl) = true.

(** the pages [first], [first + 1], ... of a history, [count] of them *)
Fixpoint pages_from {A} (first : Z) (count : nat) (limit : Z) (all : list A)
  : list (list A) :=
match count with
| O => []
| S n => (Api.paginate (Some first) (Some limit) all).1
         :: pages_from (first + 1) n limit all
end.

(** the order of the listing, on its columns *)
Definition column_le (a b : EventManager.column) : Prop :=
EventManager.col_order a < EventManager.col_order b
\/ (EventManager.col_order a = EventManager.col_order b
    /\ String.leb (EventManager.col_name a) (EventManager.col_name b) = true).

(** rows that differ by their display order only *)
Definition same_but_order (c' c : Checkpoint.t) : Prop :=
Checkpoint.event_name c' = Checkpoint.event_name c
/\ Checkpoint.checkpoint_name c' = Checkpoint.checkpoint_name c
/\ Checkpoint.checkpoint_type c' = Checkpoint.checkpoint_type c
/\ Checkpoint.is_active c' = Checkpoint.is_active c.

(** the pair that is unique in [event_participants] *)
Definition enrolment_key (p : Participant.t) : Z * string :=
(Participant.event_id p, Participant.user_id p).

(** what every reachable registry satisfies *)
Definition registry_ok (s : SocketIOHandlers.clients) : Prop :=
(forall id, id ∈ SocketIOHandlers.adminClients s ->
            is_Some (SocketIOHandlers.connectedClients s !! id))
/\ (forall id, id ∈ SocketIOHandlers.staffClients s ->
               is_Some (SocketIOHandlers.connectedClients s !! id))
/\ (forall id user,
      SocketIOHandlers.connectedClients s !! id = Some (Some user) ->
      String.eqb (Auth.account_role user) "admin" = true ->
      id ∈ SocketIOHandlers.adminClients s)
/\ (forall id user,
      SocketIOHandlers.connectedClients s !! id = Some (Some user) ->
      SocketIOHandlers.is_staff_role (Auth.account_role user) = true ->
      id ∈ SocketIOHandlers.staffClients s)
/\ SocketIOHandlers.admin_room s ⊆ SocketIOHandlers.adminClients s
/\ SocketIOHandlers.staff_room s ⊆ SocketIOHandlers.staffClients s.

(** the events of a list handled one after the other *)
Definition handle_all (events : list SocketIOHandlers.socket_event)
           (s : SocketIOHandlers.clients) : SocketIOHandlers.clients :=
foldl (fun s e => SocketIOHandlers.handle e s) s events.

(** the counters of a report add up to [n] items, [k] of them inserted *)
Definition report_counts (r : EventManager.import_report) (n k : nat) : Prop :=
(EventManager.inserted r + EventManager.updated r + EventManager.skipped r)%nat = n
/\ EventManager.skipped r
   = (EventManager.missingFields r + EventManager.idTooLong r
      + EventManager.idInvalid r)%nat
/\ EventManager.inserted r = k.

(** what an import leaves as it is *)
Definition same_but_participants (db' db : EventManager.database) : Prop :=
EventManager.events db' = EventManager.events db
/\ EventManager.event_checkpoints db' = EventManager.event_checkpoints db
/\ EventManager.event_checkpoint_logs db' = EventManager.event_checkpoint_logs db.

(** the event of an import: the given id, else the id of the given name *)
Definition import_event (event_name : option string) (event_id : option Z)
           (db : EventManager.database) : option Z :=
let given := if JS.truthy_onum event_id then event_id else None in
if negb (JS.truthy_onum given) && JS.truthy_ostr event_name
then match EventManager.event_id_of (default "" event_name) db with
     | Some i => Some i
     | None => given
     end
else given.

(** the number of items of a list that the import skips *)
Definition skipped_items (sch : EventManager.schema) (stored_number : string -> string)
           (items : list EventManager.import_item) : nat :=
length (List.filter
          (fun p => match EventManager.import_uid sch stored_number p with
                    | inr _ => true
                    | inl _ => false
                    end) items).

(** the names of the registry and of the logs carry no [:] *)
Definition names_colon_free (db : EventManager.database) : Prop :=
Forall (fun c => colon_free (Checkpoint.checkpoint_name c) = true)
       (EventManager.event_checkpoints db)
/\ Forall (fun l => colon_free (Log.checkpoint_name l) = true)
          (EventManager.event_checkpoint_logs db).

(** the key of a checkpoint row *)
Definition checkpoint_key (c : Checkpoint.t) : string * string :=
(Checkpoint.event_name c, Checkpoint.checkpoint_name c).

(** ** Strings *)

Lemma length_append (a b : string) :
  String.length (a +:+ b) = (String.length a + String.length b)%nat.
Proof. induction a as [|c a IH]; simpl; [reflexivity | now rewrite IH]. Qed.

Lemma length_repeat_char (c : ascii) (n : nat) :
  String.length (JS.repeat_char c n) = n.
Proof. induction n as [|n IH]; simpl; [reflexivity | now rewrite IH]. Qed.

Lemma all_chars_append (p : ascii -> bool) (a b : string) :
  JS.all_chars p (a +:+ b) = JS.all_chars p a && JS.all_chars p b.
Proof.
  induction a as [|c a IH]; simpl; [reflexivity |].
  rewrite IH. now rewrite andb_assoc.
Qed.

Lemma all_chars_repeat (p : ascii -> bool) (c : ascii) (n : nat) :
  p c = true -> JS.all_chars p (JS.repeat_char c n) = true.
Proof. intros Hc. induction n as [|n IH]; simpl; [reflexivity | now rewrite Hc]. Qed.

Lemma all_chars_filter (p : ascii -> bool) (s : string) :
  JS.all_chars p (JS.filter_chars p s) = true.
Proof.
  induction s as [|c s IH]; simpl; [reflexivity |].
  destruct (p c) eqn:Hc; simpl; [now rewrite Hc | exact IH].
Qed.

Lemma all_chars_impl (p q : ascii -> bool) (s : string) :
  (forall c, p c = true -> q c = true) ->
  JS.all_chars p s = true -> JS.all_chars q s = true.
Proof.
  intros Hpq. induction s as [|c s IH]; simpl; [reflexivity |].
  intros [Hc Hs]%andb_true_iff. rewrite (Hpq _ Hc). now apply IH.
Qed.

Lemma length_padStart (n : nat) (c : ascii) (s : string) :
  String.length (JS.padStart n c s) = Nat.max n (String.length s).
Proof. unfold JS.padStart. rewrite length_append, length_repeat_char. lia. Qed.

Lemma truthy_str_false (s : string) : JS.truthy_str s = false <-> s = "".
Proof. destruct s; simpl; split; congruence. Qed.

Lemma truthy_str_length (s : string) :
  JS.truthy_str s = negb (String.length s =? 0)%nat.
Proof. destruct s; reflexivity. Qed.

(** ** The identifier normalizer *)

Lemma normalized_all_digits (raw : string) :
  JS.all_chars JS.is_digit (JS.padStart 10 "0" (JS.filter_chars JS.is_digit raw)) = true.
Proof.
  unfold JS.padStart. rewrite all_chars_append, all_chars_filter.
  now rewrite all_chars_repeat.
Qed.

(** C6, as amended: the normalizer keeps the digits of the input and pads
    them on the left with zeros to ten characters; it rejects the empty input
    and every input with more than twelve digits, and nothing else: whatever it
    accepts is the padded digit string, of ten to twelve digits. *)
Theorem normalizer_accepts_padded_digits (raw : string) :
  let digits := JS.filter_chars JS.is_digit raw in
  match RFIDService.acceptedCardId raw with
  | Some cardId =>
      raw <> ""
      /\ (String.length digits <= 12)%nat
      /\ cardId = JS.padStart 10 "0" digits
      /\ JS.all_chars JS.is_digit cardId = true
      /\ (10 <= String.length cardId <= 12)%nat
  | None => raw = "" \/ (12 < String.length digits)%nat
  end.
Proof.
  cbv zeta. unfold RFIDService.acceptedCardId, RFIDService.normalizeCardId.
  destruct (JS.truthy_str raw) eqn:Hraw; simpl.
  2:{ left. now apply truthy_str_false. }
  set (digits := JS.filter_chars JS.is_digit raw).
  set (padded := JS.padStart 10 "0" digits).
  assert (Hlen : String.length padded = Nat.max 10 (String.length digits))
    by apply length_padStart.
  assert (Hdig : JS.all_chars JS.is_digit padded = true)
    by apply normalized_all_digits.
  assert (Htr : JS.truthy_str padded = true).
  { rewrite truthy_str_length. apply negb_true_iff, Nat.eqb_neq. lia. }
  unfold RFIDService.isValidCardId. rewrite Htr, Hdig. simpl.
  destruct (String.length padded <? 8)%nat eqn:H8.
  { apply Nat.ltb_lt in H8. lia. }
  destruct (12 <? String.length padded)%nat eqn:H12; simpl.
  - apply Nat.ltb_lt in H12. right. lia.
  - apply Nat.ltb_ge in H12. repeat split; try lia; try assumption.
    intros ->. discriminate.
Qed.

(** C6, as stated, fails: an input without any digit is not rejected; its
    empty residue is padded to ten zeros, which the validity test accepts, both
    in the reader service and in the manual-entry route. *)
Lemma normalizer_accepts_digitless_input :
  ~ (forall raw : string,
       JS.filter_chars JS.is_digit raw = "" ->
       RFIDService.acceptedCardId raw = None)
  /\ RFIDService.acceptedCardId "abc" = Some "0000000000"
  /\ (RFIDService.processManualScan 1000 "abc" RFIDService.constructor).1.1 = true
  /\ Api.rfid_manual (Some "abc") = inr "0000000000".
Proof.
  split; [| repeat split; reflexivity].
  intros H. specialize (H "abc" eq_refl). discriminate H.
Qed.

(** ** The duplicate suppressor of the reader service *)

Lemma processRFIDScan_accept (now : Z) (cardId : string) (s : RFIDService.t) :
  (forall last, RFIDService.lastScans s !! cardId = Some last ->
                last = 0 \/ RFIDService.minScanInterval s <= now - last) ->
  RFIDService.processRFIDScan now cardId s =
  (RFIDService.set_lastScans (<[cardId := now]> (RFIDService.lastScans s)) s,
   [RFIDService.Scan cardId now (RFIDService.deviceInfo s)]).
Proof.
  intros H. unfold RFIDService.processRFIDScan.
  destruct (RFIDService.lastScans s !! cardId) as [last|] eqn:Hl; [| reflexivity].
  destruct (H last eq_refl) as [-> | Hge]; [reflexivity |].
  replace (now - last <? RFIDService.minScanInterval s) with false
    by (symmetry; apply Z.ltb_ge; lia).
  now rewrite andb_false_r.
Qed.

Lemma processRFIDScan_reject (now last : Z) (cardId : string) (s : RFIDService.t) :
  RFIDService.lastScans s !! cardId = Some last ->
  last <> 0 ->
  now - last < RFIDService.minScanInterval s ->
  RFIDService.processRFIDScan now cardId s =
  (s, [RFIDService.Spam cardId (now - last)]).
Proof.
  intros Hl Hnz Hlt. unfold RFIDService.processRFIDScan. rewrite Hl.
  unfold JS.truthy_num.
  replace (last =? 0) with false by (symmetry; apply Z.eqb_neq; lia).
  replace (now - last <? RFIDService.minScanInterval s) with true
    by (symmetry; apply Z.ltb_lt; lia).
  reflexivity.
Qed.

(** C3: with the window of 5 seconds (5000 ms) and a card whose last accepted
    scan was at [last], a scan at [now] with [now - last < 5000] is rejected as
    a duplicate: the service is left as it was, the stored instant included,
    and the only thing emitted is the duplicate notice, so the pair of scans
    has produced one scan event; a scan with [now - last >= 5000] is accepted:
    exactly one scan event is emitted, the stored instant of the card becomes
    [now], and the instants of the other cards and the window are kept. *)
Theorem duplicate_window (s : RFIDService.t) (cardId : string) (last now : Z) :
  RFIDService.minScanInterval s = 5000 ->
  RFIDService.lastScans s !! cardId = Some last ->
  last <> 0 ->
  let result := RFIDService.processRFIDScan now cardId s in
  if now - last <? 5000
  then result = (s, [RFIDService.Spam cardId (now - last)])
  else result.2 = [RFIDService.Scan cardId now (RFIDService.deviceInfo s)]
       /\ RFIDService.lastScans result.1 !! cardId = Some now
       /\ (forall other, other <> cardId ->
             RFIDService.lastScans result.1 !! other = RFIDService.lastScans s !! other)
       /\ RFIDService.minScanInterval result.1 = 5000.
Proof.
  intros Hwin Hl Hnz. cbv zeta.
  destruct (now - last <? 5000) eqn:Hcmp.
  - apply Z.ltb_lt in Hcmp. apply processRFIDScan_reject; [assumption .. | lia].
  - apply Z.ltb_ge in Hcmp. rewrite processRFIDScan_accept.
    + simpl. repeat split.
      * apply lookup_insert_eq.
      * intros other Hne. now apply lookup_insert_ne.
      * assumption.
    + intros last' Hl'. rewrite Hl in Hl'. injection Hl' as <-. right. lia.
Qed.

Lemma duplicate_window_witness :
  let s := (RFIDService.processRFIDScan 1000 "0000000001" RFIDService.constructor).1 in
  RFIDService.lastScans s !! "0000000001" = Some 1000
  /\ RFIDService.processRFIDScan 3000 "0000000001" s
     = (s, [RFIDService.Spam "0000000001" 2000]).
Proof.
  cbv zeta. split; [reflexivity |].
  apply (duplicate_window
           (RFIDService.processRFIDScan 1000 "0000000001" RFIDService.constructor).1
           "0000000001" 1000 3000); [reflexivity | reflexivity | discriminate].
Defined.

(** the first scan of a card is accepted, and so is every scan of a service
    that has just been built *)
Lemma first_scan_accepted (now : Z) (cardId : string) (s : RFIDService.t) :
  RFIDService.lastScans s !! cardId = None ->
  RFIDService.processRFIDScan now cardId s =
  (RFIDService.set_lastScans (<[cardId := now]> (RFIDService.lastScans s)) s,
   [RFIDService.Scan cardId now (RFIDService.deviceInfo s)]).
Proof. intros H. apply processRFIDScan_accept. intros last Hl. congruence. Qed.

(** ** The authorization gate *)

(** C7: the gate combines its three signals with an inclusive or.  Over any
    pair of allow-list checks, the request goes on exactly when the declared
    gateway is present and allowed, or the observed client address is allowed,
    or the declared network name is present and allowed, and the method that
    let it in is recorded; when no signal matches the answer is 403
    NETWORK_ACCESS_DENIED and carries the three signals with the three
    verdicts.  With the checks of the source, which allow everything, every
    request goes on. *)
Theorem gate_is_inclusive_or (checkNetwork : option string -> bool)
        (checkWifi : string -> bool) (req : NetworkSecurity.request) :
  let gatewayIp := NetworkSecurity.getGatewayIp req in
  let clientIp := NetworkSecurity.getClientIp req in
  let wifiName := NetworkSecurity.getWifiName req in
  let g := JS.truthy_ostr gatewayIp && checkNetwork gatewayIp in
  let c := checkNetwork clientIp in
  let w := JS.truthy_ostr wifiName && checkWifi (default "" wifiName) in
  match NetworkSecurity.requireCompanyNetworkWith checkNetwork checkWifi req with
  | NetworkSecurity.Next info =>
      g || c || w = true
      /\ NetworkSecurity.clientIp info = clientIp
      /\ NetworkSecurity.gatewayIp info = gatewayIp
      /\ NetworkSecurity.wifiName info = wifiName
      /\ NetworkSecurity.accessMethod info
         = (if g then NetworkSecurity.gateway
            else if c then NetworkSecurity.client_ip else NetworkSecurity.wifi)
  | NetworkSecurity.Denied http error _ d =>
      g = false /\ c = false /\ w = false
      /\ http = 403%nat /\ error = "NETWORK_ACCESS_DENIED"
      /\ d = {| NetworkSecurity.debug_clientIp := clientIp;
                NetworkSecurity.debug_gatewayIp := gatewayIp;
                NetworkSecurity.debug_wifiName := wifiName;
                NetworkSecurity.gatewayAllowed := false;
                NetworkSecurity.clientIpAllowed := false;
                NetworkSecurity.wifiAllowed := false |}
  end
  /\ exists info, NetworkSecurity.requireCompanyNetwork req = NetworkSecurity.Next info.
Proof.
  cbv zeta. split.
  - unfold NetworkSecurity.requireCompanyNetworkWith.
    set (gatewayIp := NetworkSecurity.getGatewayIp req).
    set (clientIp := NetworkSecurity.getClientIp req).
    set (wifiName := NetworkSecurity.getWifiName req).
    assert (Hg : (if JS.truthy_ostr gatewayIp then checkNetwork gatewayIp else false)
                 = JS.truthy_ostr gatewayIp && checkNetwork gatewayIp)
      by (destruct (JS.truthy_ostr gatewayIp); reflexivity).
    assert (Hw : match wifiName with
                 | Some w => if JS.truthy_str w then checkWifi w else false
                 | None => false
                 end = JS.truthy_ostr wifiName && checkWifi (default "" wifiName))
      by (destruct wifiName as [w|]; simpl; [destruct (JS.truthy_str w) |]; reflexivity).
    rewrite Hg, Hw.
    destruct (JS.truthy_ostr gatewayIp && checkNetwork gatewayIp) eqn:Eg;
      destruct (checkNetwork clientIp) eqn:Ec;
      destruct (JS.truthy_ostr wifiName && checkWifi (default "" wifiName)) eqn:Ew;
      simpl; repeat split; reflexivity.
  - unfold NetworkSecurity.requireCompanyNetwork,
      NetworkSecurity.requireCompanyNetworkWith, NetworkSecurity.isCompanyNetwork.
    rewrite orb_true_r. simpl. eexists. reflexivity.
Qed.

(** ** The scan route and the owner of the card *)

Lemma sanitize_nonempty (s : string) :
  s <> "" -> Attendance.sanitize (Some s) = Some s.
Proof. destruct s; [congruence | reflexivity]. Qed.

Lemma targetUser_fallback (findByRfidCard : string -> card_lookup)
      (req : scan_request) (card : string) :
  findByRfidCard card = NoOwner \/ findByRfidCard card = LookupError ->
  Api.targetUser findByRfidCard req card = user_id (req_user req).
Proof. unfold Api.targetUser. intros [-> | ->]; reflexivity. Qed.

Lemma targetUser_nonempty (findByRfidCard : string -> card_lookup)
      (req : scan_request) (card : string) :
  user_id (req_user req) <> "" ->
  Api.targetUser findByRfidCard req card <> "".
Proof.
  intros Hu. unfold Api.targetUser.
  destruct (findByRfidCard card) as [i| |]; try assumption.
  destruct i; simpl; [assumption | discriminate].
Qed.

(** C10: on the scan route a card that belongs to no registered user is not
    a ground for rejection.  When the owner lookup finds nobody, or fails, the
    target is the submitting user; the only refusal of a well-formed scan is
    the duplicate one, and otherwise one valid record is appended for the
    target, with the note [scanned_by:<submitter>] exactly when the target is
    not the submitter. *)
Theorem unknown_card_recorded_for_submitter
        (findByRfidCard : string -> card_lookup) (now : Z)
        (req : scan_request) (tbl : list Entry.t) (card : string) :
  rfid_card req = Some card ->
  card <> "" ->
  user_id (req_user req) <> "" ->
  let submitter := user_id (req_user req) in
  let target := Api.targetUser findByRfidCard req card in
  (findByRfidCard card = NoOwner \/ findByRfidCard card = LookupError ->
   target = submitter)
  /\ match Api.rfid_scan findByRfidCard now req tbl with
     | (Success act time attendance _, tbl') =>
         exists row,
           tbl' = tbl ++ [row]
           /\ attendance = Attendance.constructor row
           /\ Entry.user_id row = target
           /\ Entry.rfid_card row = card
           /\ Entry.notes row
              = (if String.eqb submitter target then None
                 else Some ("scanned_by:" +:+ submitter))
           /\ Entry.status row = valid
           /\ Entry.action_type row = act
           /\ Entry.scan_time row = now /\ time = now
     | (Failure http error, tbl') =>
         tbl' = tbl /\ http = 429%nat /\ error = "DUPLICATE_SCAN"
         /\ Attendance.checkDuplicateScan now target card 5 tbl = true
     end.
Proof.
  intros Hcard Hne Hu. cbv zeta. split; [apply targetUser_fallback |].
  unfold Api.rfid_scan. rewrite Hcard.
  destruct card as [|c0 card']; [congruence |].
  set (card := String c0 card') in *.
  set (target := Api.targetUser findByRfidCard req card).
  destruct (Attendance.checkDuplicateScan now target card 5 tbl) eqn:Hdup.
  { repeat split; reflexivity. }
  unfold Attendance.recordAttendance. cbn [AttendanceData.userId AttendanceData.rfidCard].
  rewrite (sanitize_nonempty target) by (apply targetUser_nonempty; assumption).
  rewrite (sanitize_nonempty card) by assumption.
  eexists. split; [reflexivity |]. cbn.
  repeat split.
  unfold Api.scanned_by.
  destruct (user_id (req_user req)) as [|u0 u'] eqn:Euser; [congruence |].
  cbn [JS.truthy_str andb].
  destruct (String.eqb (String u0 u') target); reflexivity.
Qed.

Lemma unknown_card_recorded_for_submitter_witness :
  Api.targetUser (fun _ => NoOwner) (plain_scan "U1" "0000000009" None) "0000000009"
  = "U1"
  /\ (Api.rfid_scan (fun _ => NoOwner) 1000 (plain_scan "U1" "0000000009" None) []).2
     <> [].
Proof.
  pose proof (unknown_card_recorded_for_submitter
                (fun _ => NoOwner) 1000 (plain_scan "U1" "0000000009" None) []
                "0000000009" eq_refl ltac:(discriminate) ltac:(discriminate))
    as [Htarget Hscan].
  split; [apply Htarget; left; reflexivity |].
  cbv in Hscan. destruct Hscan as (row & Htbl & _).
  cbv. rewrite Htbl. discriminate.
Defined.

(** ** Voided records in the queries of the model class *)

Lemma filter_valid_twice (P : Entry.t -> Prop) `{!forall r, Decision (P r)}
      (tbl : list Entry.t) :
  filter (fun r => P r ∧ Entry.status r = valid) (valid_rows tbl)
  = filter (fun r => P r ∧ Entry.status r = valid) tbl.
Proof.
  unfold valid_rows. induction tbl as [|r tbl IH]; [reflexivity |].
  rewrite (filter_cons (fun r => Entry.status r = valid)).
  destruct (decide (Entry.status r = valid)) as [Hv | Hv].
  - rewrite !filter_cons, IH. reflexivity.
  - rewrite IH, filter_cons.
    destruct (decide (P r ∧ Entry.status r = valid)) as [[_ Hv'] | _];
      [contradiction | reflexivity].
Qed.

Lemma getLastScanForUser_valid_rows (userId : string) (date : option Z)
      (tbl : list Entry.t) :
  Attendance.getLastScanForUser userId date (valid_rows tbl)
  = Attendance.getLastScanForUser userId date tbl.
Proof.
  unfold Attendance.getLastScanForUser.
  now rewrite (filter_valid_twice (fun r => Entry.user_id r = userId)).
Qed.

Lemma valid_in_range_valid_rows (startDate endDate : Z) (tbl : list Entry.t) :
  Attendance.valid_in_range startDate endDate (valid_rows tbl)
  = Attendance.valid_in_range startDate endDate tbl.
Proof.
  unfold Attendance.valid_in_range.
  apply (filter_valid_twice
           (fun r => Attendance.between startDate endDate (Entry.scan_date r) = true)).
Qed.

Lemma latest_In (rows : list Entry.t) (r : Entry.t) :
  Attendance.latest rows = Some r -> In r rows.
Proof.
  revert r. induction rows as [|x rows IH]; simpl; [discriminate |].
  intros r. destruct (Attendance.latest rows) as [r'|].
  - destruct (Entry.scan_time x <? Entry.scan_time r'); intros [= <-]; auto.
  - intros [= <-]. auto.
Qed.

Lemma getLastScanForUser_is_valid (userId : string) (date : option Z)
      (tbl : list Entry.t) (a : Attendance.t) :
  Attendance.getLastScanForUser userId date tbl = Some a ->
  Attendance.status a = valid /\ Attendance.userId a = userId.
Proof.
  unfold Attendance.getLastScanForUser.
  set (rows := filter (fun r => Entry.user_id r = userId ∧ Entry.status r = valid) tbl).
  assert (Hrows : forall r, In r rows -> Entry.user_id r = userId /\ Entry.status r = valid).
  { intros r Hr. apply list_elem_of_In, list_elem_of_filter in Hr. tauto. }
  destruct (Attendance.latest
              match date with
              | Some d => filter (fun r => Entry.scan_date r = d) rows
              | None => rows
              end) as [r|] eqn:Hl; simpl; [| discriminate].
  intros [= <-]. apply latest_In in Hl.
  assert (Hin : In r rows).
  { destruct date; [| assumption].
    apply list_elem_of_In, list_elem_of_filter in Hl as [_ Hl].
    now apply list_elem_of_In. }
  destruct (Hrows r Hin). simpl. tauto.
Qed.

(** C5, as amended: voided records never reach the last-event lookup nor the
    aggregate reports.  The lookup, the statistics and the per-user daily
    report give the same answer on a table and on its valid rows alone, and a
    record returned by the lookup is valid; the duplicate check, for its part,
    looks at every row of the (user, card) pair without reading the validity
    flag. *)
Theorem voided_rows_excluded_from_lookup_and_reports
        (userId rfidCard : string) (date : option Z) (startDate endDate now : Z)
        (tbl : list Entry.t) :
  Attendance.getLastScanForUser userId date tbl
  = Attendance.getLastScanForUser userId date (valid_rows tbl)
  /\ match Attendance.getLastScanForUser userId date tbl with
     | Some a => Attendance.status a = valid
     | None => True
     end
  /\ Attendance.getAttendanceStats startDate endDate tbl
     = Attendance.getAttendanceStats startDate endDate (valid_rows tbl)
  /\ Attendance.getUserAttendanceReport userId startDate endDate tbl
     = Attendance.getUserAttendanceReport userId startDate endDate (valid_rows tbl)
  /\ Attendance.checkDuplicateScan now userId rfidCard 5 tbl
     = existsb (fun r => String.eqb (Entry.user_id r) userId
                         && String.eqb (Entry.rfid_card r) rfidCard
                         && (now - 5 <? Entry.scan_time r)) tbl.
Proof.
  split; [symmetry; apply getLastScanForUser_valid_rows |].
  split.
  { destruct (Attendance.getLastScanForUser userId date tbl) as [a|] eqn:Ha; [| exact I].
    now apply getLastScanForUser_is_valid in Ha. }
  split.
  { unfold Attendance.getAttendanceStats. now rewrite valid_in_range_valid_rows. }
  split.
  { unfold Attendance.getUserAttendanceReport. now rewrite valid_in_range_valid_rows. }
  unfold Attendance.checkDuplicateScan.
  induction tbl as [|r tbl IH]; [reflexivity |].
  rewrite filter_cons. simpl existsb. rewrite <- IH. clear IH.
  destruct (decide (Entry.user_id r = userId ∧ Entry.rfid_card r = rfidCard
                    ∧ now - 5 < Entry.scan_time r)) as [(Hu & Hc & Ht) | Hn].
  - rewrite (proj2 (String.eqb_eq _ _) Hu), (proj2 (String.eqb_eq _ _) Hc).
    rewrite (proj2 (Z.ltb_lt _ _) Ht). reflexivity.
  - destruct (String.eqb (Entry.user_id r) userId) eqn:Eu; [| reflexivity].
    destruct (String.eqb (Entry.rfid_card r) rfidCard) eqn:Ec; [| reflexivity].
    destruct (now - 5 <? Entry.scan_time r) eqn:Et; [| reflexivity].
    exfalso. apply Hn. apply String.eqb_eq in Eu, Ec. apply Z.ltb_lt in Et. tauto.
Qed.

(** C5, as stated, fails: a voided record is returned by the date-range scan,
    with and without the user filter, and makes the duplicate check answer
    yes, although the same queries over the valid rows find nothing. *)
Lemma voided_rows_reach_range_scan_and_duplicate_check :
  let r := {| Entry.id := 1; Entry.user_id := "U1"; Entry.rfid_card := "0000000001";
              Entry.scan_time := 100; Entry.scan_date := 0;
              Entry.action_type := check_in; Entry.event_id := None;
              Entry.client_ip := None; Entry.gateway_ip := None;
              Entry.wifi_name := None; Entry.location := None; Entry.notes := None;
              Entry.status := voided |} in
  valid_rows [r] = []
  /\ Attendance.findByDateRange 0 0 None [r] = [Attendance.constructor r]
  /\ Attendance.findByDateRange 0 0 (Some "U1") [r] = [Attendance.constructor r]
  /\ Attendance.checkDuplicateScan 102 "U1" "0000000001" 5 [r] = true
  /\ Attendance.checkDuplicateScan 102 "U1" "0000000001" 5 (valid_rows [r]) = false.
Proof. cbv zeta. repeat split; vm_compute; reflexivity. Qed.

(** ** The action resolver *)

(** on the scan route an event scan toggles the latest valid record of the
    target, whatever the event or the day of that record *)
Lemma rfid_scan_event_action (findByRfidCard : string -> card_lookup) (now : Z)
      (req : scan_request) (tbl : list Entry.t) (card : string) (act : action) :
  rfid_card req = Some card ->
  JS.truthy_onum (event_id req) = true ->
  action_of (Api.rfid_scan findByRfidCard now req tbl).1 = Some act ->
  act = match Attendance.getLastScanForUser
                (Api.targetUser findByRfidCard req card) None tbl with
        | Some lastScan => toggle (Attendance.actionType lastScan)
        | None => check_in
        end.
Proof.
  intros Hcard Hev. unfold Api.rfid_scan. rewrite Hcard, Hev.
  destruct card as [|c0 card']; [discriminate |].
  destruct (Attendance.checkDuplicateScan _ _ _ _ _); [discriminate |].
  destruct (Attendance.recordAttendance _ _) as [[att tbl']|]; [| discriminate].
  simpl. intros [= <-].
  destruct (Attendance.getLastScanForUser _ _ _); reflexivity.
Qed.

(** the event route never answers with an exit *)
Lemma attendance_event_always_check_in (now : Z) (req : scan_request)
      (tbl : list Entry.t) (act : action) :
  action_of (Api.attendance_event now req tbl).1 = Some act -> act = check_in.
Proof.
  unfold Api.attendance_event.
  destruct (JS.truthy_onum (event_id req)) eqn:Hev; [| discriminate].
  destruct (JS.truthy_ostr (rfid_card req)); [| discriminate]. simpl.
  destruct (Attendance.checkDuplicateScan _ _ _ _ _); [discriminate |].
  destruct (Attendance.recordAttendance _ _) as [[att tbl']|]; [| discriminate].
  simpl. intros [= <-].
  destruct (event_id req) as [e|]; [| discriminate Hev].
  destruct (Attendance.getLastScanForUser _ _ _); reflexivity.
Qed.

(** C1, the code at two inputs.  On the scan route the first scan of event 7
    by a user whose latest record is a workday entry is resolved to an exit,
    although the event has no record of the user.  On the event route a second
    scan of event 7, ten seconds after the entry recorded for that event, is
    resolved to an entry again. *)
Theorem event_scan_lookup_is_not_event_scoped :
  let work := stored 1 "U1" "0000000001" 100 check_in None valid in
  let entry7 := stored 1 "U1" "0000000001" 100 check_in (Some 7) valid in
  let scan7 := plain_scan "U1" "0000000001" (Some 7) in
  event_actions "U1" 7 [work] = []
  /\ action_of (Api.rfid_scan no_owner 110 scan7 [work]).1 = Some check_out
  /\ event_actions "U1" 7 [entry7] = [check_in]
  /\ action_of (Api.attendance_event 110 scan7 [entry7]).1 = Some check_in.
Proof. cbv zeta. repeat split; vm_compute; reflexivity. Qed.

(** the check-out route records an exit or fails for a reason that does not
    depend on the history of the user *)
Lemma attendance_checkout_unguarded (findByRfidCard : string -> card_lookup)
      (resolveLocation : string -> option (option string)) (now : Z)
      (req : scan_request) (tbl : list Entry.t) :
  match (Api.attendance_checkout findByRfidCard resolveLocation now req tbl).1 with
  | Success act _ _ _ => act = check_out
  | Failure _ error =>
      error = "MISSING_RFID" \/ error = "MISSING_LOCATION"
      \/ error = "DUPLICATE_SCAN" \/ error = "CHECKOUT_ERROR"
  end.
Proof.
  unfold Api.attendance_checkout.
  destruct (rfid_card req) as [[|c0 card]|]; simpl; auto.
  destruct (location req) as [[|l0 loc]|]; simpl; auto.
  destruct (Attendance.checkDuplicateScan _ _ _ _ _); simpl; auto.
  destruct (resolveLocation _) as [locationName|]; simpl; auto.
  destruct (Attendance.recordAttendance _ _) as [[att tbl']|]; simpl; auto.
Qed.

(** the staff route refuses a forced exit when the status of the day, as
    answered by [getTodayStatus], has no entry or has an exit already *)
Lemma checkoutwork_guarded (findByRfidCard : string -> card_lookup)
      (getTodayStatus : string -> Z -> list Entry.t -> option Staff.today_status)
      (now : Z) (req : scan_request) (tbl : list Entry.t) (att : Attendance.t)
      (tbl' : list Entry.t) :
  Staff.checkoutwork findByRfidCard getTodayStatus now req tbl
  = (Success check_out now att None, tbl') ->
  exists t_in,
    getTodayStatus (user_id (req_user req)) (date_of now) tbl
    = Some {| Staff.check_in_time := Some t_in; Staff.check_out_time := None |}.
Proof.
  unfold Staff.checkoutwork.
  destruct (rfid_card req) as [[|c0 card]|]; try discriminate.
  destruct (Attendance.checkDuplicateScan _ _ _ _ _); try discriminate.
  assert (Hrest :
    match getTodayStatus (user_id (req_user req)) (date_of now) tbl with
    | Some todayAttendance =>
        if negb (JS.present (Staff.check_in_time todayAttendance))
        then (Failure 400 "NOT_CHECKED_IN", tbl)
        else if JS.present (Staff.check_out_time todayAttendance)
        then (Failure 400 "ALREADY_CHECKED_OUT", tbl)
        else
          match Attendance.recordAttendance
                  (Staff.office_record now req (String c0 card) check_out) tbl with
          | Some (attendance, tbl0) => (Success check_out now attendance None, tbl0)
          | None => (Failure 500 "CHECKOUT_ERROR", tbl)
          end
    | None => (Failure 400 "NOT_CHECKED_IN", tbl)
    end = (Success check_out now att None, tbl') ->
    exists t_in,
      getTodayStatus (user_id (req_user req)) (date_of now) tbl
      = Some {| Staff.check_in_time := Some t_in; Staff.check_out_time := None |}).
  { destruct (getTodayStatus _ _ _) as [[[t_in|] [t_out|]]|]; simpl; try discriminate.
    intros _. now exists t_in. }
  destruct (negb (bool_decide (method req = Some "manual"))); [| exact Hrest].
  destruct (findByRfidCard _) as [i| |]; try discriminate.
  destruct (String.eqb i _); [exact Hrest | discriminate].
Qed.

(** C2, the code at three inputs.  The check-out route records an exit for a
    user without any record of the day; it records a second exit after a
    completed entry and exit; and the check-in route records an exit when the
    forced action is the exit, again without any entry. *)
Theorem forced_exit_is_not_guarded :
  let out := located_scan "U1" "0000000001" "1" None in
  let forced := located_scan "U1" "0000000001" "1" (Some "check_out") in
  let pair := [stored 1 "U1" "0000000001" 100 check_in None valid;
               stored 2 "U1" "0000000001" 200 check_out None valid] in
  action_of (Api.attendance_checkout no_owner main_gate 100 out []).1 = Some check_out
  /\ day_actions "U1" 0 (Api.attendance_checkout no_owner main_gate 100 out []).2
     = [check_out]
  /\ day_actions "U1" 0 (Api.attendance_checkout no_owner main_gate 300 out pair).2
     = [check_in; check_out; check_out]
  /\ day_actions "U1" 0 (Api.attendance_checkin no_owner main_gate 100 forced []).2
     = [check_out].
Proof. cbv zeta. repeat split; vm_compute; reflexivity. Qed.

(** C4, the code at three replays.  Two scans of event 7 through the event
    route, ten seconds apart, leave two entries in a row; a workday scan
    followed by the first scan of event 7 through the scan route leaves an exit
    as the first action of the event; and so does the same pair of scans
    through the socket handler, which resolves every scan against the day. *)
Theorem event_replay_does_not_alternate :
  let scan7 := plain_scan "U1" "0000000001" (Some 7) in
  let day := plain_scan "U1" "0000000001" None in
  let by_event_route := replay Api.attendance_event [(100, scan7); (110, scan7)] [] in
  let by_scan_route := replay (Api.rfid_scan no_owner) [(100, day); (110, scan7)] [] in
  let by_socket :=
    (SocketIOHandlers.processRFIDScan card_holder 110 "0000000001" (Some 7)
       (SocketIOHandlers.processRFIDScan card_holder 100 "0000000001" None []).2).2 in
  event_actions "U1" 7 by_event_route = [check_in; check_in]
  /\ alternates check_in (event_actions "U1" 7 by_event_route) = false
  /\ event_actions "U1" 7 by_scan_route = [check_out]
  /\ alternates check_in (event_actions "U1" 7 by_scan_route) = false
  /\ event_actions "0000000001" 7 by_socket = [check_out]
  /\ alternates check_in (event_actions "0000000001" 7 by_socket) = false.
Proof. cbv zeta. repeat split; vm_compute; reflexivity. Qed.

(** ** The checkpoint registry *)

Lemma same_key_iff (event_name name : string) (c : Checkpoint.t) :
  EventManager.same_key event_name name c = true
  <-> checkpoint_key c = (event_name, name).
Proof.
  unfold EventManager.same_key, checkpoint_key.
  rewrite andb_true_iff, !String.eqb_eq. split.
  - intros [-> ->]. reflexivity.
  - intros [= -> ->]. split; reflexivity.
Qed.


Lemma existsb_same_key (event_name name : string) (cps : list Checkpoint.t) :
  existsb (EventManager.same_key event_name name) cps = true
  <-> (event_name, name) ∈ checkpoint_key <$> cps.
Proof.
  induction cps as [|c cps IH]; simpl.
  - split; [discriminate | intros H; inversion H].
  - rewrite orb_true_iff, IH, elem_of_cons, same_key_iff. split.
    + intros [H | H]; [left; congruence | now right].
    + intros [H | H]; [left; congruence | now right].
Qed.


Lemma replace_runs_no_class (cls : ascii -> bool) (by_ : ascii) (in_run : bool)
      (s : string) :
  cls by_ = false ->
  JS.all_chars (fun c => negb (cls c)) (JS.replace_runs cls by_ in_run s) = true.
Proof.
  intros Hby. revert in_run. induction s as [|c s IH]; intros in_run; simpl;
    [reflexivity |].
  destruct (cls c) eqn:Hc.
  - destruct in_run; simpl; [apply IH |]. rewrite Hby. simpl. apply IH.
  - simpl. rewrite Hc. simpl. apply IH.
Qed.






(** ** The keys of the log map *)

Lemma after_last_colon_key (uid checkpoint : string) :
  colon_free checkpoint = true ->
  after_last_colon (EventManager.log_key uid checkpoint) = checkpoint.
Proof.
  intros Hfree. unfold EventManager.log_key, colon_free in *.
  induction uid as [|c uid IH].
  - change (after_last_colon (String ":" (String ":" checkpoint)) = checkpoint).
    cbn [after_last_colon JS.all_chars]. rewrite Hfree. reflexivity.
  - change (after_last_colon (String c (uid +:+ "::" +:+ checkpoint)) = checkpoint).
    cbn [after_last_colon].
    replace (JS.all_chars (fun c0 => negb (Ascii.eqb c0 ":")) (uid +:+ "::" +:+ checkpoint))
      with false; [exact IH |].
    symmetry. rewrite !all_chars_append. cbn [JS.all_chars].
    replace (Ascii.eqb ":" ":") with true by reflexivity.
    cbn [negb andb]. now rewrite andb_false_r.
Qed.

Lemma append_inj_l (a b t : string) : a +:+ t = b +:+ t -> a = b.
Proof.
  revert b. induction a as [|c a IH]; intros [|d b] H.
  - reflexivity.
  - exfalso. apply (f_equal String.length) in H.
    rewrite !length_append in H. simpl in H. lia.
  - exfalso. apply (f_equal String.length) in H.
    rewrite !length_append in H. simpl in H. lia.
  - change (String c (a +:+ t) = String d (b +:+ t)) in H.
    injection H as -> H. f_equal. now apply IH.
Qed.

(** two keys with checkpoint names free of [:] are equal only for the same
    participant and the same checkpoint *)
Lemma log_key_inj (u1 c1 u2 c2 : string) :
  colon_free c1 = true -> colon_free c2 = true ->
  EventManager.log_key u1 c1 = EventManager.log_key u2 c2 ->
  u1 = u2 /\ c1 = c2.
Proof.
  intros H1 H2 Hk.
  assert (Hc : c1 = c2).
  { rewrite <- (after_last_colon_key u1 c1 H1), <- (after_last_colon_key u2 c2 H2).
    now rewrite Hk. }
  subst c2. split; [| reflexivity].
  unfold EventManager.log_key in Hk. now apply append_inj_l in Hk.
Qed.

Lemma logMap_foldl_miss (rows : list (string * string * Z)) (m : gmap string Z)
      (k : string) :
  Forall (fun r => EventManager.log_key r.1.1 r.1.2 <> k) rows ->
  foldl (fun m r => <[EventManager.log_key r.1.1 r.1.2 := r.2]> m) m rows !! k
  = m !! k.
Proof.
  revert m. induction rows as [|r rows IH]; intros m Hall; simpl; [reflexivity |].
  apply Forall_cons in Hall as [Hr Hall].
  rewrite IH by assumption. now apply lookup_insert_ne.
Qed.

Lemma logMap_foldl_hit (before after : list (string * string * Z))
      (r : string * string * Z) (m : gmap string Z) :
  Forall (fun r' => EventManager.log_key r'.1.1 r'.1.2
                    <> EventManager.log_key r.1.1 r.1.2) after ->
  foldl (fun m r => <[EventManager.log_key r.1.1 r.1.2 := r.2]> m) m
        (before ++ r :: after) !! EventManager.log_key r.1.1 r.1.2
  = Some r.2.
Proof.
  intros Hafter. rewrite foldl_app. simpl.
  rewrite logMap_foldl_miss by assumption. apply lookup_insert_eq.
Qed.

Lemma logged_pair_colon_free (e : Z) (db : EventManager.database) (k : string * string) :
  Forall (fun l => colon_free (Log.checkpoint_name l) = true)
         (EventManager.event_checkpoint_logs db) ->
  k ∈ (fun l => (Log.user_id l, Log.checkpoint_name l))
        <$> filter (fun l => Log.event_id l = e) (EventManager.event_checkpoint_logs db) ->
  colon_free k.2 = true.
Proof.
  intros Hall Hk. apply list_elem_of_fmap in Hk as (l & -> & Hl).
  apply list_elem_of_filter in Hl as [_ Hl].
  rewrite Forall_forall in Hall. now apply Hall.
Qed.

Lemma times_at_nil_iff (e : Z) (u h : string) (db : EventManager.database) :
  times_at e u h db = []
  <-> (u, h) ∉ (fun l => (Log.user_id l, Log.checkpoint_name l))
                 <$> filter (fun l => Log.event_id l = e)
                            (EventManager.event_checkpoint_logs db).
Proof.
  unfold times_at.
  set (rows := filter (fun l => Log.event_id l = e) (EventManager.event_checkpoint_logs db)).
  split.
  - intros Hnil Hin. apply list_elem_of_fmap in Hin as (l & Hkey & Hl).
    injection Hkey as Hu Hh.
    assert (Hm : l ∈ filter (fun l => Log.user_id l = u ∧ Log.checkpoint_name l = h) rows).
    { apply list_elem_of_filter. split; [split; congruence | assumption]. }
    apply (list_elem_of_fmap_2 Log.action_time) in Hm. rewrite Hnil in Hm.
    inversion Hm.
  - intros Hnot.
    destruct (filter (fun l => Log.user_id l = u ∧ Log.checkpoint_name l = h) rows)
      as [|l ls] eqn:Hf; [reflexivity |].
    exfalso. apply Hnot.
    assert (Hl : l ∈ filter (fun l => Log.user_id l = u ∧ Log.checkpoint_name l = h) rows)
      by (rewrite Hf; left).
    apply list_elem_of_filter in Hl as [[Hu Hh] Hl].
    apply list_elem_of_fmap. exists l. split; [congruence | assumption].
Qed.

(** the log map holds, under the key of a participant and a checkpoint, the
    greatest instant logged for them in the event, and nothing without a log *)
Lemma logMap_lookup (e : Z) (db : EventManager.database) (u h : string) :
  Forall (fun l => colon_free (Log.checkpoint_name l) = true)
         (EventManager.event_checkpoint_logs db) ->
  colon_free h = true ->
  EventManager.logMap_of (EventManager.logsRows e db) !! EventManager.log_key u h
  = last_write (times_at e u h db).
Proof.
  intros Hall Hh. unfold EventManager.logMap_of, EventManager.logsRows.
  set (rows := filter (fun l => Log.event_id l = e) (EventManager.event_checkpoint_logs db)).
  set (pairs := (fun l => (Log.user_id l, Log.checkpoint_name l)) <$> rows).
  set (f := fun k : string * string =>
              (k.1, k.2,
               EventManager.max_time
                 (Log.action_time <$>
                    filter (fun l => Log.user_id l = k.1 ∧ Log.checkpoint_name l = k.2) rows))).
  assert (Hmiss : forall ks : list (string * string),
            (forall k, k ∈ ks -> k ∈ pairs) -> (u, h) ∉ ks ->
            Forall (fun r => EventManager.log_key r.1.1 r.1.2 <> EventManager.log_key u h)
                   (f <$> ks)).
  { intros ks Hsub Hnot. apply Forall_forall. intros r Hr.
    apply list_elem_of_fmap in Hr as (k & -> & Hk). simpl.
    intros Heq. apply log_key_inj in Heq as [Hu Hc]; [| | assumption].
    - apply Hnot. destruct k as [k1 k2]; simpl in *. now subst.
    - apply (logged_pair_colon_free e db k Hall). now apply Hsub. }
  destruct (decide ((u, h) ∈ pairs)) as [Hin | Hnot].
  - assert (Hin' : (u, h) ∈ remove_dups pairs) by now apply elem_of_remove_dups.
    destruct (list_elem_of_split_r _ _ Hin') as (l1 & l2 & Hsplit & Hl2).
    rewrite Hsplit, fmap_app, fmap_cons.
    rewrite (logMap_foldl_hit (f <$> l1) (f <$> l2) (f (u, h))).
    + simpl. unfold last_write.
      destruct (times_at e u h db) as [|t ts] eqn:Ht.
      * apply times_at_nil_iff in Ht. contradiction.
      * unfold times_at in Ht. fold rows in Ht. now rewrite Ht.
    + simpl. apply Hmiss; [| assumption].
      intros k Hk. apply (elem_of_remove_dups pairs). rewrite Hsplit.
      apply elem_of_app. right. now right.
  - rewrite logMap_foldl_miss.
    + rewrite lookup_empty. symmetry. unfold last_write.
      now rewrite (proj2 (times_at_nil_iff e u h db) Hnot).
    + apply Hmiss; [| now rewrite elem_of_remove_dups].
      intros k Hk. now apply elem_of_remove_dups.
Qed.

(** ** Checkpoint logging and the availability matrix *)

Lemma max_time_greatest (times : list Z) (top : Z) :
  Forall (fun t => t <= top) times -> top ∈ times ->
  EventManager.max_time times = top.
Proof.
  intros Hall Hin. unfold EventManager.max_time.
  assert (Hhd : hd 0 times <= top).
  { destruct times as [|t ts]; [inversion Hin |]. simpl.
    now apply Forall_cons in Hall as [Ht _]. }
  generalize dependent (hd 0 times). intros d Hd.
  induction times as [|t ts IH]; [inversion Hin |].
  apply Forall_cons in Hall as [Ht Hall]. simpl.
  apply elem_of_cons in Hin as [<- | Hin].
  - assert (Hle : foldr Z.max d ts <= top).
    { clear -Hall Hd. induction ts as [|x ts IH]; simpl; [assumption |].
      apply Forall_cons in Hall as [Hx Hall]. specialize (IH Hall). lia. }
    lia.
  - rewrite (IH Hall Hin). lia.
Qed.

Lemma cell_of_headers (f : string -> option Z) (hs : list string) (h : string)
      (i n p : string) :
  EventManager.cell
    {| EventManager.cust_id := i; EventManager.cust_name := n;
       EventManager.cust_phone := p;
       EventManager.cells := (fun h => (h, f h)) <$> hs |} h
  = if decide (h ∈ hs) then f h else None.
Proof.
  unfold EventManager.cell. cbn [EventManager.cells].
  destruct (List.find _ _) as [hv|] eqn:Hfind.
  - apply find_some in Hfind as [Hin Heq].
    apply String.eqb_eq in Heq.
    apply in_rev, list_elem_of_In, list_elem_of_fmap in Hin as (h' & -> & Hh').
    simpl in *. subst h'. now rewrite decide_True.
  - destruct (decide (h ∈ hs)) as [Hin | _]; [| reflexivity].
    assert (Hmem : In (h, f h) (rev ((fun h => (h, f h)) <$> hs))).
    { apply in_rev. rewrite rev_involutive.
      apply list_elem_of_In, list_elem_of_fmap. now exists h. }
    pose proof (find_none _ _ Hfind (h, f h) Hmem) as Hno.
    simpl in Hno. rewrite String.eqb_refl in Hno. discriminate Hno.
Qed.

Lemma checkpoint_active_header (ev cp : string) (db : EventManager.database) :
  EventManager.checkpoint_active ev cp db = true ->
  cp ∈ EventManager.headers_of ev db.
Proof.
  unfold EventManager.checkpoint_active, EventManager.headers_of. intros Hex.
  apply existsb_exists in Hex as (c & Hc & Hk).
  apply andb_true_iff in Hk as [Hk Hact].
  apply same_key_iff in Hk. injection Hk as Hev Hcp.
  apply list_elem_of_fmap. exists c. split; [congruence |].
  rewrite merge_sort_Permutation. apply list_elem_of_filter.
  split; [tauto |]. now apply list_elem_of_In.
Qed.

Lemma header_colon_free (ev h : string) (db : EventManager.database) :
  Forall (fun c => colon_free (Checkpoint.checkpoint_name c) = true)
         (EventManager.event_checkpoints db) ->
  h ∈ EventManager.headers_of ev db -> colon_free h = true.
Proof.
  intros Hall Hh. unfold EventManager.headers_of in Hh.
  apply list_elem_of_fmap in Hh as (c & -> & Hc).
  rewrite merge_sort_Permutation in Hc.
  apply list_elem_of_filter in Hc as [_ Hc].
  rewrite Forall_forall in Hall. now apply Hall.
Qed.

(** the matrix shows, in every cell, the greatest instant logged for the
    participant at the checkpoint, and nothing without a log *)
Lemma available_cells (ev : string) (e : Z) (db : EventManager.database) :
  ev <> "" ->
  EventManager.event_id_of ev db = Some e ->
  Forall (fun c => colon_free (Checkpoint.checkpoint_name c) = true)
         (EventManager.event_checkpoints db) ->
  Forall (fun l => colon_free (Log.checkpoint_name l) = true)
         (EventManager.event_checkpoint_logs db) ->
  exists customers,
    EventManager.available (Some ev) db
    = EventManager.matrix (EventManager.headers_of ev db) customers
    /\ (forall u, EventManager.is_participant e u db = true ->
          exists c, c ∈ customers /\ EventManager.cust_id c = u)
    /\ (forall c h, c ∈ customers -> h ∈ EventManager.headers_of ev db ->
          EventManager.cell c h
          = last_write (times_at e (EventManager.cust_id c) h db)).
Proof.
  intros Hev He Hcps Hlogs. unfold EventManager.available. rewrite He.
  destruct ev as [|e0 ev']; [congruence |].
  eexists. split; [reflexivity |]. split.
  - intros u Hu. unfold EventManager.is_participant in Hu.
    apply existsb_exists in Hu as (p & Hp & Hm).
    apply andb_true_iff in Hm as [Hpe Hpu].
    apply Z.eqb_eq in Hpe. apply String.eqb_eq in Hpu.
    eexists. split.
    + apply list_elem_of_fmap. exists p. split; [reflexivity |].
      unfold EventManager.participants_of. rewrite merge_sort_Permutation.
      apply list_elem_of_filter. split; [assumption | now apply list_elem_of_In].
    + exact Hpu.
  - intros c h Hc Hh. apply list_elem_of_fmap in Hc as (p & -> & _).
    rewrite cell_of_headers, decide_True by assumption.
    cbn [EventManager.cust_id].
    apply logMap_lookup; [assumption |].
    now apply (header_colon_free (String e0 ev') h db).
Qed.

(** what a successful check tells about the request and the tables, and what
    it leaves behind: the participant is enrolled and one row is logged *)
Lemma check_checked_inv (cfg : EventManager.config) (now : Z)
      (req : EventManager.check_request) (db db1 : EventManager.database)
      (u cp : string) (t e : Z) :
  EventManager.check cfg now req db = (EventManager.checked u cp t e, db1) ->
  t = now
  /\ EventManager.column_type req = Some cp /\ cp <> ""
  /\ JS.truthy_ostr (EventManager.chk_event_name req)
     || JS.truthy_onum (EventManager.chk_event_id req) = true
  /\ EventManager.resolve_event req db = Some e
  /\ JS.truthy_num e = true
  /\ EventManager.checkpoint_active
       (default "" (JS.or_null (EventManager.chk_event_name req))) cp db = true
  /\ EventManager.identifier_of req = Some u
  /\ EventManager.DB_TYPE_mysql cfg && EventManager.user_id_is_int cfg
     && negb (JS.truthy_str u && JS.all_chars JS.is_digit u) = false
  /\ exists dbE,
       EventManager.events dbE = EventManager.events db
       /\ EventManager.event_checkpoints dbE = EventManager.event_checkpoints db
       /\ EventManager.event_checkpoint_logs dbE = EventManager.event_checkpoint_logs db
       /\ EventManager.is_participant e u dbE = true
       /\ db1 = EventManager.set_logs
                  (EventManager.event_checkpoint_logs dbE ++ [logged e u cp now req]) dbE.
Proof.
  unfold EventManager.check.
  destruct (JS.truthy_ostr (EventManager.chk_event_name req)
            || JS.truthy_onum (EventManager.chk_event_id req)) eqn:Hgiven.
  2:{ apply orb_false_iff in Hgiven as [-> ->]. discriminate. }
  replace (negb (JS.truthy_ostr (EventManager.chk_event_name req))
           && negb (JS.truthy_onum (EventManager.chk_event_id req))) with false
    by (symmetry; rewrite <- negb_orb, Hgiven; reflexivity).
  destruct (EventManager.column_type req) as [[|c0 col]|]; try discriminate.
  destruct (EventManager.resolve_event req db) as [e'|]; try discriminate.
  destruct (JS.truthy_num e') eqn:He'; try discriminate. cbn [negb].
  destruct (EventManager.checkpoint_active _ _ db) eqn:Hact; try discriminate.
  cbn [negb].
  destruct (EventManager.identifier_of req) as [u'|]; try discriminate.
  destruct (EventManager.DB_TYPE_mysql cfg && EventManager.user_id_is_int cfg
            && negb (JS.truthy_str u' && JS.all_chars JS.is_digit u')) eqn:Hint;
    try discriminate.
  destruct (EventManager.is_participant e' u' db) eqn:Hpart.
  - intros [= <- <- <- <- <-].
    repeat split; try assumption; try reflexivity; try discriminate.
    exists db. repeat split; assumption.
  - destruct (JS.truthy_ostr (EventManager.customer_name req)); try discriminate.
    intros [= <- <- <- <- <-].
    repeat split; try assumption; try reflexivity; try discriminate.
    exists (EventManager.set_participants
              (EventManager.event_participants db ++
               [ {| Participant.event_id := e'; Participant.user_id := u';
                    Participant.name := EventManager.customer_name req;
                    Participant.phone :=
                      Some (default "" (JS.or_null (EventManager.customer_phone req))) |} ])
              db).
    split; [| split; [| split; [| split; [| reflexivity]]]];
      try reflexivity.
    unfold EventManager.is_participant, EventManager.set_participants.
    cbn [EventManager.event_participants].
    rewrite existsb_app. cbn [existsb Participant.event_id Participant.user_id].
    rewrite Z.eqb_refl, String.eqb_refl. cbn. apply orb_true_r.
Qed.

(** a check of an enrolled participant at an active checkpoint of a known
    event logs one row, whatever has been logged before *)
Lemma check_enrolled (cfg : EventManager.config) (now : Z)
      (req : EventManager.check_request) (db : EventManager.database)
      (u cp : string) (e : Z) :
  EventManager.column_type req = Some cp -> cp <> "" ->
  JS.truthy_ostr (EventManager.chk_event_name req)
  || JS.truthy_onum (EventManager.chk_event_id req) = true ->
  EventManager.resolve_event req db = Some e ->
  JS.truthy_num e = true ->
  EventManager.checkpoint_active
    (default "" (JS.or_null (EventManager.chk_event_name req))) cp db = true ->
  EventManager.identifier_of req = Some u ->
  EventManager.DB_TYPE_mysql cfg && EventManager.user_id_is_int cfg
  && negb (JS.truthy_str u && JS.all_chars JS.is_digit u) = false ->
  EventManager.is_participant e u db = true ->
  EventManager.check cfg now req db
  = (EventManager.checked u cp now e,
     EventManager.set_logs
       (EventManager.event_checkpoint_logs db ++ [logged e u cp now req]) db).
Proof.
  intros Hcol Hcp Hgiven Hres He Hact Hid Hint Hpart.
  unfold EventManager.check.
  replace (negb (JS.truthy_ostr (EventManager.chk_event_name req))
           && negb (JS.truthy_onum (EventManager.chk_event_id req))) with false
    by (symmetry; rewrite <- negb_orb, Hgiven; reflexivity).
  rewrite Hcol. destruct cp as [|c0 col]; [congruence |].
  rewrite Hres, He. cbn [negb]. rewrite Hact. cbn [negb].
  rewrite Hid, Hint, Hpart. reflexivity.
Qed.

Lemma times_at_logged (e : Z) (u cp : string) (T1 T2 : Z)
      (req : EventManager.check_request) (db db2 : EventManager.database) :
  EventManager.event_checkpoint_logs db2
  = EventManager.event_checkpoint_logs db
    ++ [logged e u cp T1 req; logged e u cp T2 req] ->
  times_at e u cp db2 = times_at e u cp db ++ [T1; T2].
Proof.
  intros Hlogs. unfold times_at. rewrite Hlogs.
  rewrite !filter_app, fmap_app. f_equal.
  rewrite !filter_cons, filter_nil. cbn [Log.event_id logged].
  rewrite !decide_True by reflexivity.
  rewrite !filter_cons, filter_nil.
  cbn [Log.user_id Log.checkpoint_name logged].
  rewrite !decide_True by (split; reflexivity). reflexivity.
Qed.

(** C8: logging is last-write-wins and never rejects a repeat.  After a check
    at instant [T1] has succeeded for the event that the request names, the
    same check at a later instant [T2] succeeds as well, and the log table has
    grown by exactly the two rows; the matrix of the event then has the
    checkpoint among its headers and a row for the participant, whose cell
    under the checkpoint shows [T2]; and every cell of the matrix shows the
    greatest instant logged for its participant at its checkpoint, or nothing
    when there is no such log.  The names of the registry and of the logs are
    free of [:], as the registry makes them, and no earlier log is later than
    [T1]. *)
Theorem checkpoint_last_write_wins (cfg : EventManager.config)
        (req : EventManager.check_request) (db db1 : EventManager.database)
        (ev u cp : string) (e T1 T2 : Z) :
  EventManager.chk_event_name req = Some ev ->
  ev <> "" ->
  EventManager.event_id_of ev db = Some e ->
  Forall (fun c => colon_free (Checkpoint.checkpoint_name c) = true)
         (EventManager.event_checkpoints db) ->
  Forall (fun l => colon_free (Log.checkpoint_name l) = true)
         (EventManager.event_checkpoint_logs db) ->
  Forall (fun l => Log.action_time l <= T1) (EventManager.event_checkpoint_logs db) ->
  EventManager.check cfg T1 req db = (EventManager.checked u cp T1 e, db1) ->
  T1 < T2 ->
  exists db2,
    EventManager.check cfg T2 req db1 = (EventManager.checked u cp T2 e, db2)
    /\ EventManager.event_checkpoint_logs db2
       = EventManager.event_checkpoint_logs db
         ++ [logged e u cp T1 req; logged e u cp T2 req]
    /\ match EventManager.available (Some ev) db2 with
       | EventManager.matrix headers customers =>
           cp ∈ headers
           /\ (exists c, c ∈ customers /\ EventManager.cust_id c = u)
           /\ (forall c, c ∈ customers -> EventManager.cust_id c = u ->
                 EventManager.cell c cp = Some T2)
           /\ (forall c h, c ∈ customers -> h ∈ headers ->
                 EventManager.cell c h
                 = last_write (times_at e (EventManager.cust_id c) h db2))
       | EventManager.available_failed _ _ => False
       end.
Proof.
  intros Hname Hev_ne Heid Hcps Hlogs Hclock H1 Hlt.
  apply check_checked_inv in H1
    as (_ & Hcol & Hcp & Hgiven & Hres & He & Hact & Hident & Hint
        & dbE & Hev & Hck & Hlg & Hpart & ->).
  set (db1 := EventManager.set_logs
                (EventManager.event_checkpoint_logs dbE ++ [logged e u cp T1 req]) dbE).
  set (db2 := EventManager.set_logs
                (EventManager.event_checkpoint_logs db1 ++ [logged e u cp T2 req]) db1).
  assert (Hlogs2 : EventManager.event_checkpoint_logs db2
                   = EventManager.event_checkpoint_logs db
                     ++ [logged e u cp T1 req; logged e u cp T2 req]).
  { subst db2 db1. cbn [EventManager.event_checkpoint_logs EventManager.set_logs].
    rewrite Hlg, <- app_assoc. reflexivity. }
  assert (Hor : default "" (JS.or_null (EventManager.chk_event_name req)) = ev).
  { rewrite Hname. destruct ev; [congruence | reflexivity]. }
  rewrite Hor in Hact.
  exists db2. split; [| split; [exact Hlogs2 |]].
  - apply check_enrolled; try assumption.
    + rewrite <- Hres. unfold EventManager.resolve_event, EventManager.event_id_of.
      subst db1. cbn [EventManager.events EventManager.set_logs]. now rewrite Hev.
    + rewrite Hor. rewrite <- Hact.
      unfold EventManager.checkpoint_active. subst db1.
      cbn [EventManager.event_checkpoints EventManager.set_logs]. now rewrite Hck.
  - destruct (available_cells ev e db2 Hev_ne) as (customers & Hav & Hrow & Hcells).
    + rewrite <- Heid. unfold EventManager.event_id_of. subst db2 db1.
      cbn [EventManager.events EventManager.set_logs]. now rewrite Hev.
    + subst db2 db1. cbn [EventManager.event_checkpoints EventManager.set_logs].
      now rewrite Hck.
    + assert (Hfree : colon_free cp = true).
      { apply (header_colon_free ev cp db Hcps). now apply checkpoint_active_header. }
      rewrite Hlogs2. apply Forall_app. split; [assumption |].
      repeat constructor; exact Hfree.
    + rewrite Hav.
      assert (Hheaders : EventManager.headers_of ev db2 = EventManager.headers_of ev db).
      { unfold EventManager.headers_of. subst db2 db1.
        cbn [EventManager.event_checkpoints EventManager.set_logs]. now rewrite Hck. }
      assert (Hcp_in : cp ∈ EventManager.headers_of ev db2).
      { rewrite Hheaders. now apply checkpoint_active_header. }
      split; [exact Hcp_in |]. split; [apply Hrow; exact Hpart |].
      split; [| exact Hcells].
      intros c Hc Hcu. rewrite (Hcells c cp Hc Hcp_in), Hcu.
      rewrite (times_at_logged e u cp T1 T2 req db db2 Hlogs2).
      unfold last_write.
      destruct (times_at e u cp db ++ [T1; T2]) as [|t ts] eqn:Hts.
      { apply app_eq_nil in Hts as [_ Hts]. discriminate Hts. }
      rewrite <- Hts. f_equal. apply max_time_greatest.
      * apply Forall_app. split.
        -- unfold times_at. apply Forall_fmap, Forall_forall. intros l Hl.
           apply list_elem_of_filter in Hl as [_ Hl].
           apply list_elem_of_filter in Hl as [_ Hl].
           rewrite Forall_forall in Hclock. specialize (Hclock l Hl). simpl. lia.
        -- repeat constructor; lia.
      * apply elem_of_app. right. right. left.
Qed.

(** a request that names its event without giving an id is a request for the
    event of that name *)
Lemma named_event_resolved (req : EventManager.check_request)
      (db : EventManager.database) (ev : string) (e : Z) :
  EventManager.chk_event_id req = None ->
  EventManager.chk_event_name req = Some ev ->
  EventManager.resolve_event req db = Some e ->
  ev <> "" /\ EventManager.event_id_of ev db = Some e.
Proof.
  intros Hid Hname. unfold EventManager.resolve_event. rewrite Hid, Hname.
  destruct ev as [|c0 ev']; [discriminate |]. simpl.
  destruct (EventManager.event_id_of _ db); [| discriminate].
  intros [= ->]. split; [discriminate | reflexivity].
Qed.

Lemma checkpoint_last_write_wins_witness :
  exists db2,
    EventManager.check sqlite 200 gala_check
      (EventManager.check sqlite 100 gala_check gala).2
    = (EventManager.checked "42" "GATE_A" 200 1, db2)
    /\ Log.action_time <$> EventManager.event_checkpoint_logs db2 = [100; 200].
Proof.
  destruct (checkpoint_last_write_wins sqlite gala_check gala
              (EventManager.check sqlite 100 gala_check gala).2
              "Gala" "42" "GATE_A" 1 100 200)
    as (db2 & Hcheck & Hlogs & _).
  - reflexivity.
  - discriminate.
  - reflexivity.
  - repeat constructor.
  - constructor.
  - constructor.
  - reflexivity.
  - reflexivity.
  - exists db2. split; [exact Hcheck |]. rewrite Hlogs. reflexivity.
Defined.

(** ** Day-scoped alternation on the scan route *)

Lemma action_eqb_refl (a : action) : action_eqb a a = true.
Proof. destruct a; reflexivity. Qed.

Lemma action_eqb_eq (a b : action) : action_eqb a b = true -> a = b.
Proof. destruct a, b; simpl; congruence. Qed.

Lemma alternates_snoc (start : action) (l : list action) :
  alternates start l = true ->
  alternates start (l ++ [next_action start l]) = true.
Proof.
  revert start. induction l as [|a l IH]; intros start; simpl.
  - intros _. unfold next_action. simpl. now rewrite action_eqb_refl.
  - intros [Ha Hl]%andb_true_iff. rewrite Ha. simpl.
    apply action_eqb_eq in Ha. subst a.
    replace (next_action start (start :: l)) with (next_action (toggle start) l).
    + now apply IH.
    + unfold next_action. destruct l as [|b l]; [reflexivity |].
      rewrite last_cons_cons.
      destruct (last (b :: l)) eqn:Hlast; [reflexivity |].
      now apply last_None in Hlast.
Qed.

Lemma latest_of_increasing (rows : list Entry.t) :
  StronglySorted earlier rows -> Attendance.latest rows = last rows.
Proof.
  induction rows as [|r rows IH]; [reflexivity |].
  intros Hs. apply StronglySorted_inv in Hs as [Hs Hall].
  simpl. rewrite (IH Hs).
  destruct rows as [|r' rows']; [reflexivity |].
  rewrite last_cons_cons.
  destruct (last (r' :: rows')) as [z|] eqn:Hlast.
  - assert (Hz : z ∈ r' :: rows') by (apply last_Some_elem_of; exact Hlast).
    rewrite Forall_forall in Hall. specialize (Hall z Hz). unfold earlier in Hall.
    now rewrite (proj2 (Z.ltb_lt _ _) Hall).
  - now apply last_None in Hlast.
Qed.

Lemma getLastScanForUser_day (userId : string) (day : Z) (tbl : list Entry.t) :
  Attendance.getLastScanForUser userId (Some day) tbl
  = Attendance.constructor <$> Attendance.latest (day_rows userId day tbl).
Proof.
  unfold Attendance.getLastScanForUser, day_rows. do 2 f_equal.
  induction tbl as [|r tbl IH]; [reflexivity |].
  rewrite (filter_cons (fun r => Entry.user_id r = userId ∧ Entry.status r = valid)).
  rewrite (filter_cons (fun r => Entry.user_id r = userId ∧ Entry.scan_date r = day
                                 ∧ Entry.status r = valid)).
  destruct (decide (Entry.user_id r = userId ∧ Entry.status r = valid)) as [[Hu Hv] | Hn].
  - rewrite filter_cons.
    destruct (decide (Entry.scan_date r = day)) as [Hd | Hd].
    + rewrite decide_True by tauto. now rewrite IH.
    + rewrite decide_False by tauto. exact IH.
  - rewrite decide_False by tauto. exact IH.
Qed.

(** one day-scoped scan keeps the rows of the day increasing in time and
    alternating from the entry *)
Lemma rfid_scan_day_step (findByRfidCard : string -> card_lookup)
      (user card : string) (now : Z) (tbl : list Entry.t) :
  let req := plain_scan user card None in
  let target := Api.targetUser findByRfidCard req card in
  let tbl' := (Api.rfid_scan findByRfidCard now req tbl).2 in
  StronglySorted earlier (day_rows target (date_of now) tbl) ->
  Forall (fun r => Entry.scan_time r < now) (day_rows target (date_of now) tbl) ->
  alternates check_in (Entry.action_type <$> day_rows target (date_of now) tbl) = true ->
  StronglySorted earlier (day_rows target (date_of now) tbl')
  /\ Forall (fun r => Entry.scan_time r <= now) (day_rows target (date_of now) tbl')
  /\ alternates check_in (Entry.action_type <$> day_rows target (date_of now) tbl') = true.
Proof.
  cbv zeta. set (req := plain_scan user card None).
  set (target := Api.targetUser findByRfidCard req card).
  set (day := date_of now).
  intros Hsorted Hbefore Halt.
  assert (Hkeep : StronglySorted earlier (day_rows target day tbl)
                  /\ Forall (fun r => Entry.scan_time r <= now) (day_rows target day tbl)
                  /\ alternates check_in (Entry.action_type <$> day_rows target day tbl) = true).
  { split; [assumption |]. split; [| assumption].
    eapply Forall_impl; [exact Hbefore |]. simpl. intros r Hr. lia. }
  unfold Api.rfid_scan. cbn [rfid_card req plain_scan event_id JS.truthy_onum].
  destruct card as [|c0 card']; [exact Hkeep |].
  set (card := String c0 card') in *. fold req target day.
  destruct (Attendance.checkDuplicateScan now target card 5 tbl); [exact Hkeep |].
  destruct (Attendance.recordAttendance _ tbl) as [[att tbl']|] eqn:Hrec;
    [| exact Hkeep].
  cbn [snd]. unfold Attendance.recordAttendance in Hrec.
  cbn [AttendanceData.userId AttendanceData.rfidCard] in Hrec.
  destruct (Attendance.sanitize (Some target)) as [u|] eqn:Hu; [| discriminate].
  destruct (Attendance.sanitize (Some card)) as [c|] eqn:Hc; [| discriminate].
  assert (u = target) as ->.
  { destruct target; simpl in Hu; congruence. }
  injection Hrec as _ <-.
  unfold day_rows. rewrite filter_app, filter_cons, filter_nil.
  cbn [Entry.user_id Entry.scan_date Entry.status AttendanceData.scanDate
       AttendanceData.status default from_option].
  rewrite decide_True by (repeat split; reflexivity).
  fold (day_rows target day tbl).
  rewrite getLastScanForUser_day, (latest_of_increasing _ Hsorted).
  split; [| split].
  - apply StronglySorted_app_2; [| assumption | repeat constructor].
    intros r1 r2 Hr1 Hr2. apply list_elem_of_singleton in Hr2. subst r2.
    rewrite Forall_forall in Hbefore. unfold earlier. cbn [Entry.scan_time].
    now apply Hbefore.
  - apply Forall_app. split.
    + eapply Forall_impl; [exact Hbefore |]. simpl. intros r Hr. lia.
    + repeat constructor. cbn [Entry.scan_time AttendanceData.scanTime]. lia.
  - rewrite fmap_app. cbn [fmap list_fmap Entry.action_type AttendanceData.actionType].
    replace (match Attendance.constructor <$> last (day_rows target day tbl) with
             | Some lastScan =>
                 if Attendance.scanDate lastScan =? day
                 then toggle (Attendance.actionType lastScan) else check_in
             | None => check_in
             end)
      with (next_action check_in (Entry.action_type <$> day_rows target day tbl)).
    + now apply alternates_snoc.
    + unfold next_action. rewrite fmap_last.
      destruct (last (day_rows target day tbl)) as [r|] eqn:Hlast; [| reflexivity].
      cbn [fmap option_fmap option_map Attendance.constructor
           Attendance.scanDate Attendance.actionType].
      assert (Hr : r ∈ day_rows target day tbl) by now apply last_Some_elem_of.
      apply list_elem_of_filter in Hr as [(_ & Hd & _) _].
      now rewrite Hd, Z.eqb_refl.
Qed.

(** X10: day-scoped scans of one user replayed on [POST /rfid/scan] at
    increasing instants of one day, on a table without earlier record of the
    user for that day, leave the records of the day alternating from the
    entry. *)
Lemma day_scans_alternate (findByRfidCard : string -> card_lookup)
      (user card : string) (day : Z) (times : list Z) (tbl : list Entry.t) :
  let req := plain_scan user card None in
  let target := Api.targetUser findByRfidCard req card in
  Forall (fun t => date_of t = day) times ->
  StronglySorted Z.lt times ->
  day_rows target day tbl = [] ->
  alternates check_in
    (day_actions target day
       (replay (Api.rfid_scan findByRfidCard) ((fun t => (t, req)) <$> times) tbl))
  = true.
Proof.
  cbv zeta. set (req := plain_scan user card None).
  set (target := Api.targetUser findByRfidCard req card).
  intros Hday Hsorted Hempty.
  assert (Hgen : forall ts tbl0,
    Forall (fun t => date_of t = day) ts ->
    StronglySorted Z.lt ts ->
    StronglySorted earlier (day_rows target day tbl0) ->
    Forall (fun r => Forall (fun t => Entry.scan_time r < t) ts) (day_rows target day tbl0) ->
    alternates check_in (Entry.action_type <$> day_rows target day tbl0) = true ->
    alternates check_in
      (Entry.action_type <$>
         day_rows target day
           (replay (Api.rfid_scan findByRfidCard) ((fun t => (t, req)) <$> ts) tbl0))
    = true).
  { induction ts as [|t ts IH]; intros tbl0 Hd Hs Hrows Hlt Halt; [exact Halt |].
    apply Forall_cons in Hd as [Ht Hd].
    apply StronglySorted_inv in Hs as [Hs Hts].
    cbn [fmap list_fmap replay].
    destruct (rfid_scan_day_step findByRfidCard user card t tbl0) as (H1 & H2 & H3).
    - now rewrite Ht.
    - rewrite Ht. eapply Forall_impl; [exact Hlt |]. simpl. intros r Hr.
      now apply Forall_cons in Hr as [Hr _].
    - now rewrite Ht.
    - rewrite Ht in H1, H2, H3. apply IH; try assumption.
      eapply Forall_impl; [exact H2 |]. simpl. intros r Hr.
      eapply Forall_impl; [exact Hts |]. simpl. intros t' Ht'. lia. }
  apply Hgen; try assumption; rewrite Hempty; constructor.
Qed.

Lemma day_scans_alternate_witness :
  alternates check_in
    (day_actions "U1" 0
       (replay (Api.rfid_scan no_owner)
          ((fun t => (t, plain_scan "U1" "0000000001" None)) <$> [100; 110; 120]) []))
  = true.
Proof.
  apply (day_scans_alternate no_owner "U1" "0000000001" 0 [100; 110; 120] []).
  - repeat constructor.
  - repeat constructor; lia.
  - reflexivity.
Defined.

(** ** The read-back of an inserted record *)

Lemma filter_none {A} (P : A -> Prop) `{!forall x, Decision (P x)} (l : list A) :
  (forall x, x ∈ l -> ~ P x) -> filter P l = [].
Proof.
  induction l as [|x l IH]; intros Hall; [reflexivity |].
  rewrite filter_cons, decide_False by (apply Hall; left).
  apply IH. intros y Hy. apply Hall. now right.
Qed.

Lemma insertId_fresh (tbl : list Entry.t) (r : Entry.t) :
  r ∈ tbl -> (Entry.id r < Attendance.insertId tbl)%nat.
Proof.
  unfold Attendance.insertId. induction tbl as [|x tbl IH]; [inversion 1 |].
  intros [-> | Hin]%elem_of_cons; simpl; [lia |].
  specialize (IH Hin). lia.
Qed.

(** [findById(result.insertId)] after the INSERT is the inserted row *)
Lemma findById_inserted (tbl : list Entry.t) (r : Entry.t) :
  Entry.id r = Attendance.insertId tbl ->
  Attendance.findById (Attendance.insertId tbl) (tbl ++ [r])
  = Some (Attendance.constructor r).
Proof.
  intros Hid. unfold Attendance.findById. rewrite filter_app.
  replace (filter (fun r0 => Entry.id r0 = Attendance.insertId tbl) tbl)
    with (@nil Entry.t).
  - rewrite filter_cons, decide_True by assumption. reflexivity.
  - symmetry. apply filter_none. intros x Hx Heq.
    apply insertId_fresh in Hx. lia.
Qed.

(** ** The duplicate check of the HTTP routes *)





(** ** The names of the registry and of the logs *)

Lemma name_ok_colon_free (name : string) :
  EventManager.name_ok name = true -> colon_free name = true.
Proof.
  unfold EventManager.name_ok, colon_free.
  intros [_ Hall]%andb_true_iff. revert Hall. apply all_chars_impl.
  intros c. destruct c as [[] [] [] [] [] [] [] []]; vm_compute; congruence.
Qed.

(** the registry route keeps the checkpoint names free of [:] *)
Lemma add_checkpoint_names_colon_free (req : EventManager.add_request)
      (db : EventManager.database) :
  Forall (fun c => colon_free (Checkpoint.checkpoint_name c) = true)
         (EventManager.event_checkpoints db) ->
  Forall (fun c => colon_free (Checkpoint.checkpoint_name c) = true)
         (EventManager.event_checkpoints (EventManager.add_checkpoint req db).2).
Proof.
  intros Hall. unfold EventManager.add_checkpoint.
  destruct (negb (EventManager.allowed_role _)); [exact Hall |].
  destruct (negb (JS.truthy_ostr _) || negb (JS.truthy_ostr _)); [exact Hall |].
  destruct (EventManager.parse_kind _) as [kind|]; [| exact Hall].
  destruct (EventManager.name_ok _) eqn:Hok; [| exact Hall].
  cbn [negb snd EventManager.event_checkpoints EventManager.set_checkpoints].
  unfold EventManager.upsert.
  destruct (existsb _ _).
  - apply Forall_forall. intros c Hc.
    apply list_elem_of_In, in_map_iff in Hc as (c0 & <- & Hc0).
    rewrite Forall_forall in Hall. apply list_elem_of_In in Hc0.
    destruct (EventManager.same_key _ _ c0); [| now apply Hall].
    cbn [Checkpoint.checkpoint_name]. now apply Hall.
  - apply Forall_app. split; [exact Hall |].
    repeat constructor. cbn [Checkpoint.checkpoint_name].
    now apply name_ok_colon_free.
Qed.

(** a refused check writes nothing *)
Lemma check_failed_unchanged (cfg : EventManager.config) (now : Z)
      (req : EventManager.check_request) (db db1 : EventManager.database)
      (http : nat) (error : string) :
  EventManager.check cfg now req db = (EventManager.check_failed http error, db1) ->
  db1 = db.
Proof.
  unfold EventManager.check.
  destruct (negb _ && negb _); [now intros [= _ _ <-] |].
  destruct (EventManager.column_type req) as [[|c0 col]|];
    try (now intros [= _ _ <-]).
  destruct (EventManager.resolve_event req db) as [e'|];
    try (now intros [= _ _ <-]).
  destruct (negb (JS.truthy_num e')); [now intros [= _ _ <-] |].
  destruct (negb (EventManager.checkpoint_active _ _ db)); [now intros [= _ _ <-] |].
  destruct (EventManager.identifier_of req) as [u'|]; try (now intros [= _ _ <-]).
  destruct (_ && _ && negb _); [now intros [= _ _ <-] |].
  destruct (EventManager.is_participant e' u' db); [discriminate |].
  destruct (JS.truthy_ostr (EventManager.customer_name req));
    [discriminate | now intros [= _ _ <-]].
Qed.

(** a check keeps the logged names free of [:] when those of the registry are *)
Lemma check_logs_colon_free (cfg : EventManager.config) (now : Z)
      (req : EventManager.check_request) (db : EventManager.database) :
  Forall (fun c => colon_free (Checkpoint.checkpoint_name c) = true)
         (EventManager.event_checkpoints db) ->
  Forall (fun l => colon_free (Log.checkpoint_name l) = true)
         (EventManager.event_checkpoint_logs db) ->
  Forall (fun l => colon_free (Log.checkpoint_name l) = true)
         (EventManager.event_checkpoint_logs (EventManager.check cfg now req db).2).
Proof.
  intros Hcps Hlogs.
  destruct (EventManager.check cfg now req db) as [[http error | u cp t e] db1] eqn:Hc.
  - now rewrite (check_failed_unchanged cfg now req db db1 http error Hc).
  - apply check_checked_inv in Hc
      as (_ & _ & _ & Hgiven & _ & _ & Hact & _ & _ & dbE & _ & _ & Hlg & _ & ->).
    cbn [snd EventManager.event_checkpoint_logs EventManager.set_logs].
    rewrite Hlg. apply Forall_app. split; [exact Hlogs |].
    repeat constructor. cbn [Log.checkpoint_name logged].
    apply (header_colon_free
             (default "" (JS.or_null (EventManager.chk_event_name req))) cp db Hcps).
    apply checkpoint_active_header. exact Hact.
Qed.

(** ** Two scenarios *)

(** a card without stored instant scanned twice inside the window: one scan
    event, one duplicate notice, and the instant of the first scan is kept *)
Lemma two_scans_within_window (s : RFIDService.t) (cardId : string) (t1 t2 : Z) :
  RFIDService.lastScans s !! cardId = None ->
  t1 <> 0 ->
  t2 - t1 < RFIDService.minScanInterval s ->
  let first := RFIDService.processRFIDScan t1 cardId s in
  let second := RFIDService.processRFIDScan t2 cardId first.1 in
  first.2 ++ second.2
  = [RFIDService.Scan cardId t1 (RFIDService.deviceInfo s);
     RFIDService.Spam cardId (t2 - t1)]
  /\ second.1 = first.1
  /\ RFIDService.lastScans second.1 !! cardId = Some t1.
Proof.
  intros Hnone Hnz Hlt. cbv zeta.
  rewrite (first_scan_accepted t1 cardId s Hnone). cbn [fst snd].
  rewrite (processRFIDScan_reject t2 t1 cardId); try assumption.
  - cbn [fst snd app RFIDService.lastScans RFIDService.set_lastScans].
    repeat split. apply lookup_insert_eq.
  - cbn [RFIDService.lastScans RFIDService.set_lastScans]. apply lookup_insert_eq.
Qed.

(** a user without record of the day scans: entry; scans again ten seconds
    later: exit; scans again two seconds later: refused as a duplicate *)
Lemma scenario_entry_exit_duplicate :
  let scan := plain_scan "U1" "0000000001" None in
  let first := Api.rfid_scan no_owner 1000 scan [] in
  let second := Api.rfid_scan no_owner 1010 scan first.2 in
  let third := Api.rfid_scan no_owner 1012 scan second.2 in
  action_of first.1 = Some check_in
  /\ action_of second.1 = Some check_out
  /\ third.1 = Failure 429 "DUPLICATE_SCAN"
  /\ third.2 = second.2
  /\ day_actions "U1" 0 third.2 = [check_in; check_out].
Proof. cbv zeta. repeat split; vm_compute; reflexivity. Qed.

(** ** The reader service: clean-up, and the two ways in *)

Lemma filter_chars_all (p : ascii -> bool) (s : string) :
  JS.all_chars p s = true -> JS.filter_chars p s = s.
Proof.
  induction s as [|c s IH]; simpl; [reflexivity |].
  intros [Hc Hs]%andb_true_iff. rewrite Hc, IH by assumption. reflexivity.
Qed.

Lemma padStart_long (n : nat) (c : ascii) (s : string) :
  (n <= String.length s)%nat -> JS.padStart n c s = s.
Proof.
  intros H. unfold JS.padStart.
  replace (n - String.length s)%nat with 0%nat by lia. reflexivity.
Qed.

Lemma acceptedCardId_inv (raw id : string) :
  RFIDService.acceptedCardId raw = Some id ->
  raw <> ""
  /\ id = JS.padStart 10 "0" (JS.filter_chars JS.is_digit raw)
  /\ RFIDService.isValidCardId id = true.
Proof.
  unfold RFIDService.acceptedCardId, RFIDService.normalizeCardId.
  destruct raw as [|c raw]; simpl; [discriminate |].
  set (n := JS.padStart _ _ _).
  destruct (JS.truthy_str n && RFIDService.isValidCardId n) eqn:E; [|discriminate].
  intros [= <-]. apply andb_true_iff in E as [_ E]. repeat split; [discriminate | exact E].
Qed.

Lemma isValidCardId_inv (id : string) :
  RFIDService.isValidCardId id = true ->
  id <> "" /\ JS.all_chars JS.is_digit id = true
  /\ (8 <= String.length id <= 12)%nat.
Proof.
  unfold RFIDService.isValidCardId.
  destruct (JS.truthy_str id) eqn:Ht; simpl; [|discriminate].
  destruct (JS.all_chars JS.is_digit id) eqn:Hd; simpl; [|discriminate].
  destruct (String.length id <? 8)%nat eqn:H8; simpl; [discriminate |].
  destruct (12 <? String.length id)%nat eqn:H12; simpl; [discriminate |].
  intros _. apply Nat.ltb_ge in H8, H12.
  repeat split; try lia. intros ->. discriminate.
Qed.

(** X1: an identifier accepted by the reader service is a fixed point of
    the normalizer: normalizing it again gives the same identifier, and the
    guard of the two entries accepts it again as it is. *)
Theorem accepted_card_is_normal_form (raw id : string) :
  RFIDService.acceptedCardId raw = Some id ->
  RFIDService.normalizeCardId id = Some id
  /\ RFIDService.acceptedCardId id = Some id.
Proof.
  intros H. destruct (acceptedCardId_inv _ _ H) as (Hraw & Hid & Hv).
  destruct (isValidCardId_inv _ Hv) as (Hne & Hd & Hlen).
  assert (Hlen10 : (10 <= String.length id)%nat).
  { rewrite Hid, length_padStart. lia. }
  assert (Hn : RFIDService.normalizeCardId id = Some id).
  { unfold RFIDService.normalizeCardId.
    destruct id as [|c r]; [congruence |].
    cbn [JS.truthy_str negb]. cbv zeta.
    rewrite (filter_chars_all _ _ Hd), padStart_long by exact Hlen10. reflexivity. }
  split; [exact Hn |].
  unfold RFIDService.acceptedCardId. rewrite Hn, Hv.
  destruct id; [congruence | reflexivity].
Qed.

Lemma accepted_card_is_normal_form_witness :
  RFIDService.normalizeCardId "0012345678" = Some "0012345678"
  /\ RFIDService.acceptedCardId "0012345678" = Some "0012345678".
Proof.
  apply (accepted_card_is_normal_form "12-34 5678" "0012345678"). reflexivity.
Defined.

(** the clean-up of the reader service *)
Lemma cleanup_lookup (t0 : Z) (s : RFIDService.t) (c : string) :
  RFIDService.lastScans (RFIDService.cleanupOldScans t0 s) !! c
  = match RFIDService.lastScans s !! c with
    | Some ts => if 86400000 <? t0 - ts then None else Some ts
    | None => None
    end.
Proof.
  unfold RFIDService.cleanupOldScans, RFIDService.set_lastScans. simpl.
  rewrite map_lookup_filter.
  destruct (RFIDService.lastScans s !! c) as [ts|]; simpl; [|reflexivity].
  change (24 * 60 * 60 * 1000) with 86400000.
  destruct (86400000 <? t0 - ts); case_guard; simplify_eq/=; reflexivity.
Qed.

(** X3: the hourly clean-up never lets a duplicate through: when the
    window is at most the maximal age of 24 hours, a scan at or after the
    clean-up is answered with the same events as without clean-up; and the
    clean-up keeps exactly the instants that are at most 24 hours old. *)
Theorem cleanup_keeps_suppression (s : RFIDService.t) (cardId : string) (t0 now : Z) :
  RFIDService.minScanInterval s <= 86400000 ->
  t0 <= now ->
  (RFIDService.processRFIDScan now cardId (RFIDService.cleanupOldScans t0 s)).2
  = (RFIDService.processRFIDScan now cardId s).2
  /\ (forall c ts,
        RFIDService.lastScans (RFIDService.cleanupOldScans t0 s) !! c = Some ts
        <-> RFIDService.lastScans s !! c = Some ts /\ t0 - ts <= 86400000).
Proof.
  intros Hw Hle. split.
  - unfold RFIDService.processRFIDScan. rewrite cleanup_lookup.
    destruct (RFIDService.lastScans s !! cardId) as [ts|]; [|reflexivity].
    destruct (86400000 <? t0 - ts) eqn:E.
    + apply Z.ltb_lt in E.
      replace (now - ts <? RFIDService.minScanInterval s) with false
        by (symmetry; apply Z.ltb_ge; lia).
      rewrite andb_false_r. reflexivity.
    + simpl. destruct (JS.truthy_num ts && _); reflexivity.
  - intros c ts. rewrite cleanup_lookup.
    destruct (RFIDService.lastScans s !! c) as [ts'|].
    + destruct (86400000 <? t0 - ts') eqn:E.
      * apply Z.ltb_lt in E. split; [discriminate |]. intros [[= ->] H]. lia.
      * apply Z.ltb_ge in E. split; [intros [= ->]; split; [reflexivity | lia] | now intros [? _]].
    + split; [discriminate | now intros [? _]].
Qed.

Lemma cleanup_keeps_suppression_witness :
  let s := (RFIDService.processRFIDScan 1000 "0000000001" RFIDService.constructor).1 in
  (RFIDService.processRFIDScan 3000 "0000000001" (RFIDService.cleanupOldScans 2000 s)).2
  = [RFIDService.Spam "0000000001" 2000].
Proof.
  cbv zeta.
  pose proof (cleanup_keeps_suppression
                (RFIDService.processRFIDScan 1000 "0000000001" RFIDService.constructor).1
                "0000000001" 2000 3000) as H.
  destruct H as [H _]; [vm_compute; discriminate | lia |].
  rewrite H. vm_compute. reflexivity.
Defined.

(** strings: reversal and trimming against a filter *)
Lemma append_nil_r (s : string) : s +:+ "" = s.
Proof.
  induction s as [|c s IH]; [reflexivity |].
  change (String c s +:+ "") with (String c (s +:+ "")). now rewrite IH.
Qed.

Lemma rev_app_rev_app (s a b : string) :
  String.rev_app (String.rev_app s a) b = String.rev_app a (s +:+ b).
Proof.
  revert a b. induction s as [|c s IH]; intros a b; [reflexivity |].
  change (String.rev_app (String.rev_app s (String c a)) b
          = String.rev_app a (String c (s +:+ b))).
  rewrite IH. reflexivity.
Qed.

Lemma rev_involutive (s : string) : String.rev (String.rev s) = s.
Proof.
  unfold String.rev. rewrite rev_app_rev_app. cbn [String.rev_app].
  apply append_nil_r.
Qed.

Lemma filter_chars_rev_app (p : ascii -> bool) (s a : string) :
  JS.filter_chars p (String.rev_app s a)
  = String.rev_app (JS.filter_chars p s) (JS.filter_chars p a).
Proof.
  revert a. induction s as [|c s IH]; intros a; simpl; [reflexivity |].
  rewrite IH. simpl. destruct (p c); reflexivity.
Qed.

Lemma filter_chars_rev (p : ascii -> bool) (s : string) :
  JS.filter_chars p (String.rev s) = String.rev (JS.filter_chars p s).
Proof. unfold String.rev. now rewrite filter_chars_rev_app. Qed.

Lemma filter_chars_trimStart (p : ascii -> bool) (s : string) :
  (forall c, JS.is_space c = true -> p c = false) ->
  JS.filter_chars p (JS.trimStart s) = JS.filter_chars p s.
Proof.
  intros Hp. induction s as [|c s IH]; simpl; [reflexivity |].
  destruct (JS.is_space c) eqn:E; [|reflexivity].
  rewrite (Hp _ E). exact IH.
Qed.

Lemma filter_chars_trim (p : ascii -> bool) (s : string) :
  (forall c, JS.is_space c = true -> p c = false) ->
  JS.filter_chars p (JS.trim s) = JS.filter_chars p s.
Proof.
  intros Hp. unfold JS.trim.
  rewrite filter_chars_rev, filter_chars_trimStart, filter_chars_rev,
    rev_involutive, filter_chars_trimStart by exact Hp.
  reflexivity.
Qed.

Lemma space_not_digit (c : ascii) : JS.is_space c = true -> JS.is_digit c = false.
Proof.
  unfold JS.is_space, JS.is_digit. generalize (JS.code c). intros n H.
  destruct (48 <=? n)%N eqn:A, (n <=? 57)%N eqn:B; try reflexivity.
  apply N.leb_le in A, B.
  apply orb_true_iff in H as [H|H]; [apply orb_true_iff in H as [H|H] |].
  - apply andb_true_iff in H as [_ H]. apply N.leb_le in H. lia.
  - apply N.eqb_eq in H. lia.
  - apply N.eqb_eq in H. lia.
Qed.

(** X2: for data that is not blank, the serial line ([handleRFIDData],
    which trims) and the manual entry ([processManualScan], which does not)
    accept the same identifier and leave the service in the same state with
    the same events. *)
Theorem serial_and_manual_agree (now : Z) (data : string) (s : RFIDService.t) :
  JS.trim data <> "" ->
  RFIDService.acceptedCardId (JS.trim data) = RFIDService.acceptedCardId data
  /\ RFIDService.handleRFIDData now data s
     = ((RFIDService.processManualScan now data s).1.2,
        (RFIDService.processManualScan now data s).2).
Proof.
  intros Ht.
  assert (Hd : data <> "") by (intros ->; apply Ht; reflexivity).
  assert (Ha : RFIDService.acceptedCardId (JS.trim data)
               = RFIDService.acceptedCardId data).
  { unfold RFIDService.acceptedCardId, RFIDService.normalizeCardId.
    rewrite (filter_chars_trim _ data space_not_digit).
    destruct (JS.trim data) eqn:E1; [congruence |].
    destruct data; [congruence | reflexivity]. }
  split; [exact Ha |].
  unfold RFIDService.handleRFIDData, RFIDService.processManualScan. rewrite Ha.
  destruct (RFIDService.acceptedCardId data); [|reflexivity].
  destruct (RFIDService.processRFIDScan now s0 s). reflexivity.
Qed.

Lemma serial_and_manual_agree_witness :
  RFIDService.acceptedCardId (JS.trim " 12345678 ")
  = RFIDService.acceptedCardId " 12345678 ".
Proof.
  apply (serial_and_manual_agree 0 " 12345678 " RFIDService.constructor).
  vm_compute. discriminate.
Defined.

(** ** The model class: writes, look-ups and reports *)

(** X4: a successful [recordAttendance] appends one row under a key that
    no earlier row carries and returns the object that [findById] reads back
    under that key; keys stay unique and every other key reads as before. *)
Theorem record_and_read_back (d : AttendanceData.t) (tbl tbl' : list Entry.t)
        (a : Attendance.t) :
  Attendance.recordAttendance d tbl = Some (a, tbl') ->
  exists r,
    tbl' = tbl ++ [r]
    /\ a = Attendance.constructor r
    /\ Attendance.findById (Attendance.id a) tbl' = Some a
    /\ (forall r0, r0 ∈ tbl -> Entry.id r0 <> Entry.id r)
    /\ (NoDup (Entry.id <$> tbl) -> NoDup (Entry.id <$> tbl'))
    /\ (forall i, i <> Entry.id r ->
          Attendance.findById i tbl' = Attendance.findById i tbl).
Proof.
  unfold Attendance.recordAttendance.
  destruct (Attendance.sanitize (Some (AttendanceData.userId d))) as [u|]; [|discriminate].
  destruct (Attendance.sanitize (Some (AttendanceData.rfidCard d))) as [c|]; [|discriminate].
  intros [= <- <-].
  eexists. split; [reflexivity |]. split; [reflexivity |].
  assert (Hfresh : forall r0 : Entry.t, r0 ∈ tbl -> Entry.id r0 <> Attendance.insertId tbl).
  { intros r0 Hin. pose proof (insertId_fresh tbl r0 Hin). lia. }
  repeat split.
  - apply findById_inserted. reflexivity.
  - exact Hfresh.
  - intros Hnd. rewrite fmap_app. apply NoDup_app. repeat split.
    + exact Hnd.
    + intros i Hi Hi'. apply list_elem_of_fmap in Hi as (r0 & -> & Hr0).
      apply list_elem_of_singleton in Hi'. simpl in Hi'. exact (Hfresh _ Hr0 Hi').
    + simpl. apply NoDup_singleton.
  - intros i Hi. unfold Attendance.findById. rewrite filter_app.
    rewrite (filter_cons _ _ []), decide_False by (simpl in *; congruence).
    rewrite filter_nil, app_nil_r. reflexivity.
Qed.

Lemma record_and_read_back_witness :
  exists a tbl', Attendance.recordAttendance
    (Staff.office_record 100 (plain_scan "U1" "0000000001" None) "0000000001" check_in) []
    = Some (a, tbl')
    /\ Attendance.findById (Attendance.id a) tbl' = Some a.
Proof.
  eexists _, _. split; [reflexivity |].
  destruct (record_and_read_back
              (Staff.office_record 100 (plain_scan "U1" "0000000001" None)
                 "0000000001" check_in) [] _ _ eq_refl)
    as (r & _ & _ & H & _).
  exact H.
Defined.

(** the latest row of a list *)
Lemma latest_greatest (rows : list Entry.t) :
  match Attendance.latest rows with
  | Some r => r ∈ rows
              /\ forall r', r' ∈ rows -> Entry.scan_time r' <= Entry.scan_time r
  | None => rows = []
  end.
Proof.
  induction rows as [|x rows IH]; simpl; [reflexivity |].
  destruct (Attendance.latest rows) as [r|].
  - destruct IH as [Hin Hmax].
    destruct (Entry.scan_time x <? Entry.scan_time r) eqn:E.
    + apply Z.ltb_lt in E. split; [now right |].
      intros r' [->|H]%elem_of_cons; [lia | now apply Hmax].
    + apply Z.ltb_ge in E. split; [now left |].
      intros r' [->|H]%elem_of_cons; [lia | specialize (Hmax _ H); lia].
  - subst rows. split; [now left |].
    intros r' [->|H]%elem_of_cons; [lia | inversion H].
Qed.

(** X5: [getLastScanForUser] answers with a valid record of the user (of
    the date, when one is given) that no other such record follows in time,
    and with nothing exactly when the table has no such record. *)
Theorem last_scan_is_latest_in_scope (userId : string) (date : option Z)
        (tbl : list Entry.t) :
  match Attendance.getLastScanForUser userId date tbl with
  | Some a =>
      exists r, r ∈ tbl /\ a = Attendance.constructor r
                /\ in_scope userId date r
                /\ forall r', r' ∈ tbl -> in_scope userId date r' ->
                     Entry.scan_time r' <= Entry.scan_time r
  | None => forall r', r' ∈ tbl -> ~ in_scope userId date r'
  end.
Proof.
  unfold Attendance.getLastScanForUser, in_scope.
  destruct date as [d|].
  - match goal with |- context [Attendance.latest ?l] =>
      pose proof (latest_greatest l) as H; destruct (Attendance.latest l) as [r|] end;
      simpl.
    + destruct H as [Hin Hmax].
      apply list_elem_of_filter in Hin as [Hd Hin].
      apply list_elem_of_filter in Hin as [[Hu Hv] Hin].
      exists r. repeat split; try assumption.
      intros r' Hr' (Hu' & Hv' & Hd'). apply Hmax.
      apply list_elem_of_filter. split; [exact Hd' |].
      apply list_elem_of_filter. auto.
    + intros r' Hr' (Hu' & Hv' & Hd').
      assert (Hx : r' ∈ @nil Entry.t); [|inversion Hx].
      rewrite <- H. apply list_elem_of_filter. split; [exact Hd' |].
      apply list_elem_of_filter. auto.
  - match goal with |- context [Attendance.latest ?l] =>
      pose proof (latest_greatest l) as H; destruct (Attendance.latest l) as [r|] end;
      simpl.
    + destruct H as [Hin Hmax].
      apply list_elem_of_filter in Hin as [[Hu Hv] Hin].
      exists r. repeat split; try assumption.
      intros r' Hr' (Hu' & Hv' & _). apply Hmax.
      apply list_elem_of_filter. auto.
    + intros r' Hr' (Hu' & Hv' & _).
      assert (Hx : r' ∈ @nil Entry.t); [|inversion Hx].
      rewrite <- H. apply list_elem_of_filter. auto.
Qed.

#[local] Instance not_before_total : Total Attendance.not_before.
Proof. intros a b. unfold Attendance.not_before. lia. Qed.

#[local] Instance not_before_trans : Transitive Attendance.not_before.
Proof. intros a b c. unfold Attendance.not_before. lia. Qed.

#[local] Instance not_after_total : Total Attendance.not_after.
Proof. intros a b. unfold Attendance.not_after. lia. Qed.

#[local] Instance not_after_trans : Transitive Attendance.not_after.
Proof. intros a b c. unfold Attendance.not_after. lia. Qed.

(** X6: [findByDateRange] returns the records of the range (of the user,
    when one is given) from the latest to the earliest, and
    [findByUserAndDate] the records of the user and day from the earliest to
    the latest: each result is a permutation of the selected rows. *)
Theorem range_scan_sorted_selection (startDate endDate : Z) (userId : option string)
        (user : string) (date : Z) (tbl : list Entry.t) :
  let range := Attendance.findByDateRange startDate endDate userId tbl in
  let day := Attendance.findByUserAndDate user date tbl in
  StronglySorted (fun a b => Attendance.scanTime b <= Attendance.scanTime a) range
  /\ range ≡ₚ
     Attendance.constructor <$>
       filter (fun r => startDate <= Entry.scan_date r <= endDate
                        /\ (JS.truthy_ostr userId = true ->
                            Some (Entry.user_id r) = userId)) tbl
  /\ StronglySorted (fun a b => Attendance.scanTime a <= Attendance.scanTime b) day
  /\ day ≡ₚ
     Attendance.constructor <$>
       filter (fun r => Entry.user_id r = user /\ Entry.scan_date r = date) tbl.
Proof.
  cbv zeta. unfold Attendance.findByDateRange, Attendance.findByUserAndDate,
    Attendance.by_scan_time_desc, Attendance.by_scan_time_asc.
  repeat split.
  - apply (StronglySorted_fmap _ Attendance.not_before); [intros x y H; exact H |].
    apply StronglySorted_merge_sort; apply _.
  - apply fmap_Permutation. rewrite merge_sort_Permutation.
    assert (Hb : forall r, Attendance.between startDate endDate (Entry.scan_date r) = true
                           <-> startDate <= Entry.scan_date r <= endDate).
    { intros r. unfold Attendance.between. rewrite andb_true_iff, !Z.leb_le. reflexivity. }
    destruct (JS.truthy_ostr userId) eqn:E.
    + rewrite list_filter_filter. erewrite list_filter_iff; [reflexivity |].
      intros r. simpl. rewrite Hb. tauto.
    + erewrite list_filter_iff; [reflexivity |]. intros r. simpl. rewrite Hb.
      split; [intros H; split; [exact H | discriminate] | tauto].
  - apply (StronglySorted_fmap _ Attendance.not_after); [intros x y H; exact H |].
    apply StronglySorted_merge_sort; apply _.
  - apply fmap_Permutation. apply merge_sort_Permutation.
Qed.

(** voiding against deleting *)
Lemma valid_rows_void (i : nat) (nt : option string) (tbl : list Entry.t) :
  valid_rows (Attendance.updateStatus i voided nt tbl)
  = valid_rows (Attendance.delete i tbl).
Proof.
  unfold valid_rows, Attendance.updateStatus, Attendance.delete.
  induction tbl as [|r tbl IH]; [reflexivity |].
  cbn [map]. rewrite !filter_cons.
  destruct (Nat.eqb (Entry.id r) i) eqn:E.
  - apply Nat.eqb_eq in E.
    rewrite decide_False by (simpl; discriminate).
    rewrite (decide_False (P := Entry.id r <> i)) by tauto. exact IH.
  - apply Nat.eqb_neq in E.
    rewrite (decide_True (P := Entry.id r <> i)) by exact E.
    rewrite filter_cons. destruct (decide (Entry.status r = valid)); now rewrite IH.
Qed.

Lemma getAttendanceStats_valid_rows (s e : Z) (tbl : list Entry.t) :
  Attendance.getAttendanceStats s e (valid_rows tbl)
  = Attendance.getAttendanceStats s e tbl.
Proof.
  unfold Attendance.getAttendanceStats. now rewrite valid_in_range_valid_rows.
Qed.

Lemma getUserAttendanceReport_valid_rows (u : string) (s e : Z) (tbl : list Entry.t) :
  Attendance.getUserAttendanceReport u s e (valid_rows tbl)
  = Attendance.getUserAttendanceReport u s e tbl.
Proof.
  unfold Attendance.getUserAttendanceReport. now rewrite valid_in_range_valid_rows.
Qed.

(** X7: voiding a record with [updateStatus] keeps every row and key of
    the table, and the last-scan look-up, the statistics and the daily report
    then answer as if the record had been removed with [delete]. *)
Theorem voiding_hides_like_deleting (i : nat) (nt : option string)
        (userId : string) (date : option Z) (startDate endDate : Z)
        (tbl : list Entry.t) :
  let voided_tbl := Attendance.updateStatus i voided nt tbl in
  let deleted_tbl := Attendance.delete i tbl in
  Entry.id <$> voided_tbl = Entry.id <$> tbl
  /\ Attendance.getLastScanForUser userId date voided_tbl
     = Attendance.getLastScanForUser userId date deleted_tbl
  /\ Attendance.getAttendanceStats startDate endDate voided_tbl
     = Attendance.getAttendanceStats startDate endDate deleted_tbl
  /\ Attendance.getUserAttendanceReport userId startDate endDate voided_tbl
     = Attendance.getUserAttendanceReport userId startDate endDate deleted_tbl.
Proof.
  cbv zeta. repeat split.
  - unfold Attendance.updateStatus. induction tbl as [|r tbl IH]; [reflexivity |].
    cbn [map fmap list_fmap]. f_equal; [|exact IH].
    destruct (Nat.eqb (Entry.id r) i); reflexivity.
  - rewrite <- getLastScanForUser_valid_rows, valid_rows_void.
    apply getLastScanForUser_valid_rows.
  - rewrite <- getAttendanceStats_valid_rows, valid_rows_void.
    apply getAttendanceStats_valid_rows.
  - rewrite <- getUserAttendanceReport_valid_rows, valid_rows_void.
    apply getUserAttendanceReport_valid_rows.
Qed.

(** ** Grouped counts *)

Lemma snd_group_pairs {K} (f : K -> nat) (ks : list K) :
  snd <$> map (fun k => (k, f k)) ks = f <$> ks.
Proof. induction ks as [|k ks IH]; simpl; [reflexivity | f_equal; exact IH]. Qed.

Lemma count_where_cons {A} (p : A -> bool) (x : A) (l : list A) :
  Attendance.count_where p (x :: l)
  = ((if p x then 1 else 0) + Attendance.count_where p l)%nat.
Proof. unfold Attendance.count_where. simpl. destruct (p x); reflexivity. Qed.

Lemma group_counts_cover {A K} `{EqDecision K} (key : A -> K) (eqb : K -> K -> bool)
      (l : list A) (ks : list K) :
  (forall a b, eqb a b = true <-> a = b) ->
  NoDup ks ->
  sum_list ((fun k => Attendance.count_where (fun r => eqb (key r) k) l) <$> ks)
  = length (filter (fun r => key r ∈ ks) l).
Proof.
  intros Heqb Hnd. induction Hnd as [|k ks Hk Hnd IH].
  - simpl. rewrite filter_none; [reflexivity |]. intros x _ H. inversion H.
  - cbn [fmap list_fmap sum_list sum_list_with]. rewrite IH. clear IH.
    induction l as [|x l IHl]; [reflexivity |].
    rewrite count_where_cons, !filter_cons.
    destruct (eqb (key x) k) eqn:E.
    + apply Heqb in E.
      rewrite (decide_True (P := key x ∈ k :: ks)) by (rewrite E; now left).
      rewrite (decide_False (P := key x ∈ ks)) by (rewrite E; exact Hk).
      simpl. simpl in IHl. lia.
    + assert (Hne : key x <> k).
      { intros H. apply Heqb in H. congruence. }
      destruct (decide (key x ∈ ks)) as [Hin|Hnin].
      * rewrite (decide_True (P := key x ∈ k :: ks)) by now right.
        simpl. simpl in IHl. lia.
      * rewrite (decide_False (P := key x ∈ k :: ks)).
        -- simpl. simpl in IHl. lia.
        -- intros [H|H]%elem_of_cons; tauto.
Qed.

Lemma group_counts_total {A K} `{EqDecision K} (key : A -> K) (eqb : K -> K -> bool)
      (l : list A) (ks : list K) :
  (forall a b, eqb a b = true <-> a = b) ->
  NoDup ks -> (forall x, x ∈ l -> key x ∈ ks) ->
  sum_list ((fun k => Attendance.count_where (fun r => eqb (key r) k) l) <$> ks)
  = length l.
Proof.
  intros Heqb Hnd Hall. rewrite (group_counts_cover key eqb l ks Heqb Hnd).
  f_equal. induction l as [|x l IH]; [reflexivity |].
  rewrite filter_cons, decide_True by (apply Hall; now left).
  f_equal. apply IH. intros y Hy. apply Hall. now right.
Qed.

Lemma action_eqb_iff (a b : action) : action_eqb a b = true <-> a = b.
Proof. destruct a, b; simpl; split; congruence. Qed.

Lemma count_where_positive {A} (p : A -> bool) (l : list A) (x : A) :
  x ∈ l -> p x = true -> (0 < Attendance.count_where p l)%nat.
Proof.
  intros Hin Hp. induction Hin as [x l|x y l Hin IH].
  - rewrite count_where_cons, Hp. lia.
  - rewrite count_where_cons. specialize (IH Hp). lia.
Qed.

Lemma length_remove_dups_le {A} `{EqDecision A} (l : list A) :
  (length (remove_dups l) <= length l)%nat.
Proof.
  induction l as [|x l IH]; simpl; [lia |].
  destruct (decide_rel elem_of x l); simpl; lia.
Qed.

(** [GROUP BY scan_date ORDER BY scan_date]: the dates of the groups *)
Lemma group_dates_increasing (l : list Z) :
  StronglySorted Z.lt (merge_sort Z.le (remove_dups l)).
Proof.
  assert (Hs : StronglySorted Z.le (merge_sort Z.le (remove_dups l))).
  { apply StronglySorted_merge_sort; [apply _ | intros x y; lia]. }
  assert (Hnd : NoDup (merge_sort Z.le (remove_dups l))).
  { rewrite merge_sort_Permutation. apply NoDup_remove_dups. }
  revert Hs Hnd. generalize (merge_sort Z.le (remove_dups l)).
  intros k Hs. induction Hs as [|x k Hs IH Hx]; intros Hnd; constructor.
  - apply IH. now apply NoDup_cons in Hnd as [_ ?].
  - apply NoDup_cons in Hnd as [Hx' _].
    apply Forall_forall. intros y Hy.
    pose proof (proj1 (Forall_forall _ _) Hx y Hy) as Hle.
    assert (x <> y) by (intros ->; tauto). lia.
Qed.

(** X8: in the answer of [getAttendanceStats] the counts per action and
    the counts per day both add up to the total, no group is empty, the users
    are at most as many as the records, and the days are inside the range
    and strictly increasing. *)
Theorem stats_counts_add_up (startDate endDate : Z) (tbl : list Entry.t) :
  let st := Attendance.getAttendanceStats startDate endDate tbl in
  sum_list (snd <$> Attendance.actionTypeStats st) = Attendance.totalRecords st
  /\ sum_list (snd <$> Attendance.dailyStats st) = Attendance.totalRecords st
  /\ (Attendance.uniqueUsers st <= Attendance.totalRecords st)%nat
  /\ Forall (fun g => (0 < g.2)%nat) (Attendance.actionTypeStats st)
  /\ Forall (fun g => (0 < g.2)%nat /\ startDate <= g.1 <= endDate)
            (Attendance.dailyStats st)
  /\ StronglySorted Z.lt (fst <$> Attendance.dailyStats st).
Proof.
  cbv zeta. unfold Attendance.getAttendanceStats. simpl.
  set (rows := Attendance.valid_in_range startDate endDate tbl).
  assert (Hperm : merge_sort Z.le (remove_dups (map Entry.scan_date rows))
                  ≡ₚ remove_dups (map Entry.scan_date rows))
    by apply merge_sort_Permutation.
  assert (Hin_day : forall d, d ∈ merge_sort Z.le (remove_dups (map Entry.scan_date rows))
                    -> exists r, r ∈ rows /\ Entry.scan_date r = d).
  { intros d Hd. rewrite Hperm, elem_of_remove_dups, list_elem_of_In in Hd.
    apply in_map_iff in Hd as (r & Hr & Hin).
    exists r. split; [now apply list_elem_of_In | exact Hr]. }
  repeat split.
  - rewrite snd_group_pairs.
    apply (group_counts_total Entry.action_type action_eqb rows _ action_eqb_iff).
    + apply NoDup_remove_dups.
    + intros x Hx. rewrite elem_of_remove_dups, list_elem_of_In.
      apply in_map. now apply list_elem_of_In.
  - rewrite snd_group_pairs.
    apply (group_counts_total Entry.scan_date Z.eqb rows _ Z.eqb_eq).
    + rewrite Hperm. apply NoDup_remove_dups.
    + intros x Hx. rewrite Hperm, elem_of_remove_dups, list_elem_of_In.
      apply in_map. now apply list_elem_of_In.
  - etransitivity; [apply length_remove_dups_le |]. now rewrite length_map.
  - apply Forall_forall. intros g Hg.
    rewrite list_elem_of_In in Hg. apply in_map_iff in Hg as (a & <- & Ha). simpl.
    rewrite <- list_elem_of_In, elem_of_remove_dups, list_elem_of_In in Ha.
    apply in_map_iff in Ha as (r & Hr & Hin).
    apply (count_where_positive _ _ r); [now apply list_elem_of_In |].
    rewrite Hr. apply action_eqb_refl.
  - apply Forall_forall. intros g Hg.
    rewrite list_elem_of_In in Hg. apply in_map_iff in Hg as (d & <- & Hd). simpl.
    rewrite <- list_elem_of_In in Hd. apply Hin_day in Hd as (r & Hr & <-).
    split.
    + apply (count_where_positive _ _ r); [exact Hr | apply Z.eqb_refl].
    + unfold rows, Attendance.valid_in_range in Hr.
      apply list_elem_of_filter in Hr as [[Hb _] _].
      unfold Attendance.between in Hb.
      apply andb_true_iff in Hb as [H1 H2]. apply Z.leb_le in H1, H2. lia.
  - match goal with |- StronglySorted _ (fst <$> map ?f ?l) =>
      assert (Hfst : fst <$> map f l = l) end.
    { generalize (merge_sort Z.le (remove_dups (map Entry.scan_date rows))).
      intros l. induction l as [|x l IH]; simpl; [reflexivity | f_equal; exact IH]. }
    rewrite Hfst. apply group_dates_increasing.
Qed.

Lemma sql_min_spec (l : list Z) :
  match Attendance.sql_min l with
  | Some m => m ∈ l /\ Forall (fun x => m <= x) l
  | None => l = []
  end.
Proof.
  destruct l as [|x l]; simpl; [reflexivity |].
  assert (H : foldr Z.min x l ∈ x :: l /\ Forall (fun y => foldr Z.min x l <= y) l
              /\ foldr Z.min x l <= x).
  { induction l as [|y l IH]; simpl.
    - repeat split; [now left | constructor | lia].
    - destruct IH as (Hin & Hall & Hx).
      repeat split.
      + destruct (Z.min_spec y (foldr Z.min x l)) as [[_ ->]|[_ ->]].
        * right. now left.
        * apply elem_of_cons in Hin as [->|Hin]; [now left | right; now right].
      + constructor; [lia |]. eapply Forall_impl; [exact Hall |]. simpl. lia.
      + lia. }
  destruct H as (Hin & Hall & Hx). split; [exact Hin |]. constructor; assumption.
Qed.

Lemma sql_max_spec (l : list Z) :
  match Attendance.sql_max l with
  | Some m => m ∈ l /\ Forall (fun x => x <= m) l
  | None => l = []
  end.
Proof.
  destruct l as [|x l]; simpl; [reflexivity |].
  assert (H : foldr Z.max x l ∈ x :: l /\ Forall (fun y => y <= foldr Z.max x l) l
              /\ x <= foldr Z.max x l).
  { induction l as [|y l IH]; simpl.
    - repeat split; [now left | constructor | lia].
    - destruct IH as (Hin & Hall & Hx).
      repeat split.
      + destruct (Z.max_spec y (foldr Z.max x l)) as [[_ ->]|[_ ->]].
        * apply elem_of_cons in Hin as [->|Hin]; [now left | right; now right].
        * right. now left.
      + constructor; [lia |]. eapply Forall_impl; [exact Hall |]. simpl. lia.
      + lia. }
  destruct H as (Hin & Hall & Hx). split; [exact Hin |]. constructor; assumption.
Qed.

Lemma report_rows_iff (userId : string) (s e : Z) (tbl : list Entry.t) (r : Entry.t) :
  r ∈ filter (fun r => Entry.user_id r = userId) (Attendance.valid_in_range s e tbl)
  <-> r ∈ day_rows userId (Entry.scan_date r) tbl /\ s <= Entry.scan_date r <= e.
Proof.
  unfold Attendance.valid_in_range, day_rows, Attendance.between.
  rewrite !list_elem_of_filter, andb_true_iff, !Z.leb_le. tauto.
Qed.

Lemma report_times (userId : string) (s e d : Z) (a : action) (tbl : list Entry.t) :
  s <= d <= e ->
  map Entry.scan_time
      (List.filter (fun r => (Entry.scan_date r =? d) && action_eqb (Entry.action_type r) a)
         (filter (fun r => Entry.user_id r = userId)
                 (Attendance.valid_in_range s e tbl)))
  = day_times a userId d tbl.
Proof.
  intros Hd. unfold day_times, day_rows, Attendance.valid_in_range, Attendance.between.
  induction tbl as [|r tbl IH]; [reflexivity |].
  rewrite !filter_cons.
  destruct (decide (Entry.user_id r = userId ∧ Entry.scan_date r = d
                    ∧ Entry.status r = valid)) as [(Hu & Hdt & Hv)|Hn].
  - rewrite decide_True.
    2:{ split; [|exact Hv]. apply andb_true_iff. rewrite !Z.leb_le. lia. }
    rewrite filter_cons, (decide_True (P := Entry.user_id r = userId)) by exact Hu.
    cbn [List.filter]. rewrite (proj2 (Z.eqb_eq _ _) Hdt). cbn [andb].
    rewrite filter_cons.
    destruct (action_eqb (Entry.action_type r) a) eqn:Ea.
    + apply action_eqb_iff in Ea. rewrite decide_True by exact Ea.
      cbn [map fmap list_fmap]. f_equal. exact IH.
    + rewrite decide_False; [exact IH |].
      intros H. apply action_eqb_iff in H. congruence.
  - destruct (decide ((s <=? Entry.scan_date r) && (Entry.scan_date r <=? e) = true
                      ∧ Entry.status r = valid)) as [[Hb Hv]|Hb]; [|exact IH].
    rewrite filter_cons.
    destruct (decide (Entry.user_id r = userId)) as [Hu|Hu]; [|exact IH].
    cbn [List.filter].
    destruct (Z.eqb_spec (Entry.scan_date r) d) as [Hdt|Hdt]; [tauto |].
    cbn [andb]. exact IH.
Qed.

Lemma length_by_action (l : list Entry.t) :
  (length (filter (fun r => Entry.action_type r = check_in) l)
   + length (filter (fun r => Entry.action_type r = check_out) l))%nat
  = length l.
Proof.
  induction l as [|r l IH]; [reflexivity |].
  rewrite !filter_cons. destruct (Entry.action_type r) eqn:E.
  - rewrite decide_True, decide_False by congruence. simpl. lia.
  - rewrite decide_False, decide_True by congruence. simpl. lia.
Qed.

(** X9: [getUserAttendanceReport] has one line per day of the range on
    which the user has a valid record, by increasing date; a line counts the
    entries and the exits of the day (together all its valid records), its
    first entry is the earliest entry and its last exit the latest exit, and
    each is absent exactly when the day has none. *)
Theorem report_lines_by_day (userId : string) (s e : Z) (tbl : list Entry.t) :
  let rep := Attendance.getUserAttendanceReport userId s e tbl in
  StronglySorted Z.lt (Attendance.line_scan_date <$> rep)
  /\ (forall d, d ∈ Attendance.line_scan_date <$> rep
                <-> s <= d <= e /\ day_rows userId d tbl <> [])
  /\ Forall (fun ln =>
       let d := Attendance.line_scan_date ln in
       Attendance.check_ins ln = length (day_times check_in userId d tbl)
       /\ Attendance.check_outs ln = length (day_times check_out userId d tbl)
       /\ (Attendance.check_ins ln + Attendance.check_outs ln)%nat
          = length (day_rows userId d tbl)
       /\ match Attendance.first_check_in ln with
          | Some t => t ∈ day_times check_in userId d tbl
                      /\ Forall (fun x => t <= x) (day_times check_in userId d tbl)
          | None => day_times check_in userId d tbl = []
          end
       /\ match Attendance.last_check_out ln with
          | Some t => t ∈ day_times check_out userId d tbl
                      /\ Forall (fun x => x <= t) (day_times check_out userId d tbl)
          | None => day_times check_out userId d tbl = []
          end) rep.
Proof.
  cbv zeta. unfold Attendance.getUserAttendanceReport.
  set (rows := filter (fun r => Entry.user_id r = userId)
                      (Attendance.valid_in_range s e tbl)).
  set (dates := merge_sort Z.le (remove_dups (map Entry.scan_date rows))).
  assert (Hdates : forall d, d ∈ dates <-> s <= d <= e /\ day_rows userId d tbl <> []).
  { intros d. unfold dates.
    rewrite merge_sort_Permutation, elem_of_remove_dups, list_elem_of_In, in_map_iff.
    split.
    - intros (r & <- & Hr). apply list_elem_of_In, report_rows_iff in Hr as [Hr Hd].
      split; [exact Hd |]. intros Hnil. rewrite Hnil in Hr. inversion Hr.
    - intros [Hd Hne]. destruct (day_rows userId d tbl) as [|r l] eqn:E; [congruence |].
      assert (Hr : r ∈ day_rows userId d tbl) by (rewrite E; now left).
      assert (Hdr : Entry.scan_date r = d).
      { unfold day_rows in Hr. apply list_elem_of_filter in Hr as [(_ & H & _) _].
        exact H. }
      exists r. split; [exact Hdr |]. apply list_elem_of_In, report_rows_iff.
      rewrite Hdr. split; assumption. }
  match goal with |- context [map ?f dates] =>
    assert (Hfst : Attendance.line_scan_date <$> map f dates = dates) end.
  { generalize dates. intros l.
    induction l as [|x l IH]; simpl; [reflexivity | f_equal; exact IH]. }
  split; [rewrite Hfst; apply group_dates_increasing |].
  split; [intros d; rewrite Hfst; apply Hdates |].
  apply Forall_forall. intros ln Hln.
  rewrite list_elem_of_In in Hln. apply in_map_iff in Hln as (d & <- & Hd).
  cbn [Attendance.line_scan_date Attendance.check_ins Attendance.check_outs
       Attendance.first_check_in Attendance.last_check_out].
  rewrite <- list_elem_of_In in Hd. apply Hdates in Hd as [Hd _].
  fold rows. rewrite !(report_times userId s e d _ tbl Hd).
  repeat split.
  - unfold day_times. rewrite !length_fmap. apply length_by_action.
  - apply sql_min_spec.
  - apply sql_max_spec.
Qed.

(** ** Day-scoped alternation on the staff route and on the socket handler *)

Lemma day_in_order_later (u : string) (day now later : Z) (tbl : list Entry.t) :
  now <= later -> day_in_order u day now tbl -> day_in_order u day later tbl.
Proof.
  intros Hle (Hs & Hb & Ha). repeat split; try assumption.
  eapply Forall_impl; [exact Hb |]. simpl. intros r Hr. lia.
Qed.

(** the action resolved from the latest record of the day *)
Lemma resolved_day_action (u : string) (day now : Z) (tbl : list Entry.t) :
  day_in_order u day now tbl ->
  match Attendance.getLastScanForUser u (Some day) tbl with
  | Some lastScan => toggle (Attendance.actionType lastScan)
  | None => check_in
  end
  = next_action check_in (Entry.action_type <$> day_rows u day tbl).
Proof.
  intros (Hs & _ & _).
  rewrite getLastScanForUser_day, (latest_of_increasing _ Hs).
  unfold next_action. rewrite fmap_last.
  destruct (last (day_rows u day tbl)); reflexivity.
Qed.

(** a record of the day written at [now] with the resolved action *)
Lemma day_append_step (u : string) (now : Z) (tbl : list Entry.t) (r : Entry.t) :
  day_in_order u (date_of now) now tbl ->
  Entry.user_id r = u -> Entry.scan_date r = date_of now ->
  Entry.status r = valid -> Entry.scan_time r = now ->
  Entry.action_type r
  = next_action check_in (Entry.action_type <$> day_rows u (date_of now) tbl) ->
  day_in_order u (date_of now) (now + 1) (tbl ++ [r]).
Proof.
  intros (Hs & Hb & Ha) Hu Hd Hv Ht Hact. unfold day_in_order, day_rows.
  rewrite filter_app, filter_cons, filter_nil, decide_True by tauto.
  fold (day_rows u (date_of now) tbl).
  split; [| split].
  - apply StronglySorted_app_2; [| assumption | repeat constructor].
    intros r1 r2 Hr1 Hr2. apply list_elem_of_singleton in Hr2. subst r2.
    rewrite Forall_forall in Hb. unfold earlier. rewrite Ht. now apply Hb.
  - apply Forall_app. split.
    + eapply Forall_impl; [exact Hb |]. simpl. intros r0 Hr0. lia.
    + repeat constructor. lia.
  - rewrite fmap_app. cbn [fmap list_fmap]. rewrite Hact. now apply alternates_snoc.
Qed.

Lemma sanitize_Some_inv (s u : string) :
  Attendance.sanitize (Some s) = Some u -> u = s.
Proof. destruct s; simpl; congruence. Qed.

(** the row written by [recordAttendance] *)
Lemma recordAttendance_row (d : AttendanceData.t) (tbl tbl' : list Entry.t)
      (a : Attendance.t) :
  Attendance.recordAttendance d tbl = Some (a, tbl') ->
  exists r, tbl' = tbl ++ [r]
            /\ Entry.user_id r = AttendanceData.userId d
            /\ Entry.scan_date r = AttendanceData.scanDate d
            /\ Entry.scan_time r = AttendanceData.scanTime d
            /\ Entry.action_type r = AttendanceData.actionType d
            /\ Entry.status r = default valid (AttendanceData.status d).
Proof.
  unfold Attendance.recordAttendance.
  destruct (Attendance.sanitize (Some (AttendanceData.userId d))) as [u|] eqn:Hu;
    [|discriminate].
  destruct (Attendance.sanitize (Some (AttendanceData.rfidCard d))) as [c|];
    [|discriminate].
  intros [= _ <-]. eexists. split; [reflexivity |].
  cbn. apply sanitize_Some_inv in Hu. auto.
Qed.

(** a record of another user leaves the day of the user as it is *)
Lemma day_append_other (u : string) (day now : Z) (tbl : list Entry.t) (r : Entry.t) :
  Entry.user_id r <> u ->
  day_in_order u day now tbl -> day_in_order u day now (tbl ++ [r]).
Proof.
  intros Hne Hinv. unfold day_in_order, day_rows in *.
  rewrite filter_app, filter_cons, filter_nil, decide_False, app_nil_r by tauto.
  exact Hinv.
Qed.

Lemma checkinwork_day_step (u : string) (now : Z) (req : scan_request)
      (tbl : list Entry.t) :
  day_in_order u (date_of now) now tbl ->
  day_in_order u (date_of now) (now + 1) (Staff.checkinwork now req tbl).2.
Proof.
  intros Hinv.
  assert (Hkeep : day_in_order u (date_of now) (now + 1) tbl)
    by (apply (day_in_order_later _ _ now); [lia | exact Hinv]).
  unfold Staff.checkinwork.
  destruct (rfid_card req) as [[|c0 card']|]; try exact Hkeep.
  set (card := String c0 card').
  destruct (Attendance.checkDuplicateScan _ _ _ _ _); [exact Hkeep |].
  destruct (Attendance.recordAttendance _ tbl) as [[att tbl']|] eqn:Hrec;
    [| exact Hkeep].
  cbn [snd]. apply recordAttendance_row in Hrec as (r & -> & Hu & Hd & Ht & Ha & Hv).
  cbn [AttendanceData.userId AttendanceData.scanDate AttendanceData.scanTime
       AttendanceData.actionType AttendanceData.status Staff.office_record
       default from_option] in Hu, Hd, Ht, Ha, Hv.
  destruct (decide (user_id (req_user req) = u)) as [<-|Hne].
  - apply day_append_step; try assumption.
    rewrite Ha. apply (resolved_day_action _ _ now). exact Hinv.
  - apply day_append_other; [congruence | exact Hkeep].
Qed.


(** steps that keep the day in order leave it alternating *)
Lemma steps_keep_day_in_order {I} (step : I -> list Entry.t -> list Entry.t)
      (time_of : I -> Z) (ok : I -> Prop) (u : string) (day : Z) :
  (forall i tbl, ok i -> date_of (time_of i) = day ->
                 day_in_order u day (time_of i) tbl ->
                 day_in_order u day (time_of i + 1) (step i tbl)) ->
  forall (scans : list I) (tbl : list Entry.t) (now0 : Z),
    Forall (fun i => ok i /\ date_of (time_of i) = day) scans ->
    StronglySorted (fun a b => time_of a < time_of b) scans ->
    Forall (fun i => now0 <= time_of i) scans ->
    day_in_order u day now0 tbl ->
    alternates check_in
      (day_actions u day (foldl (fun tbl i => step i tbl) tbl scans)) = true.
Proof.
  intros Hstep scans. induction scans as [|i scans IH]; intros tbl now0 Hok Hs Hn0 Hinv.
  - destruct Hinv as (_ & _ & Ha). exact Ha.
  - apply Forall_cons in Hok as [[Hi Hd] Hok].
    apply StronglySorted_inv in Hs as [Hs Hlt].
    apply Forall_cons in Hn0 as [Hn0 _].
    cbn [foldl]. apply (IH _ (time_of i + 1)); try assumption.
    + eapply Forall_impl; [exact Hlt |]. simpl. intros j Hj. lia.
    + apply Hstep; try assumption.
      apply (day_in_order_later _ _ now0); assumption.
Qed.

Lemma replay_foldl (route : Z -> scan_request -> list Entry.t -> response * list Entry.t)
      (scans : list (Z * scan_request)) (tbl : list Entry.t) :
  replay route scans tbl = foldl (fun tbl sc => (route sc.1 sc.2 tbl).2) tbl scans.
Proof.
  revert tbl. induction scans as [|[t req] scans IH]; intros tbl; [reflexivity |].
  simpl. apply IH.
Qed.

Lemma day_in_order_empty (u : string) (day now : Z) (tbl : list Entry.t) :
  day_rows u day tbl = [] -> day_in_order u day now tbl.
Proof. intros H. unfold day_in_order. rewrite H. repeat split; constructor. Qed.

Lemma times_bounded_below {I} (time_of : I -> Z) (scans : list I) :
  exists now0, Forall (fun i => now0 <= time_of i) scans.
Proof.
  induction scans as [|i l [n Hn]]; [exists 0; constructor |].
  exists (Z.min n (time_of i)). constructor; [lia |].
  eapply Forall_impl; [exact Hn |]. simpl. lia.
Qed.

(** X12: requests replayed on [POST /staff/checkinwork] at increasing
    instants of one day, by any users with any cards, on a table without
    earlier record of a user for that day, leave the records of that user and
    day alternating from the entry. *)
Theorem checkinwork_scans_alternate
        (userId : string) (day : Z) (scans : list (Z * scan_request))
        (tbl : list Entry.t) :
  Forall (fun sc => date_of sc.1 = day) scans ->
  StronglySorted (fun a b => a.1 < b.1) scans ->
  day_rows userId day tbl = [] ->
  alternates check_in
    (day_actions userId day (replay Staff.checkinwork scans tbl)) = true.
Proof.
  intros Hok Hs Hempty. rewrite replay_foldl.
  destruct (times_bounded_below fst scans) as [now0 Hmin].
  apply (steps_keep_day_in_order
           (fun sc tbl => (Staff.checkinwork sc.1 sc.2 tbl).2) fst
           (fun _ => True) userId day) with (now0 := now0);
    try assumption.
  - intros [t req] tbl0 _ Hd Hinv. cbn [fst snd] in *. subst day.
    now apply checkinwork_day_step.
  - eapply Forall_impl; [exact Hok |]. simpl. tauto.
  - now apply day_in_order_empty.
Qed.

Lemma checkinwork_scans_alternate_witness :
  alternates check_in
    (day_actions "U1" 0
       (replay Staff.checkinwork
          [(100, plain_scan "U1" "0000000001" None);
           (105, plain_scan "U2" "0000000002" None);
           (110, plain_scan "U1" "0000000001" None)] [])) = true.
Proof.
  apply checkinwork_scans_alternate.
  - repeat constructor.
  - repeat constructor; simpl; lia.
  - reflexivity.
Defined.



(** ** The pages of the attendance history *)

Lemma slice_range {A} (a b : Z) (l : list A) :
  0 <= a -> a <= b ->
  JS.slice a b l = take (Z.to_nat (b - a)) (drop (Z.to_nat a) l).
Proof.
  intros Ha Hb. unfold JS.slice.
  rewrite (proj2 (Z.ltb_ge a 0)), (proj2 (Z.ltb_ge b 0)) by lia.
  set (len := Z.of_nat (length l)).
  destruct (Z.le_gt_cases a len) as [Hle|Hgt].
  - rewrite (Z.min_l a len) by lia.
    destruct (Z.le_gt_cases b len) as [Hble|Hbgt].
    + rewrite (Z.min_l b len) by lia. reflexivity.
    + rewrite (Z.min_r b len) by lia.
      rewrite !take_ge; [reflexivity | |]; rewrite length_drop; unfold len in *; lia.
  - rewrite (Z.min_r a len), (Z.min_r b len) by lia.
    rewrite Z.sub_diag. simpl.
    rewrite (drop_ge l (Z.to_nat a)) by (unfold len in *; lia).
    now rewrite take_nil.
Qed.

Lemma paginate_page {A} (p limit : Z) (all : list A) :
  1 <= limit -> 1 <= p ->
  (Api.paginate (Some p) (Some limit) all).1
  = take (Z.to_nat limit) (drop (Z.to_nat ((p - 1) * limit)) all).
Proof.
  intros Hl Hp. unfold Api.paginate. cbn [fst].
  rewrite slice_range by nia. do 2 f_equal. lia.
Qed.

Lemma pages_from_join {A} (first : Z) (count : nat) (limit : Z) (all : list A) :
  1 <= limit -> 1 <= first ->
  mjoin (pages_from first count limit all)
  = take (count * Z.to_nat limit) (drop (Z.to_nat ((first - 1) * limit)) all).
Proof.
  intros Hl. revert first. induction count as [|n IH]; intros first Hf.
  - reflexivity.
  - cbn [pages_from mjoin list_join]. rewrite IH, paginate_page by lia.
    replace (Z.to_nat ((first + 1 - 1) * limit))
      with (Z.to_nat ((first - 1) * limit) + Z.to_nat limit)%nat by nia.
    rewrite <- drop_drop, take_take_drop. f_equal.
Qed.

Lemma ceil_div_bounds (a b : Z) :
  0 < b -> (Api.ceil_div a b - 1) * b < a <= Api.ceil_div a b * b.
Proof.
  intros Hb. unfold Api.ceil_div.
  pose proof (Z.div_mod (- a) b ltac:(lia)) as Hdm.
  pose proof (Z.mod_pos_bound (- a) b Hb) as Hmod.
  nia.
Qed.

Lemma history_records_valid (now : Z) (req : Api.history_request) (tbl : list Entry.t) :
  Forall (fun r => r ∈ tbl /\ Entry.status r = valid
                   /\ match Api.date req with
                      | Some d => Entry.scan_date r = d
                      | None => Entry.user_id r = user_id (Api.hist_user req)
                      end)
         (Api.history_records now req tbl).
Proof.
  unfold Api.history_records, Attendance.by_scan_time_desc.
  destruct (Api.date req) as [d|]; rewrite merge_sort_Permutation;
    apply Forall_forall; intros r Hr; apply list_elem_of_filter in Hr; tauto.
Qed.

(** X15: for a page number and a page size of at least one,
    [GET /attendance/history] returns the slice of the selected records that
    the page designates; the pages 1 to [totalPages] put end to end are the
    selected records, [hasNext] holds exactly before the last page, [hasPrev]
    exactly after the first, a page past the last is empty, and every record
    returned is a valid record of the table. *)
Theorem history_pages_partition (now : Z) (req : Api.history_request)
        (tbl : list Entry.t) (p limit : Z) :
  Api.pageNum req = Some p -> Api.limitNum req = Some limit ->
  1 <= p -> 1 <= limit ->
  let all := Api.history_records now req tbl in
  let res := Api.attendance_history now req tbl in
  exists pages : Z,
    Api.totalPages res.2 = Some pages
    /\ (pages - 1) * limit < Z.of_nat (length all) <= pages * limit
    /\ mjoin (pages_from 1 (Z.to_nat pages) limit all) = all
    /\ res.1 = take (Z.to_nat limit) (drop (Z.to_nat ((p - 1) * limit)) all)
    /\ (Api.hasNext res.2 = true <-> p < pages)
    /\ (Api.hasPrev res.2 = true <-> 1 < p)
    /\ (pages < p -> res.1 = [])
    /\ Api.total res.2 = length all
    /\ Forall (fun r => r ∈ tbl /\ Entry.status r = valid) res.1.
Proof.
  intros Hp Hl Hp1 Hl1. cbv zeta. unfold Api.attendance_history. rewrite Hp, Hl.
  set (all := Api.history_records now req tbl).
  pose proof (ceil_div_bounds (Z.of_nat (length all)) limit ltac:(lia)) as Hb.
  set (pages := Api.ceil_div (Z.of_nat (length all)) limit) in *.
  assert (Hpage : (Api.paginate (Some p) (Some limit) all).1
                  = take (Z.to_nat limit) (drop (Z.to_nat ((p - 1) * limit)) all))
    by now apply paginate_page.
  exists pages. repeat split.
  - unfold Api.paginate. cbn [snd Api.totalPages].
    rewrite (proj2 (Z.eqb_neq limit 0)) by lia. reflexivity.
  - lia.
  - lia.
  - rewrite pages_from_join by lia. simpl. rewrite drop_0.
    apply take_ge. nia.
  - exact Hpage.
  - unfold Api.paginate. cbn [snd Api.hasNext]. rewrite Z.ltb_lt. nia.
  - unfold Api.paginate. cbn [snd Api.hasNext]. rewrite Z.ltb_lt. nia.
  - unfold Api.paginate. cbn [snd Api.hasPrev]. apply Z.ltb_lt.
  - unfold Api.paginate. cbn [snd Api.hasPrev]. apply Z.ltb_lt.
  - intros Hlt. rewrite Hpage, drop_ge; [apply take_nil | nia].
  - rewrite Hpage. apply Forall_take, Forall_drop.
    eapply Forall_impl; [apply history_records_valid |]. simpl. tauto.
Qed.

Lemma history_pages_partition_witness :
  let tbl := [stored 1 "U1" "0000000001" 100 check_in None valid;
              stored 2 "U1" "0000000001" 200 check_out None valid;
              stored 3 "U1" "0000000001" 300 check_in None valid] in
  let req p := {| Api.hist_user := {| user_id := "U1"; user_name := "U1" |};
                  Api.start_date := None; Api.end_date := None; Api.date := None;
                  Api.pageNum := Some p; Api.limitNum := Some 2 |} in
  exists pages : Z,
    Api.totalPages (Api.attendance_history 400 (req 2) tbl).2 = Some pages
    /\ (Api.hasNext (Api.attendance_history 400 (req 2) tbl).2 = true <-> 2 < pages).
Proof.
  cbv zeta.
  destruct (history_pages_partition 400
              {| Api.hist_user := {| user_id := "U1"; user_name := "U1" |};
                 Api.start_date := None; Api.end_date := None; Api.date := None;
                 Api.pageNum := Some 2; Api.limitNum := Some 2 |}
              [stored 1 "U1" "0000000001" 100 check_in None valid;
               stored 2 "U1" "0000000001" 200 check_out None valid;
               stored 3 "U1" "0000000001" 300 check_in None valid]
              2 2 eq_refl eq_refl ltac:(lia) ltac:(lia))
    as (pages & H1 & _ & _ & _ & H2 & _).
  exists pages. split; assumption.
Defined.

(** ** The status of the summary against the action resolver *)

Lemma sorted_perm_of_increasing (l1 l2 : list Entry.t) :
  StronglySorted earlier l1 -> StronglySorted Attendance.not_after l2 ->
  l2 ≡ₚ l1 -> l2 = l1.
Proof.
  revert l2. induction l1 as [|x l1 IH]; intros l2 H1 H2 Hp.
  - now apply Permutation_nil_r in Hp.
  - destruct l2 as [|y l2]; [now apply Permutation_nil_cons in Hp |].
    apply StronglySorted_inv in H1 as [H1 Hx].
    apply StronglySorted_inv in H2 as [H2 Hy].
    assert (Hyx : y = x).
    { assert (Hy' : y ∈ x :: l1) by (rewrite <- Hp; now left).
      assert (Hx' : x ∈ y :: l2) by (rewrite Hp; now left).
      apply elem_of_cons in Hy' as [?|Hy']; [assumption |].
      apply elem_of_cons in Hx' as [?|Hx']; [congruence |].
      rewrite Forall_forall in Hx, Hy.
      specialize (Hx _ Hy'). specialize (Hy _ Hx').
      unfold earlier, Attendance.not_after in *. lia. }
    subst y. f_equal. apply IH; try assumption.
    now apply Permutation_cons_inv in Hp.
Qed.

Lemma by_scan_time_asc_increasing (rows : list Entry.t) :
  StronglySorted earlier rows -> Attendance.by_scan_time_asc rows = rows.
Proof.
  intros Hs. unfold Attendance.by_scan_time_asc.
  apply sorted_perm_of_increasing; [exact Hs | | apply merge_sort_Permutation].
  apply StronglySorted_merge_sort.
  - intros a b c. unfold Attendance.not_after. lia.
  - intros a b. unfold Attendance.not_after. lia.
Qed.

(** X16: when the records of the user for the day are stored at
    increasing instants and none is voided, the status shown by
    [GET /attendance/summary] is the one of the record from which the action
    resolver works: checked in exactly when the next scan will be an exit. *)
Theorem summary_status_agrees_with_resolver (now : Z) (userId : string)
        (tbl : list Entry.t) :
  let rows :=
    filter (fun r => Entry.user_id r = userId ∧ Entry.scan_date r = date_of now) tbl in
  StronglySorted earlier rows ->
  Forall (fun r => Entry.status r = valid) rows ->
  Api.summary_status now userId tbl
  = match Attendance.getLastScanForUser userId (Some (date_of now)) tbl with
    | Some lastScan =>
        if action_eqb (Attendance.actionType lastScan) check_in
        then Api.checked_in else Api.checked_out
    | None => Api.not_checked_in
    end.
Proof.
  cbv zeta. intros Hs Hv.
  assert (Hrows : day_rows userId (date_of now) tbl
                  = filter (fun r => Entry.user_id r = userId
                                     ∧ Entry.scan_date r = date_of now) tbl).
  { unfold day_rows. revert Hv. clear Hs.
    induction tbl as [|r tbl IH]; [reflexivity |].
    rewrite !filter_cons.
    destruct (decide (Entry.user_id r = userId ∧ Entry.scan_date r = date_of now))
      as [[Hu Hd]|Hn].
    - intros [Hr Hrest]%Forall_cons.
      rewrite decide_True by tauto. f_equal. now apply IH.
    - intros Hrest. rewrite decide_False by tauto. now apply IH. }
  unfold Api.summary_status, Attendance.findByUserAndDate.
  rewrite (by_scan_time_asc_increasing _ Hs).
  rewrite getLastScanForUser_day, Hrows, (latest_of_increasing _ Hs), fmap_last.
  reflexivity.
Qed.

Lemma summary_status_agrees_with_resolver_witness :
  Api.summary_status 150 "U1" [stored 1 "U1" "0000000001" 100 check_in None valid]
  = Api.checked_in.
Proof.
  rewrite summary_status_agrees_with_resolver.
  - reflexivity.
  - repeat constructor.
  - repeat constructor.
Defined.

(** ** The registry: removal, listing and reordering *)

Lemma headers_of_iff (ev h : string) (db : EventManager.database) :
  h ∈ EventManager.headers_of ev db
  <-> exists c, c ∈ EventManager.event_checkpoints db
                /\ Checkpoint.event_name c = ev
                /\ Checkpoint.is_active c = true
                /\ Checkpoint.checkpoint_name c = h.
Proof.
  unfold EventManager.headers_of. rewrite list_elem_of_fmap. split.
  - intros (c & -> & Hc). rewrite merge_sort_Permutation in Hc.
    apply list_elem_of_filter in Hc as [[He Ha] Hc]. now exists c.
  - intros (c & Hc & He & Ha & Hn). exists c. split; [now symmetry |].
    rewrite merge_sort_Permutation. apply list_elem_of_filter. tauto.
Qed.

Lemma checkpoint_active_iff (ev cp : string) (db : EventManager.database) :
  EventManager.checkpoint_active ev cp db = true
  <-> cp ∈ EventManager.headers_of ev db.
Proof.
  rewrite headers_of_iff. unfold EventManager.checkpoint_active.
  rewrite existsb_exists. split.
  - intros (c & Hc & H). apply andb_true_iff in H as [Hk Ha].
    apply same_key_iff in Hk. injection Hk as He Hn.
    exists c. rewrite list_elem_of_In. tauto.
  - intros (c & Hc & He & Ha & Hn). exists c. rewrite <- list_elem_of_In.
    split; [exact Hc |]. apply andb_true_iff. split; [|exact Ha].
    apply same_key_iff. unfold checkpoint_key. congruence.
Qed.

Lemma deactivate_keys (ev cp : string) (cps : list Checkpoint.t) :
  checkpoint_key <$> EventManager.deactivate ev cp cps = checkpoint_key <$> cps.
Proof.
  unfold EventManager.deactivate. induction cps as [|c cps IH]; [reflexivity |].
  cbn [map fmap list_fmap]. f_equal; [|exact IH].
  destruct (EventManager.same_key ev cp c); reflexivity.
Qed.

Lemma deactivate_active (ev cp : string) (cps : list Checkpoint.t) (ev' h : string) :
  (exists c, c ∈ EventManager.deactivate ev cp cps
             /\ Checkpoint.event_name c = ev' /\ Checkpoint.is_active c = true
             /\ Checkpoint.checkpoint_name c = h)
  <-> (exists c, c ∈ cps
                 /\ Checkpoint.event_name c = ev' /\ Checkpoint.is_active c = true
                 /\ Checkpoint.checkpoint_name c = h)
      /\ (ev', h) <> (ev, cp).
Proof.
  unfold EventManager.deactivate. split.
  - intros (c & Hc & He & Ha & Hn).
    rewrite list_elem_of_In in Hc. apply in_map_iff in Hc as (c0 & Hc0 & Hin).
    destruct (EventManager.same_key ev cp c0) eqn:Hk.
    + subst c. simpl in Ha. discriminate.
    + subst c0. split.
      * exists c. rewrite list_elem_of_In. tauto.
      * intros Heq. assert (Hk' : EventManager.same_key ev cp c = true).
        { apply same_key_iff. unfold checkpoint_key. congruence. }
        congruence.
  - intros [(c & Hc & He & Ha & Hn) Hne]. exists c. split; [|tauto].
    rewrite list_elem_of_In. apply in_map_iff. exists c.
    split; [|now apply list_elem_of_In].
    destruct (EventManager.same_key ev cp c) eqn:Hk; [|reflexivity].
    apply same_key_iff in Hk. unfold checkpoint_key in Hk. congruence.
Qed.

Lemma remove_checkpoint_done (req : EventManager.remove_request)
      (db : EventManager.database) (ev cp : string) :
  EventManager.allowed_role (EventManager.rm_role req) = true ->
  EventManager.resolved_event_name (EventManager.rm_event_name req)
    (EventManager.rm_event_id req) db = Some ev ->
  ev <> "" ->
  EventManager.rm_checkpoint_name req = Some cp ->
  cp <> "" ->
  EventManager.remove_checkpoint req db
  = (EventManager.remove_done,
     EventManager.set_checkpoints
       (EventManager.deactivate ev cp (EventManager.event_checkpoints db)) db).
Proof.
  intros Hrole Hev Hevne Hcp Hcpne.
  unfold EventManager.remove_checkpoint. rewrite Hrole, Hev, Hcp.
  destruct ev; [congruence |]. destruct cp; [congruence |]. reflexivity.
Qed.

(** X17: [POST /event-manager/remove-checkpoint] deletes nothing: the
    keys of the registry, the participants and the logs are as before; the
    checkpoint leaves the headers of its event and no other header moves, and
    every later check at that checkpoint fails without writing. *)
Theorem remove_checkpoint_is_soft (req : EventManager.remove_request)
        (db : EventManager.database) (ev cp : string) :
  EventManager.allowed_role (EventManager.rm_role req) = true ->
  EventManager.resolved_event_name (EventManager.rm_event_name req)
    (EventManager.rm_event_id req) db = Some ev ->
  ev <> "" ->
  EventManager.rm_checkpoint_name req = Some cp ->
  cp <> "" ->
  let db' := (EventManager.remove_checkpoint req db).2 in
  (EventManager.remove_checkpoint req db).1 = EventManager.remove_done
  /\ checkpoint_key <$> EventManager.event_checkpoints db'
     = checkpoint_key <$> EventManager.event_checkpoints db
  /\ EventManager.events db' = EventManager.events db
  /\ EventManager.event_participants db' = EventManager.event_participants db
  /\ EventManager.event_checkpoint_logs db' = EventManager.event_checkpoint_logs db
  /\ (forall ev' h,
        h ∈ EventManager.headers_of ev' db'
        <-> h ∈ EventManager.headers_of ev' db /\ (ev', h) <> (ev, cp))
  /\ (forall cfg now chk,
        EventManager.chk_event_name chk = Some ev ->
        EventManager.column_type chk = Some cp ->
        exists http error,
          EventManager.check cfg now chk db'
          = (EventManager.check_failed http error, db')).
Proof.
  intros Hrole Hev Hevne Hcp Hcpne. cbv zeta.
  rewrite (remove_checkpoint_done req db ev cp) by assumption.
  assert (Ht1 : JS.truthy_ostr (Some ev) = true) by (destruct ev; [congruence | reflexivity]).
  cbn [fst snd].
  set (db' := EventManager.set_checkpoints _ db).
  assert (Hheaders : forall ev' h,
             h ∈ EventManager.headers_of ev' db'
             <-> h ∈ EventManager.headers_of ev' db /\ (ev', h) <> (ev, cp)).
  { intros ev' h. rewrite !headers_of_iff. apply deactivate_active. }
  split; [reflexivity |]. split; [apply deactivate_keys |].
  split; [reflexivity |]. split; [reflexivity |]. split; [reflexivity |].
  split; [exact Hheaders |].
  intros cfg now chk Hcev Hccp.
  assert (Hinactive : EventManager.checkpoint_active ev cp db' = false).
  { destruct (EventManager.checkpoint_active ev cp db') eqn:E; [|reflexivity].
    apply checkpoint_active_iff, Hheaders in E as [_ E]. congruence. }
  unfold EventManager.check. rewrite Hcev, Hccp, Ht1.
  cbn [negb andb]. destruct cp as [|c0 cp']; [congruence |].
  destruct (EventManager.resolve_event chk db') as [e|]; [|eauto].
  destruct (negb (JS.truthy_num e)); [eauto |].
  replace (default "" (JS.or_null (Some ev))) with ev
    by (destruct ev; [congruence | reflexivity]).
  rewrite Hinactive. cbn [negb]. eauto.
Qed.

Lemma remove_checkpoint_is_soft_witness :
  let req := {| EventManager.rm_role := Some "admin";
                EventManager.rm_event_name := Some "Gala";
                EventManager.rm_event_id := None;
                EventManager.rm_checkpoint_name := Some "GATE_A" |} in
  (EventManager.remove_checkpoint req gala).1 = EventManager.remove_done
  /\ length (EventManager.event_checkpoints (EventManager.remove_checkpoint req gala).2)
     = 1%nat.
Proof.
  cbv zeta.
  destruct (remove_checkpoint_is_soft
              {| EventManager.rm_role := Some "admin";
                 EventManager.rm_event_name := Some "Gala";
                 EventManager.rm_event_id := None;
                 EventManager.rm_checkpoint_name := Some "GATE_A" |}
              gala "Gala" "GATE_A")
    as (H1 & H2 & _); [reflexivity | reflexivity | discriminate | reflexivity
                       | discriminate |].
  split; [exact H1 |].
  apply (f_equal length) in H2. rewrite !length_fmap in H2. exact H2.
Defined.

Lemma upsert_keys_present (ev cp : string) (type : checkpoint_kind) (order : Z)
      (cps : list Checkpoint.t) :
  (ev, cp) ∈ checkpoint_key <$> cps ->
  checkpoint_key <$> EventManager.upsert ev cp type order cps = checkpoint_key <$> cps.
Proof.
  intros Hin. unfold EventManager.upsert.
  rewrite (proj2 (existsb_same_key ev cp cps) Hin).
  clear Hin. induction cps as [|c cps IH]; [reflexivity |].
  cbn [map fmap list_fmap]. f_equal; [|exact IH].
  destruct (EventManager.same_key ev cp c); reflexivity.
Qed.

Lemma upsert_active (ev cp : string) (type : checkpoint_kind) (order : Z)
      (cps : list Checkpoint.t) :
  existsb (fun c => EventManager.same_key ev cp c && Checkpoint.is_active c)
          (EventManager.upsert ev cp type order cps) = true.
Proof.
  unfold EventManager.upsert.
  destruct (existsb (EventManager.same_key ev cp) cps) eqn:E.
  - apply existsb_exists in E as (c & Hc & Hk).
    apply existsb_exists. eexists. split.
    + apply in_map_iff. exists c. split; [reflexivity | exact Hc].
    + rewrite Hk. cbn. apply same_key_iff in Hk. unfold checkpoint_key in Hk.
      injection Hk as -> ->. unfold EventManager.same_key. cbn.
      now rewrite !String.eqb_refl.
  - rewrite existsb_app. apply orb_true_iff. right. cbn.
    unfold EventManager.same_key. cbn. now rewrite !String.eqb_refl.
Qed.

(** X18: adding a removed checkpoint again under a name that normalizes to
    the stored one switches the same row back on: the registry keeps its
    keys, and the logs and participants of before the removal are still
    there. *)
Theorem remove_then_add_reactivates (rm : EventManager.remove_request)
        (add : EventManager.add_request) (db : EventManager.database)
        (ev cp : string) (kind : checkpoint_kind) :
  EventManager.allowed_role (EventManager.rm_role rm) = true ->
  EventManager.rm_event_name rm = Some ev ->
  EventManager.rm_checkpoint_name rm = Some cp ->
  EventManager.allowed_role (EventManager.add_role add) = true ->
  EventManager.add_event_name add = Some ev ->
  ev <> "" ->
  EventManager.normalize_name (default "" (EventManager.add_checkpoint_name add)) = cp ->
  EventManager.name_ok cp = true ->
  JS.truthy_ostr (EventManager.add_checkpoint_name add) = true ->
  EventManager.parse_kind
    (JS.toUpperCase
       (default "IN"
          (EventManager.nullish_or (EventManager.add_checkpoint_type add)
             (EventManager.nullish_or (EventManager.add_type add)
                (EventManager.add_checkpointType add))))) = Some kind ->
  (ev, cp) ∈ checkpoint_key <$> EventManager.event_checkpoints db ->
  let removed := (EventManager.remove_checkpoint rm db).2 in
  let added := EventManager.add_checkpoint add removed in
  EventManager.checkpoint_active ev cp removed = false
  /\ added.1 = EventManager.add_done
  /\ EventManager.checkpoint_active ev cp added.2 = true
  /\ checkpoint_key <$> EventManager.event_checkpoints added.2
     = checkpoint_key <$> EventManager.event_checkpoints db
  /\ EventManager.event_checkpoint_logs added.2 = EventManager.event_checkpoint_logs db
  /\ EventManager.event_participants added.2 = EventManager.event_participants db.
Proof.
  intros Hrole Hrev Hrcp Harole Haev Hevne Hname Hok Hgiven Hkind Hkey. cbv zeta.
  assert (Hcpne : cp <> "").
  { intros ->. discriminate Hok. }
  assert (Ht1 : JS.truthy_ostr (Some ev) = true) by (destruct ev; [congruence | reflexivity]).
  rewrite (remove_checkpoint_done rm db ev cp); try assumption.
  2:{ unfold EventManager.resolved_event_name. now rewrite Hrev, Ht1. }
  cbn [fst snd].
  set (removed := EventManager.set_checkpoints _ db).
  assert (Hkeys : checkpoint_key <$> EventManager.event_checkpoints removed
                  = checkpoint_key <$> EventManager.event_checkpoints db)
    by apply deactivate_keys.
  split.
  { destruct (EventManager.checkpoint_active ev cp removed) eqn:E; [|reflexivity].
    apply checkpoint_active_iff, headers_of_iff in E.
    apply deactivate_active in E as [_ E]. congruence. }
  unfold EventManager.add_checkpoint.
  rewrite Harole, Haev, Ht1. cbn [negb andb].
  rewrite Ht1, Hgiven. cbn [negb orb].
  rewrite Hkind, Hname, Hok. cbn [negb fst snd default from_option]. unfold id.
  split; [reflexivity |]. split; [apply upsert_active |].
  split; [|split; reflexivity].
  cbn [EventManager.event_checkpoints EventManager.set_checkpoints].
  rewrite upsert_keys_present; [exact Hkeys |].
  fold (EventManager.event_checkpoints removed). rewrite Hkeys. exact Hkey.
Qed.

Lemma remove_then_add_reactivates_witness :
  let rm := {| EventManager.rm_role := Some "admin";
               EventManager.rm_event_name := Some "Gala";
               EventManager.rm_event_id := None;
               EventManager.rm_checkpoint_name := Some "GATE_A" |} in
  let add := {| EventManager.add_role := Some "event_manager";
                EventManager.add_event_name := Some "Gala";
                EventManager.add_event_id := None;
                EventManager.add_checkpoint_name := Some "gate a";
                EventManager.add_checkpoint_type := Some "out";
                EventManager.add_type := None;
                EventManager.add_checkpointType := None;
                EventManager.add_display_order := Some 3 |} in
  EventManager.checkpoint_active "Gala" "GATE_A"
    (EventManager.add_checkpoint add (EventManager.remove_checkpoint rm gala).2).2
  = true.
Proof.
  cbv zeta.
  refine (proj1 (proj2 (proj2
    (remove_then_add_reactivates _ _ gala "Gala" "GATE_A" OUT _ _ _ _ _ _ _ _ _ _ _))));
    try reflexivity; try discriminate.
  vm_compute. left.
Defined.

#[local] Instance listing_le_total : Total EventManager.listing_le.
Proof.
  intros a b. unfold EventManager.listing_le.
  destruct (Z.lt_trichotomy (Checkpoint.display_order a) (Checkpoint.display_order b))
    as [H|[H|H]]; [left; now left | | right; now left].
  destruct (String.leb_total (Checkpoint.checkpoint_name a) (Checkpoint.checkpoint_name b));
    [left | right]; right; split; congruence.
Qed.

(** X19: an answer of [POST /event-manager/list-checkpoints] lists exactly
    the active checkpoints of the resolved event, by display order and then
    by name (names compared by character codes), and these are the headers
    of the matrix of that event up to their order. *)
Theorem list_checkpoints_active_sorted (role event_name : option string)
        (event_id : option Z) (db : EventManager.database)
        (cols : list EventManager.column) :
  EventManager.list_checkpoints role event_name event_id db = EventManager.listed cols ->
  exists ev,
    EventManager.resolved_event_name event_name event_id db = Some ev
    /\ ev <> ""
    /\ EventManager.allowed_role role = true
    /\ (forall col, col ∈ cols
          <-> exists c, c ∈ EventManager.event_checkpoints db
                        /\ Checkpoint.event_name c = ev
                        /\ Checkpoint.is_active c = true
                        /\ col = EventManager.column_of c)
    /\ Sorted column_le cols
    /\ EventManager.col_name <$> cols ≡ₚ EventManager.headers_of ev db.
Proof.
  unfold EventManager.list_checkpoints.
  destruct (EventManager.allowed_role role); [|discriminate]. cbn [negb].
  destruct (EventManager.resolved_event_name event_name event_id db) as [ev|];
    [|discriminate].
  destruct ev as [|c0 ev']; [discriminate |]. cbn [JS.truthy_ostr JS.truthy_str negb].
  set (ev := String c0 ev'). intros [= <-]. exists ev.
  split; [reflexivity |]. split; [discriminate |]. split; [reflexivity |].
  cbn [default from_option]. change (id ev) with ev.
  split; [| split].
  - intros col. rewrite list_elem_of_fmap. split.
    + intros (c & -> & Hc). rewrite merge_sort_Permutation in Hc.
      apply list_elem_of_filter in Hc as [[He Ha] Hc]. exists c. tauto.
    + intros (c & Hc & He & Ha & ->). exists c. split; [reflexivity |].
      rewrite merge_sort_Permutation. apply list_elem_of_filter. tauto.
  - apply (Sorted_fmap _ EventManager.listing_le); [intros x y H; exact H |].
    apply Sorted_merge_sort. apply _.
  - unfold EventManager.headers_of. rewrite <- list_fmap_compose.
    change (EventManager.col_name ∘ EventManager.column_of)
      with Checkpoint.checkpoint_name.
    apply fmap_Permutation. now rewrite !merge_sort_Permutation.
Qed.

Lemma list_checkpoints_active_sorted_witness :
  exists ev, EventManager.resolved_event_name None (Some 1) gala = Some ev /\ ev <> "".
Proof.
  destruct (list_checkpoints_active_sorted (Some "admin") None (Some 1) gala _ eq_refl)
    as (ev & H1 & H2 & _).
  exists ev. split; assumption.
Defined.

#[local] Instance same_but_order_refl : Reflexive same_but_order.
Proof. intros c. repeat split. Qed.

#[local] Instance same_but_order_trans : Transitive same_but_order.
Proof.
  unfold same_but_order. intros x y z (?&?&?&?) (?&?&?&?). repeat split; congruence.
Qed.

Lemma set_order_keeps (ev name : string) (order : Z) (cps : list Checkpoint.t) :
  Forall2 same_but_order (EventManager.set_order ev name order cps) cps.
Proof.
  unfold EventManager.set_order. induction cps as [|c cps IH]; cbn [map]; constructor.
  - destruct (EventManager.same_key ev name c); [repeat split | reflexivity].
  - exact IH.
Qed.

Lemma reorder_keeps (ev : string) (items : list (string * Z)) (cps : list Checkpoint.t) :
  Forall2 same_but_order
    (foldl (fun cps cp => EventManager.set_order ev cp.1 cp.2 cps) cps items) cps.
Proof.
  revert cps. induction items as [|[n o] items IH]; intros cps; cbn [foldl].
  - reflexivity.
  - etransitivity; [apply IH | apply set_order_keeps].
Qed.

Lemma same_but_order_headers (ev : string) (cps' cps : list Checkpoint.t) :
  Forall2 same_but_order cps' cps ->
  Checkpoint.checkpoint_name <$>
    filter (fun c => Checkpoint.event_name c = ev ∧ Checkpoint.is_active c = true) cps'
  = Checkpoint.checkpoint_name <$>
    filter (fun c => Checkpoint.event_name c = ev ∧ Checkpoint.is_active c = true) cps.
Proof.
  induction 1 as [|c' c cps' cps (He & Hn & _ & Ha) _ IH]; [reflexivity |].
  rewrite !filter_cons.
  destruct (decide (Checkpoint.event_name c = ev ∧ Checkpoint.is_active c = true))
    as [Hc|Hc].
  - rewrite decide_True by (rewrite He, Ha; exact Hc).
    cbn [fmap list_fmap]. now rewrite Hn, IH.
  - rewrite decide_False by (rewrite He, Ha; exact Hc). exact IH.
Qed.

Lemma cells_of_permuted_headers (f : string -> option Z) (hs hs' : list string)
      (i n p h : string) :
  hs' ≡ₚ hs ->
  EventManager.cell
    {| EventManager.cust_id := i; EventManager.cust_name := n;
       EventManager.cust_phone := p;
       EventManager.cells := (fun h => (h, f h)) <$> hs' |} h
  = EventManager.cell
    {| EventManager.cust_id := i; EventManager.cust_name := n;
       EventManager.cust_phone := p;
       EventManager.cells := (fun h => (h, f h)) <$> hs |} h.
Proof.
  intros Hp. rewrite !cell_of_headers.
  destruct (decide (h ∈ hs')) as [H|H], (decide (h ∈ hs)) as [H'|H'];
    try reflexivity; exfalso.
  - apply H'. now rewrite <- Hp.
  - apply H. now rewrite Hp.
Qed.

(** X20: [POST /event-manager/update-checkpoint-order] changes display
    orders only: events, participants, logs, names, types and activity of the
    checkpoints stay, and the matrix of any event keeps its set of headers,
    its rows and every cell. *)
Theorem reorder_keeps_matrix_content (event_name : option string)
        (checkpoints : option (list (string * Z))) (db : EventManager.database)
        (ev : option string) :
  let db' := (EventManager.update_checkpoint_order event_name checkpoints db).2 in
  EventManager.events db' = EventManager.events db
  /\ EventManager.event_participants db' = EventManager.event_participants db
  /\ EventManager.event_checkpoint_logs db' = EventManager.event_checkpoint_logs db
  /\ Forall2 same_but_order (EventManager.event_checkpoints db')
                            (EventManager.event_checkpoints db)
  /\ match EventManager.available ev db', EventManager.available ev db with
     | EventManager.matrix hs' cs', EventManager.matrix hs cs =>
         hs' ≡ₚ hs
         /\ Forall2 (fun c' c =>
                       EventManager.cust_id c' = EventManager.cust_id c
                       /\ EventManager.cust_name c' = EventManager.cust_name c
                       /\ EventManager.cust_phone c' = EventManager.cust_phone c
                       /\ forall h, EventManager.cell c' h = EventManager.cell c h)
                    cs' cs
     | EventManager.available_failed http' error',
       EventManager.available_failed http error => http' = http /\ error' = error
     | _, _ => False
     end.
Proof.
  cbv zeta.
  set (db' := (EventManager.update_checkpoint_order event_name checkpoints db).2).
  assert (Hsame : EventManager.events db' = EventManager.events db
                  /\ EventManager.event_participants db'
                     = EventManager.event_participants db
                  /\ EventManager.event_checkpoint_logs db'
                     = EventManager.event_checkpoint_logs db
                  /\ Forall2 same_but_order (EventManager.event_checkpoints db')
                                            (EventManager.event_checkpoints db)).
  { assert (Hrefl : Forall2 same_but_order (EventManager.event_checkpoints db)
                                          (EventManager.event_checkpoints db)).
    { apply (reorder_keeps "" []). }
    unfold db', EventManager.update_checkpoint_order.
    destruct checkpoints as [items|]; [|cbn; tauto].
    destruct (negb (JS.truthy_ostr event_name)); [cbn; tauto |].
    cbn. repeat split; try reflexivity. apply reorder_keeps. }
  destruct Hsame as (Hev & Hp & Hl & Hc).
  repeat (split; [assumption |]).
  unfold EventManager.available.
  destruct ev as [[|c0 ev']|]; [tauto | | tauto].
  set (ev := String c0 ev').
  unfold EventManager.event_id_of. rewrite Hev.
  destruct (Event.id <$> head (filter (fun e => Event.name e = ev) (EventManager.events db)))
    as [e|]; [|tauto].
  assert (Hhs : EventManager.headers_of ev db' ≡ₚ EventManager.headers_of ev db).
  { unfold EventManager.headers_of.
    rewrite !merge_sort_Permutation.
    now rewrite (same_but_order_headers ev _ _ Hc). }
  split; [exact Hhs |].
  unfold EventManager.participants_of, EventManager.logsRows. rewrite Hp, Hl.
  apply Forall2_fmap, Forall_Forall2_diag, Forall_forall. intros p _.
  cbn [EventManager.cust_id EventManager.cust_name EventManager.cust_phone].
  repeat split. intros h. now apply cells_of_permuted_headers.
Qed.

(** ** Participants: removal, enrolment and the shape of the matrix *)

Lemma is_participant_iff (e : Z) (u : string) (db : EventManager.database) :
  EventManager.is_participant e u db = true
  <-> exists p, p ∈ EventManager.event_participants db
                /\ EventManager.enrolment_of e u p.
Proof.
  unfold EventManager.is_participant, EventManager.enrolment_of.
  rewrite existsb_exists. split.
  - intros (p & Hp & H). apply andb_true_iff in H as [H1 H2].
    apply Z.eqb_eq in H1. apply String.eqb_eq in H2.
    exists p. rewrite list_elem_of_In. tauto.
  - intros (p & Hp & H1 & H2). exists p. rewrite <- list_elem_of_In.
    split; [exact Hp |]. apply andb_true_iff.
    rewrite Z.eqb_eq, String.eqb_eq. tauto.
Qed.

Lemma length_filter_split {A} (P : A -> Prop) `{!forall x, Decision (P x)} (l : list A) :
  (length (filter P l) + length (filter (fun x => ~ P x) l))%nat = length l.
Proof.
  induction l as [|x l IH]; [reflexivity |].
  rewrite !filter_cons. destruct (decide (P x)) as [Hx|Hx].
  - rewrite decide_False by tauto. simpl. lia.
  - rewrite decide_True by tauto. simpl. lia.
Qed.

(** X23: a successful [POST /event-manager/remove-participant] leaves the
    user neither enrolled in the event nor with a log in it, touches no other
    (event, user) pair, reports the numbers of rows it deleted, and leaves
    events and registry as they are; every other answer writes nothing. *)
Theorem remove_participant_effect (role event_name user_id : option string)
        (db : EventManager.database) :
  match EventManager.remove_participant role event_name user_id db with
  | (EventManager.participant_removed logsDeleted participantsDeleted, db') =>
      exists ev u e,
        event_name = Some ev /\ user_id = Some u
        /\ EventManager.allowed_role role = true
        /\ EventManager.event_id_of ev db = Some e
        /\ EventManager.is_participant e u db' = false
        /\ (forall h, times_at e u h db' = [])
        /\ (forall e' u', (e', u') <> (e, u) ->
              EventManager.is_participant e' u' db'
              = EventManager.is_participant e' u' db
              /\ forall h, times_at e' u' h db' = times_at e' u' h db)
        /\ (logsDeleted + length (EventManager.event_checkpoint_logs db'))%nat
           = length (EventManager.event_checkpoint_logs db)
        /\ (participantsDeleted + length (EventManager.event_participants db'))%nat
           = length (EventManager.event_participants db)
        /\ EventManager.events db' = EventManager.events db
        /\ EventManager.event_checkpoints db' = EventManager.event_checkpoints db
  | (_, db') => db' = db
  end.
Proof.
  unfold EventManager.remove_participant.
  destruct (negb (JS.truthy_ostr event_name) || negb (JS.truthy_ostr user_id)) eqn:Hf;
    [reflexivity |].
  apply orb_false_iff in Hf as [H1 H2]. apply negb_false_iff in H1, H2.
  destruct event_name as [ev|]; [|discriminate].
  destruct user_id as [u|]; [|discriminate].
  destruct (EventManager.allowed_role role) eqn:Hrole; [|reflexivity]. cbn [negb].
  cbn [default from_option]. change (id ev) with ev. change (id u) with u.
  destruct (EventManager.event_id_of ev db) as [e|] eqn:He; [|reflexivity].
  exists ev, u, e.
  split; [reflexivity |]. split; [reflexivity |]. split; [reflexivity |].
  split; [exact He |].
  split.
  { destruct (EventManager.is_participant e u _) eqn:E; [|reflexivity].
    apply is_participant_iff in E as (p & Hp & Hen).
    cbn in Hp. apply list_elem_of_filter in Hp as [Hn _]. tauto. }
  split.
  { intros h. unfold times_at. cbn [EventManager.event_checkpoint_logs
      EventManager.set_participants EventManager.set_logs].
    rewrite filter_none; [reflexivity |].
    intros l Hl [Hu Hc].
    apply list_elem_of_filter in Hl as [Hev Hl].
    apply list_elem_of_filter in Hl as [Hn _].
    apply Hn. split; assumption. }
  split.
  { intros e' u' Hne. split.
    - apply eq_true_iff_eq. rewrite !is_participant_iff.
      cbn [EventManager.event_participants EventManager.set_participants].
      split.
      + intros (p & Hp & Hen). apply list_elem_of_filter in Hp as [_ Hp]. eauto.
      + intros (p & Hp & Hen). exists p. split; [|exact Hen].
        apply list_elem_of_filter. split; [|exact Hp].
        intros [H3 H4]. destruct Hen as [H5 H6]. apply Hne. congruence.
    - intros h. unfold times_at. cbn [EventManager.event_checkpoint_logs
        EventManager.set_participants EventManager.set_logs].
      f_equal. rewrite !list_filter_filter. apply list_filter_iff.
      intros l. unfold EventManager.log_of. split; [tauto |].
      intros ((Hu & Hc) & Hev). repeat split; try assumption.
      intros [H3 H4]. apply Hne. congruence. }
  split.
  { cbn [EventManager.event_checkpoint_logs EventManager.set_participants
         EventManager.set_logs]. apply length_filter_split. }
  split.
  { cbn [EventManager.event_participants EventManager.set_participants].
    apply length_filter_split. }
  split; reflexivity.
Qed.

(** X21: [POST /event-manager/check] never rewrites: events and registry
    stay, participants and logs are extended at their end by at most one row
    each, and a participant list without repeated (event, user) pair stays
    so. *)
Theorem check_only_appends (cfg : EventManager.config) (now : Z)
        (req : EventManager.check_request) (db : EventManager.database) :
  let db' := (EventManager.check cfg now req db).2 in
  EventManager.events db' = EventManager.events db
  /\ EventManager.event_checkpoints db' = EventManager.event_checkpoints db
  /\ EventManager.event_participants db `prefix_of` EventManager.event_participants db'
  /\ EventManager.event_checkpoint_logs db `prefix_of` EventManager.event_checkpoint_logs db'
  /\ (length (EventManager.event_checkpoint_logs db')
      <= S (length (EventManager.event_checkpoint_logs db)))%nat
  /\ (length (EventManager.event_participants db')
      <= S (length (EventManager.event_participants db)))%nat
  /\ (NoDup (enrolment_key <$> EventManager.event_participants db) ->
      NoDup (enrolment_key <$> EventManager.event_participants db')).
Proof.
  cbv zeta.
  destruct (EventManager.check cfg now req db) as [[http error|u cp t e] db'] eqn:Hc;
    cbn [snd].
  - apply check_failed_unchanged in Hc. subst db'.
    repeat split; try reflexivity; try lia. tauto.
  - unfold EventManager.check in Hc.
    destruct (negb (JS.truthy_ostr (EventManager.chk_event_name req))
              && negb (JS.truthy_onum (EventManager.chk_event_id req)));
      [discriminate |].
    destruct (EventManager.column_type req) as [[|c0 col]|]; try discriminate.
    destruct (EventManager.resolve_event req db) as [e0|]; [|discriminate].
    destruct (negb (JS.truthy_num e0)); [discriminate |].
    destruct (negb (EventManager.checkpoint_active _ _ db)); [discriminate |].
    destruct (EventManager.identifier_of req) as [u0|]; [|discriminate].
    destruct (EventManager.DB_TYPE_mysql cfg && EventManager.user_id_is_int cfg
              && negb (JS.truthy_str u0 && JS.all_chars JS.is_digit u0));
      [discriminate |].
    destruct (EventManager.is_participant e0 u0 db) eqn:Hp.
    + injection Hc as _ _ _ _ <-. cbn.
      repeat split; try reflexivity; try tauto.
      * now apply prefix_app_r.
      * rewrite length_app. simpl. lia.
      * lia.
    + destruct (JS.truthy_ostr (EventManager.customer_name req)); [|discriminate].
      injection Hc as _ _ _ _ <-. cbn.
      repeat split; try reflexivity.
      * now apply prefix_app_r.
      * now apply prefix_app_r.
      * rewrite length_app. simpl. lia.
      * rewrite length_app. simpl. lia.
      * intros Hnd. rewrite fmap_app. apply NoDup_app. repeat split.
        -- exact Hnd.
        -- intros k Hk Hk'. apply list_elem_of_singleton in Hk'. subst k.
           apply list_elem_of_fmap in Hk as (p & Hkey & Hin).
           assert (EventManager.is_participant e0 u0 db = true); [|congruence].
           apply is_participant_iff. exists p. split; [exact Hin |].
           unfold enrolment_key in Hkey. cbn in Hkey.
           unfold EventManager.enrolment_of. split; congruence.
        -- apply NoDup_singleton.
Qed.

#[local] Instance user_le_total : Total EventManager.user_le.
Proof. intros a b. apply String.leb_total. Qed.



Lemma file_char_class (c : ascii) :
  negb (negb (EventManager.is_file_char c)) = true ->
  EventManager.is_file_char c = true.
Proof. now rewrite negb_involutive. Qed.

(** X24: a sheet answered by [GET /event-manager/export-availability]
    carries the headers, the rows and the cell values of the matrix that
    [GET /event-manager/available] answers for the same event, and its file
    name holds only letters, digits, [_] and [-]. *)
Theorem export_agrees_with_matrix (role event_name : option string)
        (db : EventManager.database) (safeName : string) (headerRow : list string)
        (rows : list EventManager.sheet_row) :
  EventManager.export_availability role event_name db
  = EventManager.sheet safeName headerRow rows ->
  exists hs cs,
    EventManager.available event_name db = EventManager.matrix hs cs
    /\ headerRow = "ID" :: "Name" :: "Phone" :: hs
    /\ Forall2 (fun row c =>
                  EventManager.sheet_id row = EventManager.cust_id c
                  /\ EventManager.sheet_name row = EventManager.cust_name c
                  /\ EventManager.sheet_phone row = EventManager.cust_phone c
                  /\ EventManager.sheet_values row = snd <$> EventManager.cells c)
               rows cs
    /\ Forall (fun row => length (EventManager.sheet_values row) = length hs) rows
    /\ JS.all_chars EventManager.is_file_char safeName = true
    /\ EventManager.allowed_role role = true.
Proof.
  unfold EventManager.export_availability, EventManager.available.
  destruct event_name as [[|c0 ev']|]; try discriminate.
  set (ev := String c0 ev').
  destruct (EventManager.allowed_role role); [|discriminate]. cbn [negb].
  destruct (EventManager.event_id_of ev db) as [e|]; [|discriminate].
  intros [= <- <- <-]. eexists _, _. split; [reflexivity |].
  split; [reflexivity |]. split; [| split; [| split; [| reflexivity]]].
  - apply Forall2_fmap, Forall_Forall2_diag, Forall_forall. intros p _. cbn.
    repeat split. now rewrite <- list_fmap_compose.
  - apply Forall_fmap, Forall_forall. intros p _. cbn. now rewrite length_fmap.
  - apply (all_chars_impl (fun c => negb (negb (EventManager.is_file_char c))));
      [exact file_char_class |].
    exact (replace_runs_no_class (fun c => negb (EventManager.is_file_char c))
             "_" false ev eq_refl).
Qed.

Lemma export_agrees_with_matrix_witness :
  exists hs cs, EventManager.available (Some "Gala") gala = EventManager.matrix hs cs.
Proof.
  destruct (export_agrees_with_matrix (Some "admin") (Some "Gala") gala _ _ _ eq_refl)
    as (hs & cs & H & _).
  exists hs, cs. exact H.
Defined.

(** ** The authentication middleware *)

Lemma requireRole_next (findById : string -> option (option Auth.account))
      (allowedRoles : list string) (req : Auth.request) (user : Auth.account) :
  Auth.requireRole findById allowedRoles req = Auth.Next user
  <-> exists uid,
        Auth.session_userId req = Some uid /\ uid <> ""
        /\ findById uid = Some (Some user)
        /\ existsb (String.eqb (Auth.account_role user)) allowedRoles = true.
Proof.
  unfold Auth.requireRole. split.
  - destruct (Auth.session_userId req) as [[|c uid]|]; cbn [JS.truthy_ostr JS.truthy_str negb].
    + destruct (Auth.isApiRequest req); discriminate.
    + cbn [default from_option]. change (id (String c uid)) with (String c uid).
      destruct (findById (String c uid)) as [[u|]|] eqn:Hf; [| |discriminate].
      * destruct (existsb (String.eqb (Auth.account_role u)) allowedRoles) eqn:He;
          cbn [negb].
        -- intros [= ->]. exists (String c uid). repeat split; try assumption. discriminate.
        -- destruct (Auth.isApiRequest req); discriminate.
      * destruct (Auth.isApiRequest req); discriminate.
    + destruct (Auth.isApiRequest req); discriminate.
  - intros (uid & Hs & Hne & Hf & He). rewrite Hs.
    destruct uid as [|c uid]; [congruence |].
    cbn [JS.truthy_ostr JS.truthy_str negb default from_option].
    change (id (String c uid)) with (String c uid). rewrite Hf, He. reflexivity.
Qed.

Lemma existsb_incl {A} (p : A -> bool) (l l' : list A) :
  (forall x, In x l -> In x l') -> existsb p l = true -> existsb p l' = true.
Proof.
  intros Hincl. rewrite !existsb_exists. intros (x & Hx & Hp). exists x. auto.
Qed.

(** X27: the guards are ordered: a request that passes [requireAdmin]
    passes [requireEventManager], then [requireStaff], then [requireUser],
    with the same user in [req.user]; such a request also passes
    [requireAuth], and [loadUser] loads that user. *)
Theorem role_guards_form_a_hierarchy
        (findById : string -> option (option Auth.account))
        (req : Auth.request) (user : Auth.account) :
  (Auth.requireAdmin findById req = Auth.Next user ->
   Auth.requireEventManager findById req = Auth.Next user)
  /\ (Auth.requireEventManager findById req = Auth.Next user ->
      Auth.requireStaff findById req = Auth.Next user)
  /\ (Auth.requireStaff findById req = Auth.Next user ->
      Auth.requireUser findById req = Auth.Next user)
  /\ (Auth.requireUser findById req = Auth.Next user ->
      Auth.loadUser findById req = Some user
      /\ Auth.requireAuth req = Auth.Next tt).
Proof.
  unfold Auth.requireAdmin, Auth.requireEventManager, Auth.requireStaff,
    Auth.requireUser.
  assert (Hmono : forall l l', (forall x, In x l -> In x l') ->
            Auth.requireRole findById l req = Auth.Next user ->
            Auth.requireRole findById l' req = Auth.Next user).
  { intros l l' Hincl. rewrite !requireRole_next.
    intros (uid & H1 & H2 & H3 & H4). exists uid. repeat split; try assumption.
    now apply (existsb_incl _ l l'). }
  split; [| split; [| split]].
  - apply Hmono. simpl. tauto.
  - apply Hmono. simpl. tauto.
  - apply Hmono. simpl. tauto.
  - intros (uid & Hs & Hne & Hf & _)%requireRole_next.
    unfold Auth.loadUser, Auth.requireAuth. rewrite Hs.
    destruct uid as [|c uid]; [congruence |].
    cbn [JS.truthy_ostr JS.truthy_str negb default from_option].
    change (id (String c uid)) with (String c uid). rewrite Hf. split; reflexivity.
Qed.

(** X28: a page request of an active user whose role is none of admin,
    event_manager and staff is redirected by [requireStaff] to [/staff],
    whatever page it asks for: also when it asks for [/staff], which the same
    guard protects. *)
Theorem staff_guard_redirects_to_itself
        (findById : string -> option (option Auth.account))
        (req : Auth.request) (uid : string) (user : Auth.account) :
  Auth.session_userId req = Some uid -> uid <> "" ->
  findById uid = Some (Some user) ->
  existsb (String.eqb (Auth.account_role user)) ["admin"; "event_manager"; "staff"]
  = false ->
  Auth.isApiRequest req = false ->
  Auth.requireStaff findById req = Auth.Redirect "/staff"
  /\ forall path',
       JS.startsWith "/api/" path' = false ->
       JS.startsWith "/admin/api/" path' = false ->
       Auth.requireStaff findById
         {| Auth.session_userId := Auth.session_userId req; Auth.path := path';
            Auth.xhr := Auth.xhr req; Auth.accept := Auth.accept req;
            Auth.content_type := Auth.content_type req |}
       = Auth.Redirect "/staff".
Proof.
  intros Hs Hne Hf Hrole Hapi.
  assert (Hdash : Auth.dashboard (Auth.account_role user) = "/staff").
  { unfold Auth.dashboard. cbn [existsb] in Hrole.
    apply orb_false_iff in Hrole as [H1 Hrole].
    apply orb_false_iff in Hrole as [H2 _].
    now rewrite H1, H2. }
  assert (Hgen : forall r, Auth.session_userId r = Some uid ->
                           Auth.isApiRequest r = false ->
                           Auth.requireStaff findById r = Auth.Redirect "/staff").
  { intros r Hrs Hra. unfold Auth.requireStaff, Auth.requireRole. rewrite Hrs.
    destruct uid as [|c uid']; [congruence |].
    cbn [JS.truthy_ostr JS.truthy_str negb default from_option].
    change (id (String c uid')) with (String c uid').
    rewrite Hf, Hrole, Hra. cbn [negb]. now rewrite Hdash. }
  split; [now apply Hgen |].
  intros path' Hp1 Hp2. apply Hgen; [exact Hs |].
  unfold Auth.isApiRequest in *. cbn [Auth.path Auth.xhr Auth.accept Auth.content_type].
  rewrite Hp1, Hp2. cbn [orb].
  apply orb_false_iff in Hapi as [Hapi H5].
  apply orb_false_iff in Hapi as [Hapi H4].
  apply orb_false_iff in Hapi as [_ H3].
  now rewrite H3, H4, H5.
Qed.

Lemma staff_guard_redirects_to_itself_witness :
  let users uid := Some (Some {| Auth.account_id := uid; Auth.account_role := "at_work" |}) in
  Auth.requireStaff users
    {| Auth.session_userId := Some "U7"; Auth.path := "/staff";
       Auth.xhr := false; Auth.accept := Some "text/html";
       Auth.content_type := None |}
  = Auth.Redirect "/staff".
Proof.
  cbv zeta.
  refine (proj1 (staff_guard_redirects_to_itself _ _ "U7"
                   {| Auth.account_id := "U7"; Auth.account_role := "at_work" |}
                   _ _ _ _ _));
    try reflexivity. discriminate.
Defined.

(** ** Signals declared by the client *)

Lemma or_else_first (a b : option string) (v : string) :
  a = Some v -> v <> "" -> NetworkSecurity.or_else a b = Some v.
Proof.
  intros -> Hv. unfold NetworkSecurity.or_else.
  destruct v; [congruence | reflexivity].
Qed.

(** X29: one matching signal declared by the client opens the network
    gate whatever the other signals are: the [x-gateway-ip] header, the
    [x-wifi-name] header, or the first address of [x-forwarded-for], which
    takes precedence over the address of the connection. *)
Theorem gate_trusts_declared_signals (checkNetwork : option string -> bool)
        (checkWifi : string -> bool) (req : NetworkSecurity.request) (v : string) :
  v <> "" ->
  (NetworkSecurity.header_x_gateway_ip req = Some v /\ checkNetwork (Some v) = true)
  \/ (NetworkSecurity.header_x_wifi_name req = Some v /\ checkWifi v = true)
  \/ (exists forwarded,
        NetworkSecurity.header_x_forwarded_for req = Some forwarded
        /\ JS.trim (NetworkSecurity.before_comma forwarded) = v
        /\ checkNetwork (Some v) = true) ->
  exists info,
    NetworkSecurity.requireCompanyNetworkWith checkNetwork checkWifi req
    = NetworkSecurity.Next info.
Proof.
  intros Hv Hsig. unfold NetworkSecurity.requireCompanyNetworkWith.
  match goal with |- context [negb ?b] =>
    assert (Hallowed : b = true); [| rewrite Hallowed; cbn [negb]; eauto] end.
  destruct Hsig as [[Hg Hc] | [[Hw Hc] | (f & Hf & Ht & Hc)]].
  - assert (Hgw : NetworkSecurity.getGatewayIp req = Some v)
      by (apply or_else_first; assumption).
    rewrite Hgw. destruct v; [congruence |].
    cbn [JS.truthy_ostr JS.truthy_str]. now rewrite Hc.
  - assert (Hwn : NetworkSecurity.getWifiName req = Some v)
      by (apply or_else_first; assumption).
    rewrite Hwn. destruct v; [congruence |].
    cbn [JS.truthy_str]. rewrite Hc. now rewrite !orb_true_r.
  - assert (Hip : NetworkSecurity.getClientIp req = Some v).
    { unfold NetworkSecurity.getClientIp. apply or_else_first; [|exact Hv].
      rewrite Hf. cbn. now rewrite Ht. }
    rewrite Hip, Hc. now rewrite orb_true_r.
Qed.

Lemma gate_trusts_declared_signals_witness :
  exists info,
    NetworkSecurity.requireCompanyNetworkWith
      (fun ip => bool_decide (ip = Some "10.0.0.1")) (fun _ => false)
      {| NetworkSecurity.header_x_forwarded_for := None;
         NetworkSecurity.header_x_real_ip := None;
         NetworkSecurity.connection_remoteAddress := Some "203.0.113.9";
         NetworkSecurity.socket_remoteAddress := Some "203.0.113.9";
         NetworkSecurity.req_ip := Some "203.0.113.9";
         NetworkSecurity.header_x_gateway_ip := Some "10.0.0.1";
         NetworkSecurity.body_gateway_ip := None;
         NetworkSecurity.query_gateway_ip := None;
         NetworkSecurity.header_x_wifi_name := None;
         NetworkSecurity.body_wifi_name := None;
         NetworkSecurity.query_wifi_name := None |}
    = NetworkSecurity.Next info.
Proof.
  apply (gate_trusts_declared_signals _ _ _ "10.0.0.1"); [discriminate |].
  left. split; reflexivity.
Defined.

(** ** The registry of connected clients *)

Lemma staff_role_not_admin (role : string) :
  SocketIOHandlers.is_staff_role role = true -> String.eqb role "admin" = false.
Proof.
  unfold SocketIOHandlers.is_staff_role. intros [H|H]%orb_true_iff;
    apply String.eqb_eq in H; subst role; reflexivity.
Qed.

Lemma handle_keeps_registry_ok (e : SocketIOHandlers.socket_event)
      (s : SocketIOHandlers.clients) :
  registry_ok s -> registry_ok (SocketIOHandlers.handle e s).
Proof.
  intros (Ha & Hs & Hua & Hus & Har & Hsr).
  destruct e as [id|id|id [user|]|id|id]; cbn [SocketIOHandlers.handle].
  - unfold registry_ok. cbn. split; [| split; [| split; [| split; [| split]]]];
      try assumption.
    + intros i Hi. destruct (decide (i = id)) as [->|Hne].
      * rewrite lookup_insert_eq. eauto.
      * rewrite lookup_insert_ne by congruence. auto.
    + intros i Hi. destruct (decide (i = id)) as [->|Hne].
      * rewrite lookup_insert_eq. eauto.
      * rewrite lookup_insert_ne by congruence. auto.
    + intros i u Hl. destruct (decide (i = id)) as [->|Hne].
      * rewrite lookup_insert_eq in Hl. discriminate.
      * rewrite lookup_insert_ne in Hl by congruence. eauto.
    + intros i u Hl. destruct (decide (i = id)) as [->|Hne].
      * rewrite lookup_insert_eq in Hl. discriminate.
      * rewrite lookup_insert_ne in Hl by congruence. eauto.
  - unfold registry_ok. cbn. split; [| split; [| split; [| split; [| split]]]].
    + intros i [Hi Hne]%elem_of_difference.
      rewrite lookup_delete_ne by (intros ->; apply Hne; now apply elem_of_singleton).
      auto.
    + intros i [Hi Hne]%elem_of_difference.
      rewrite lookup_delete_ne by (intros ->; apply Hne; now apply elem_of_singleton).
      auto.
    + intros i u Hl Hr. destruct (decide (i = id)) as [->|Hne].
      * rewrite lookup_delete_eq in Hl. discriminate.
      * rewrite lookup_delete_ne in Hl by congruence.
        apply elem_of_difference. split; [eauto |].
        intros ->%elem_of_singleton. congruence.
    + intros i u Hl Hr. destruct (decide (i = id)) as [->|Hne].
      * rewrite lookup_delete_eq in Hl. discriminate.
      * rewrite lookup_delete_ne in Hl by congruence.
        apply elem_of_difference. split; [eauto |].
        intros ->%elem_of_singleton. congruence.
    + intros i [Hi Hne]%elem_of_difference. apply elem_of_difference. auto.
    + intros i [Hi Hne]%elem_of_difference. apply elem_of_difference. auto.
  - destruct (SocketIOHandlers.connectedClients s !! id) as [old|] eqn:Hl;
      [| repeat split; assumption].
    assert (Hins : forall i, is_Some (SocketIOHandlers.connectedClients s !! i) ->
                     is_Some (<[id := Some user]> (SocketIOHandlers.connectedClients s) !! i)).
    { intros i Hi. destruct (decide (i = id)) as [->|Hne].
      - rewrite lookup_insert_eq. eauto.
      - rewrite lookup_insert_ne by congruence. exact Hi. }
    assert (Hid : is_Some (<[id := Some user]> (SocketIOHandlers.connectedClients s) !! id))
      by (rewrite lookup_insert_eq; eauto).
    unfold registry_ok. cbn. split; [| split; [| split; [| split; [| split]]]].
    + intros i Hi. destruct (String.eqb (Auth.account_role user) "admin").
      * apply elem_of_union in Hi as [->%elem_of_singleton|Hi]; auto.
      * auto.
    + intros i Hi. destruct (String.eqb (Auth.account_role user) "admin"); [auto |].
      destruct (SocketIOHandlers.is_staff_role (Auth.account_role user)); [|auto].
      apply elem_of_union in Hi as [->%elem_of_singleton|Hi]; auto.
    + intros i u Hli Hr. destruct (decide (i = id)) as [->|Hne].
      * rewrite lookup_insert_eq in Hli. injection Hli as <-. rewrite Hr.
        apply elem_of_union. left. now apply elem_of_singleton.
      * rewrite lookup_insert_ne in Hli by congruence.
        destruct (String.eqb (Auth.account_role user) "admin");
          [apply elem_of_union; right |]; eauto.
    + intros i u Hli Hr. destruct (decide (i = id)) as [->|Hne].
      * rewrite lookup_insert_eq in Hli. injection Hli as <-.
        rewrite (staff_role_not_admin _ Hr), Hr.
        apply elem_of_union. left. now apply elem_of_singleton.
      * rewrite lookup_insert_ne in Hli by congruence.
        destruct (String.eqb (Auth.account_role user) "admin"); [eauto |].
        destruct (SocketIOHandlers.is_staff_role (Auth.account_role user));
          [apply elem_of_union; right |]; eauto.
    + intros i Hi. destruct (String.eqb (Auth.account_role user) "admin");
        [apply elem_of_union; right |]; auto.
    + intros i Hi. destruct (String.eqb (Auth.account_role user) "admin"); [auto |].
      destruct (SocketIOHandlers.is_staff_role (Auth.account_role user));
        [apply elem_of_union; right |]; auto.
  - repeat split; assumption.
  - destruct (SocketIOHandlers.connectedClients s !! id) as [[user|]|] eqn:Hl;
      try (repeat split; assumption).
    destruct (String.eqb (Auth.account_role user) "admin") eqn:Hr;
      [| repeat split; assumption].
    unfold registry_ok. cbn. split; [| split; [| split; [| split; [| split]]]];
      try assumption.
    intros i [->%elem_of_singleton|Hi]%elem_of_union; [eauto | auto].
  - destruct (SocketIOHandlers.connectedClients s !! id) as [[user|]|] eqn:Hl;
      try (repeat split; assumption).
    destruct (SocketIOHandlers.is_staff_role (Auth.account_role user)) eqn:Hr;
      [| repeat split; assumption].
    unfold registry_ok. cbn. split; [| split; [| split; [| split; [| split]]]];
      try assumption.
    intros i [->%elem_of_singleton|Hi]%elem_of_union; [eauto | auto].
Qed.

Lemma subseteq_dom_size (ids : gset string) (m : gmap string (option Auth.account)) :
  (forall id, id ∈ ids -> is_Some (m !! id)) -> (size ids <= size m)%nat.
Proof.
  intros H. rewrite <- size_dom. apply subseteq_size.
  intros id Hid. apply elem_of_dom. auto.
Qed.

(** X30: whatever events the clients send, in any order, the sockets
    counted as admin or staff clients are connected, a socket in the admin
    room is an admin client and a socket in the staff room a staff client,
    and the counts of [getConnectionStats] for admins and staff do not exceed
    the total. *)
Theorem registry_invariant (events : list SocketIOHandlers.socket_event) :
  let s := handle_all events SocketIOHandlers.constructor in
  registry_ok s
  /\ (forall id, id ∈ SocketIOHandlers.admin_room s ->
        id ∈ SocketIOHandlers.adminClients s
        /\ is_Some (SocketIOHandlers.connectedClients s !! id))
  /\ (forall id, id ∈ SocketIOHandlers.staff_room s ->
        id ∈ SocketIOHandlers.staffClients s
        /\ is_Some (SocketIOHandlers.connectedClients s !! id))
  /\ let '(total, admins, staff) := SocketIOHandlers.getConnectionStats s in
     (admins <= total)%nat /\ (staff <= total)%nat.
Proof.
  cbv zeta.
  assert (Hok : registry_ok (handle_all events SocketIOHandlers.constructor)).
  { unfold handle_all.
    assert (H0 : registry_ok SocketIOHandlers.constructor).
    { unfold registry_ok. cbn.
      split; [| split; [| split; [| split; [| split]]]].
      - intros id Hid. now apply not_elem_of_empty in Hid.
      - intros id Hid. now apply not_elem_of_empty in Hid.
      - intros id u Hl. rewrite lookup_empty in Hl. discriminate.
      - intros id u Hl. rewrite lookup_empty in Hl. discriminate.
      - reflexivity.
      - reflexivity. }
    revert H0. generalize SocketIOHandlers.constructor.
    induction events as [|e events IH]; intros s Hs; [exact Hs |].
    cbn [foldl]. apply IH. now apply handle_keeps_registry_ok. }
  split; [exact Hok |].
  destruct Hok as (Ha & Hs & _ & _ & Har & Hsr).
  split; [| split].
  - intros id Hid. split; [apply Har, Hid | apply Ha, Har, Hid].
  - intros id Hid. split; [apply Hsr, Hid | apply Hs, Hsr, Hid].
  - unfold SocketIOHandlers.getConnectionStats.
    split; apply subseteq_dom_size; assumption.
Qed.

(** ** The import of participants *)

Section ImportFacts.

Variable sch : EventManager.schema.
Variable stored_number : string -> string.

Lemma import_uid_skip (p : EventManager.import_item)
      (skip : EventManager.import_report -> EventManager.import_report) :
  EventManager.import_uid sch stored_number p = inr skip ->
  forall r n k, report_counts r n k -> report_counts (skip r) (S n) k.
Proof.
  unfold EventManager.import_uid.
  repeat match goal with
         | |- context [if ?b then _ else _] => destruct b
         end; intros [= <-] r n k (H1 & H2 & H3);
    unfold report_counts; cbn; repeat split; lia.
Qed.

Lemma update_keys (e : Z) (uid : string) (f : Participant.t -> Participant.t)
      (ps : list Participant.t) :
  (forall q, enrolment_key (f q) = enrolment_key q) ->
  enrolment_key <$>
    map (fun q => if (Participant.event_id q =? e) && String.eqb (Participant.user_id q) uid
                  then f q else q) ps
  = enrolment_key <$> ps.
Proof.
  intros Hf. induction ps as [|q ps IH]; [reflexivity |].
  cbn [map fmap list_fmap]. f_equal; [|exact IH].
  destruct ((Participant.event_id q =? e) && String.eqb (Participant.user_id q) uid);
    [apply Hf | reflexivity].
Qed.

Lemma is_participant_keys (e : Z) (u : string) (db : EventManager.database) :
  EventManager.is_participant e u db = true
  <-> (e, u) ∈ enrolment_key <$> EventManager.event_participants db.
Proof.
  rewrite is_participant_iff, list_elem_of_fmap. unfold EventManager.enrolment_of,
    enrolment_key. split.
  - intros (p & Hp & H1 & H2). exists p. split; [congruence | exact Hp].
  - intros (p & [= H1 H2] & Hp). exists p. auto.
Qed.

(** one turn of the loop *)
Lemma import_one_step (e : Z) (db : EventManager.database)
      (r : EventManager.import_report) (p : EventManager.import_item) (n k : nat) :
  report_counts r n k ->
  let st := EventManager.import_one sch stored_number e (db, r) p in
  same_but_participants st.1 db
  /\ (exists added,
        enrolment_key <$> EventManager.event_participants st.1
        = (enrolment_key <$> EventManager.event_participants db) ++ added
        /\ report_counts st.2 (S n) (k + length added)
        /\ (length added <= 1)%nat
        /\ Forall (fun key =>
                     (key ∉ enrolment_key <$> EventManager.event_participants db)
                     /\ key.1 = e) added)
  /\ (forall uid, EventManager.import_uid sch stored_number p = inl uid ->
        EventManager.is_participant e uid st.1 = true)
  /\ (forall uid, EventManager.import_uid sch stored_number p = inl uid ->
        EventManager.is_participant e uid db = true ->
        EventManager.inserted st.2 = EventManager.inserted r).
Proof.
  intros Hr. cbv zeta. unfold EventManager.import_one. cbn [fst snd].
  destruct (EventManager.import_uid sch stored_number p) as [uid|skip] eqn:Hu.
  - destruct (EventManager.is_participant e uid db) eqn:Hp.
    + cbn [fst snd]. split; [repeat split |]. split; [| split].
      * exists []. rewrite app_nil_r. split; [| split; [| split]].
        -- cbn. apply update_keys. reflexivity.
        -- destruct Hr as (H1 & H2 & H3). unfold report_counts. cbn.
           repeat split; lia.
        -- simpl. lia.
        -- constructor.
      * intros uid' [= <-]. apply is_participant_keys. cbn.
        rewrite update_keys by reflexivity. now apply is_participant_keys.
      * intros uid' _ _. reflexivity.
    + cbn [fst snd]. split; [repeat split |]. split; [| split].
      * eexists [_]. split; [| split; [| split]].
        -- cbn. rewrite fmap_app. reflexivity.
        -- destruct Hr as (H1 & H2 & H3). unfold report_counts. cbn.
           repeat split; lia.
        -- simpl. lia.
        -- constructor; [|constructor]. split; [|reflexivity].
           intros Hin. apply is_participant_keys in Hin. cbn in Hin. congruence.
      * intros uid' [= <-]. apply is_participant_keys. cbn.
        rewrite fmap_app. apply elem_of_app. right. now left.
      * intros uid' [= <-] Hp'. congruence.
  - cbn [fst snd]. split; [repeat split |]. split; [| split].
    + exists []. rewrite app_nil_r. split; [reflexivity |].
      split; [| split; [simpl; lia | constructor]].
      rewrite Nat.add_0_r. now apply (import_uid_skip p skip Hu).
    + intros uid [=].
    + intros uid [=].
Qed.

Lemma import_one_skipped (e : Z) (db : EventManager.database)
      (r : EventManager.import_report) (p : EventManager.import_item) :
  EventManager.skipped (EventManager.import_one sch stored_number e (db, r) p).2
  = (EventManager.skipped r + skipped_items sch stored_number [p])%nat.
Proof.
  unfold skipped_items, EventManager.import_one. cbn [fst snd List.filter].
  destruct (EventManager.import_uid sch stored_number p) as [uid|skip] eqn:Hu.
  - destruct (EventManager.is_participant e uid db); cbn; lia.
  - unfold EventManager.import_uid in Hu.
    repeat match type of Hu with
           | (if ?b then _ else _) = _ => destruct b
           end; try discriminate; injection Hu as <-; cbn; lia.
Qed.

(** the loop *)
Lemma import_loop (e : Z) (items : list EventManager.import_item)
      (db : EventManager.database) (r : EventManager.import_report) (n k : nat) :
  report_counts r n k ->
  let st := foldl (EventManager.import_one sch stored_number e) (db, r) items in
  same_but_participants st.1 db
  /\ (exists added,
        enrolment_key <$> EventManager.event_participants st.1
        = (enrolment_key <$> EventManager.event_participants db) ++ added
        /\ report_counts st.2 (n + length items) (k + length added)
        /\ Forall (fun key => key.1 = e) added
        /\ (NoDup (enrolment_key <$> EventManager.event_participants db) ->
            NoDup (enrolment_key <$> EventManager.event_participants st.1)))
  /\ EventManager.skipped st.2 = (EventManager.skipped r + skipped_items sch stored_number items)%nat
  /\ Forall (fun p => forall uid,
               EventManager.import_uid sch stored_number p = inl uid ->
               EventManager.is_participant e uid st.1 = true) items.
Proof.
  revert db r n k. induction items as [|p items IH]; intros db r n k Hr; cbv zeta.
  - cbn [foldl fst snd]. split; [repeat split |]. split; [| split].
    + exists []. rewrite app_nil_r, !Nat.add_0_r.
      split; [reflexivity |]. split; [exact Hr |]. split; [constructor | tauto].
    + unfold skipped_items. simpl. lia.
    + constructor.
  - cbn [foldl].
    destruct (import_one_step e db r p n k Hr) as (Hsame & (a1 & Hk1 & Hr1 & Hl1 & Ha1) & Hin1 & _).
    pose proof (import_one_skipped e db r p) as Hs1.
    destruct (EventManager.import_one sch stored_number e (db, r) p) as [db1 r1] eqn:E1.
    cbn [fst snd] in *.
    destruct (IH db1 r1 (S n) (k + length a1)%nat Hr1)
      as (Hsame2 & (a2 & Hk2 & Hr2 & Ha2 & Hnd2) & Hs2 & Hall2).
    cbv zeta in *.
    set (st := foldl (EventManager.import_one sch stored_number e) (db1, r1) items) in *.
    split; [| split; [| split]].
    + destruct Hsame as (?&?&?), Hsame2 as (?&?&?). repeat split; congruence.
    + exists (a1 ++ a2). split; [| split; [| split]].
      * rewrite Hk2, Hk1, app_assoc. reflexivity.
      * rewrite length_app. cbn [length].
        replace (n + S (length items))%nat with (S n + length items)%nat by lia.
        now rewrite Nat.add_assoc.
      * apply Forall_app. split; [|exact Ha2].
        eapply Forall_impl; [exact Ha1 |]. simpl. tauto.
      * intros Hnd. apply Hnd2. rewrite Hk1.
        destruct a1 as [|key [|key' a1]]; [now rewrite app_nil_r | | simpl in Hl1; lia].
        apply NoDup_app. repeat split; [exact Hnd | | apply NoDup_singleton].
        intros x Hx ->%list_elem_of_singleton.
        apply Forall_cons in Ha1 as [[Hnot _] _]. contradiction.
    + rewrite Hs2, Hs1. unfold skipped_items. cbn [List.filter].
      destruct (EventManager.import_uid sch stored_number p); simpl; lia.
    + constructor; [|exact Hall2].
      intros uid Hu. specialize (Hin1 uid Hu).
      apply is_participant_keys. rewrite Hk2. apply elem_of_app. left.
      now apply is_participant_keys.
Qed.

(** a list whose kept items are enrolled already inserts nothing *)
Lemma import_loop_enrolled (e : Z) (items : list EventManager.import_item)
      (db : EventManager.database) (r : EventManager.import_report) :
  Forall (fun p => forall uid,
            EventManager.import_uid sch stored_number p = inl uid ->
            EventManager.is_participant e uid db = true) items ->
  let st := foldl (EventManager.import_one sch stored_number e) (db, r) items in
  EventManager.inserted st.2 = EventManager.inserted r
  /\ enrolment_key <$> EventManager.event_participants st.1
     = enrolment_key <$> EventManager.event_participants db.
Proof.
  revert db r. induction items as [|p items IH]; intros db r Hall; cbv zeta.
  - split; reflexivity.
  - apply Forall_cons in Hall as [Hp Hall]. cbn [foldl].
    assert (Hr : report_counts r
                   (EventManager.inserted r + EventManager.updated r
                    + EventManager.skipped r)
                   (EventManager.inserted r) \/ True) by now right.
    clear Hr.
    assert (Hstep : EventManager.inserted
                      (EventManager.import_one sch stored_number e (db, r) p).2
                    = EventManager.inserted r
                    /\ enrolment_key <$> EventManager.event_participants
                          (EventManager.import_one sch stored_number e (db, r) p).1
                       = enrolment_key <$> EventManager.event_participants db).
    { unfold EventManager.import_one. cbn [fst snd].
      destruct (EventManager.import_uid sch stored_number p) as [uid|skip] eqn:Hu.
      - rewrite (Hp uid eq_refl). cbn. split; [reflexivity |].
        apply update_keys. reflexivity.
      - cbn. split; [|reflexivity].
        unfold EventManager.import_uid in Hu.
        repeat match type of Hu with
               | (if ?b then _ else _) = _ => destruct b
               end; try discriminate; injection Hu as <-; reflexivity. }
    destruct (EventManager.import_one sch stored_number e (db, r) p) as [db1 r1].
    cbn [fst snd] in Hstep. destruct Hstep as [Hi Hk].
    destruct (IH db1 r1) as [Hi2 Hk2].
    + eapply Forall_impl; [exact Hall |]. simpl. intros q Hq uid Hu.
      apply is_participant_keys. rewrite Hk. apply is_participant_keys. now apply Hq.
    + cbv zeta in *. split; congruence.
Qed.

Lemma import_event_same (event_name : option string) (event_id : option Z)
      (db' db : EventManager.database) :
  EventManager.events db' = EventManager.events db ->
  import_event event_name event_id db' = import_event event_name event_id db.
Proof.
  intros H. unfold import_event, EventManager.event_id_of. now rewrite H.
Qed.

(** an import that answers with a report has run the loop *)
Lemma import_participants_inv (role event_name : option string) (event_id : option Z)
      (participants : option (list EventManager.import_item))
      (db db' : EventManager.database) (r : EventManager.import_report) :
  EventManager.import_participants sch stored_number role event_name event_id
    participants db = (EventManager.imported r, db') ->
  exists items e,
    participants = Some items
    /\ EventManager.allowed_role role = true
    /\ negb (JS.truthy_ostr event_name) && negb (JS.truthy_onum event_id) = false
    /\ import_event event_name event_id db = Some e /\ JS.truthy_num e = true
    /\ (db', r)
       = foldl (EventManager.import_one sch stored_number e)
               (db, {| EventManager.inserted := 0; EventManager.updated := 0;
                       EventManager.skipped := 0; EventManager.missingFields := 0;
                       EventManager.idTooLong := 0; EventManager.idInvalid := 0 |})
               items.
Proof.
  unfold EventManager.import_participants, EventManager.importParticipantsCore.
  destruct (EventManager.allowed_role role); [|discriminate]. cbn [negb].
  destruct participants as [[|p items]|]; try discriminate.
  destruct (negb (JS.truthy_ostr event_name) && negb (JS.truthy_onum event_id)) eqn:Hm;
    [discriminate |].
  fold (import_event event_name event_id db).
  destruct (import_event event_name event_id db) as [e|] eqn:He; [|discriminate].
  cbn [JS.truthy_onum].
  destruct (JS.truthy_num e) eqn:Ht; [|discriminate]. cbn [negb default from_option].
  change (id e) with e. intros [= <- <-].
  exists (p :: items), e. do 5 (split; [first [reflexivity | assumption] |]).
  symmetry. apply surjective_pairing.
Qed.

Lemma import_participants_run (role event_name : option string) (event_id : option Z)
      (items : list EventManager.import_item) (e : Z) (db : EventManager.database) :
  items <> [] ->
  EventManager.allowed_role role = true ->
  negb (JS.truthy_ostr event_name) && negb (JS.truthy_onum event_id) = false ->
  import_event event_name event_id db = Some e -> JS.truthy_num e = true ->
  EventManager.import_participants sch stored_number role event_name event_id
    (Some items) db
  = let final :=
      foldl (EventManager.import_one sch stored_number e)
            (db, {| EventManager.inserted := 0; EventManager.updated := 0;
                    EventManager.skipped := 0; EventManager.missingFields := 0;
                    EventManager.idTooLong := 0; EventManager.idInvalid := 0 |})
            items in
    (EventManager.imported final.2, final.1).
Proof.
  intros Hne Hrole Hm He Ht.
  unfold EventManager.import_participants, EventManager.importParticipantsCore.
  rewrite Hrole. cbn [negb]. destruct items as [|p items]; [congruence |].
  rewrite Hm. fold (import_event event_name event_id db). rewrite He.
  cbn [JS.truthy_onum]. rewrite Ht. reflexivity.
Qed.

Lemma empty_report_counts :
  report_counts {| EventManager.inserted := 0; EventManager.updated := 0;
                   EventManager.skipped := 0; EventManager.missingFields := 0;
                   EventManager.idTooLong := 0; EventManager.idInvalid := 0 |} 0 0.
Proof. repeat split. Qed.

End ImportFacts.

(** X25: an import that answers with a report accounts for every item:
    inserted, updated and skipped add up to the length of the list, the
    skipped ones to the three reasons; the participants grow by exactly the
    inserted pairs, all of the resolved event; pairs stay unique; events,
    registry and logs stay; every kept item is enrolled afterwards; any other
    answer writes nothing. *)
Theorem import_accounting (sch : EventManager.schema) (stored_number : string -> string)
        (role event_name : option string) (event_id : option Z)
        (participants : option (list EventManager.import_item))
        (db : EventManager.database) :
  match EventManager.import_participants sch stored_number role event_name event_id
          participants db with
  | (EventManager.imported r, db') =>
      exists items e added,
        participants = Some items
        /\ import_event event_name event_id db = Some e
        /\ report_counts r (length items) (length added)
        /\ EventManager.skipped r = skipped_items sch stored_number items
        /\ enrolment_key <$> EventManager.event_participants db'
           = (enrolment_key <$> EventManager.event_participants db) ++ added
        /\ Forall (fun key => key.1 = e) added
        /\ (NoDup (enrolment_key <$> EventManager.event_participants db) ->
            NoDup (enrolment_key <$> EventManager.event_participants db'))
        /\ same_but_participants db' db
        /\ Forall (fun p => forall uid,
                     EventManager.import_uid sch stored_number p = inl uid ->
                     EventManager.is_participant e uid db' = true) items
  | (_, db') => db' = db
  end.
Proof.
  destruct (EventManager.import_participants sch stored_number role event_name event_id
              participants db) as [[| status | r] db'] eqn:Himp.
  - unfold EventManager.import_participants in Himp.
    destruct (EventManager.allowed_role role); cbn [negb] in Himp; [|congruence].
    unfold EventManager.importParticipantsCore in Himp.
    repeat match type of Himp with
           | match ?x with _ => _ end = _ => destruct x
           end; congruence.
  - unfold EventManager.import_participants in Himp.
    destruct (EventManager.allowed_role role); cbn [negb] in Himp; [|congruence].
    unfold EventManager.importParticipantsCore in Himp.
    repeat match type of Himp with
           | match ?x with _ => _ end = _ => destruct x
           end; congruence.
  - apply import_participants_inv in Himp as (items & e & -> & _ & _ & He & _ & Hrun).
    destruct (import_loop sch stored_number e items db _ 0 0 empty_report_counts)
      as (Hsame & (added & Hk & Hr & Ha & Hnd) & Hs & Hall).
    cbv zeta in *. rewrite <- Hrun in *. cbn [fst snd] in *.
    exists items, e, added. repeat split; try assumption; apply Hr || apply Hsame.
Qed.

(** X26: importing the same list a second time inserts nothing: the
    second report updates what the first inserted or updated, skips the same
    items, and leaves the enrolled pairs as they are. *)
Theorem reimport_inserts_nothing (sch : EventManager.schema)
        (stored_number : string -> string)
        (role event_name : option string) (event_id : option Z)
        (participants : option (list EventManager.import_item))
        (db db1 : EventManager.database) (r1 : EventManager.import_report) :
  EventManager.import_participants sch stored_number role event_name event_id
    participants db = (EventManager.imported r1, db1) ->
  exists r2 db2,
    EventManager.import_participants sch stored_number role event_name event_id
      participants db1 = (EventManager.imported r2, db2)
    /\ EventManager.inserted r2 = 0%nat
    /\ EventManager.skipped r2 = EventManager.skipped r1
    /\ EventManager.updated r2
       = (EventManager.inserted r1 + EventManager.updated r1)%nat
    /\ enrolment_key <$> EventManager.event_participants db2
       = enrolment_key <$> EventManager.event_participants db1.
Proof.
  intros Himp.
  pose proof Himp as Hinv.
  apply import_participants_inv in Hinv as (items & e & -> & Hrole & Hm & He & Ht & Hrun).
  assert (Hne : items <> []).
  { intros ->. unfold EventManager.import_participants,
      EventManager.importParticipantsCore in Himp.
    rewrite Hrole in Himp. discriminate. }
  destruct (import_loop sch stored_number e items db _ 0 0 empty_report_counts)
    as (Hsame & (added & Hk & Hr & Ha & Hnd) & Hs & Hall).
  cbv zeta in *. rewrite <- Hrun in *. cbn [fst snd] in *.
  assert (He1 : import_event event_name event_id db1 = Some e).
  { rewrite (import_event_same _ _ db1 db); [exact He | apply Hsame]. }
  rewrite (import_participants_run sch stored_number role event_name event_id
             items e db1 Hne Hrole Hm He1 Ht).
  cbv zeta. eexists _, _. split; [reflexivity |].
  destruct (import_loop_enrolled sch stored_number e items db1
              {| EventManager.inserted := 0; EventManager.updated := 0;
                 EventManager.skipped := 0; EventManager.missingFields := 0;
                 EventManager.idTooLong := 0; EventManager.idInvalid := 0 |} Hall)
    as [Hi2 Hk2].
  destruct (import_loop sch stored_number e items db1 _ 0 0 empty_report_counts)
    as (_ & (added2 & _ & Hr2 & _) & Hs2 & _).
  cbv zeta in *.
  set (st2 := foldl (EventManager.import_one sch stored_number e) _ items) in *.
  cbn in Hi2, Hs2, Hs.
  destruct Hr as (Hr1 & _ & _). destruct Hr2 as (Hr2 & _ & _).
  cbn in Hr1, Hr2.
  repeat split; [exact Hi2 | lia | lia | exact Hk2].
Qed.

Lemma reimport_inserts_nothing_witness :
  let sch := {| EventManager.userIdIsNumeric := false;
                EventManager.userIdMaxLen := Some 20%nat;
                EventManager.hasNameCol := true; EventManager.hasPhoneCol := true;
                EventManager.nameMaxLen := Some 255%nat;
                EventManager.phoneMaxLen := Some 50%nat |} in
  let items := Some [ {| EventManager.item_id := Some "77"; EventManager.item_ID := None;
                         EventManager.item_name := Some "An"; EventManager.item_Name := None;
                         EventManager.item_phone := None; EventManager.item_Phone := None |} ] in
  exists r2 db2,
    EventManager.import_participants sch (fun s => s) (Some "admin") (Some "Gala") None
      items
      (EventManager.import_participants sch (fun s => s) (Some "admin") (Some "Gala")
         None items gala).2
    = (EventManager.imported r2, db2)
    /\ EventManager.inserted r2 = 0%nat.
Proof.
  cbv zeta.
  destruct (reimport_inserts_nothing
              {| EventManager.userIdIsNumeric := false;
                 EventManager.userIdMaxLen := Some 20%nat;
                 EventManager.hasNameCol := true; EventManager.hasPhoneCol := true;
                 EventManager.nameMaxLen := Some 255%nat;
                 EventManager.phoneMaxLen := Some 50%nat |}
              (fun s => s) (Some "admin") (Some "Gala") None
              (Some [ {| EventManager.item_id := Some "77"; EventManager.item_ID := None;
                         EventManager.item_name := Some "An"; EventManager.item_Name := None;
                         EventManager.item_phone := None; EventManager.item_Phone := None |} ])
              gala _ _ eq_refl)
    as (r2 & db2 & H1 & H2 & _).
  exists r2, db2. split; assumption.
Defined.

(** ** The duplicate window of the scan route, and the names kept by the routes *)



Lemma same_but_order_names (cps' cps : list Checkpoint.t) :
  Forall2 same_but_order cps' cps ->
  Forall (fun c => colon_free (Checkpoint.checkpoint_name c) = true) cps ->
  Forall (fun c => colon_free (Checkpoint.checkpoint_name c) = true) cps'.
Proof.
  induction 1 as [|c' c cps' cps (_ & Hn & _) _ IH]; [constructor |].
  intros [Hc Hrest]%Forall_cons. constructor; [now rewrite Hn | now apply IH].
Qed.

Lemma deactivate_same_but_order (ev cp : string) (cps : list Checkpoint.t) :
  Forall (fun c => colon_free (Checkpoint.checkpoint_name c) = true) cps ->
  Forall (fun c => colon_free (Checkpoint.checkpoint_name c) = true)
         (EventManager.deactivate ev cp cps).
Proof.
  unfold EventManager.deactivate. induction 1 as [|c cps Hc _ IH]; cbn [map];
    constructor; [|exact IH].
  destruct (EventManager.same_key ev cp c); exact Hc.
Qed.

(** X22: every route that writes the event tables (add, remove and
    reorder checkpoints, check, remove a participant, import) keeps the
    checkpoint names of the registry and of the logs free of [:], the
    character of the separator in the keys of the matrix. *)
Theorem routes_keep_names_colon_free (db : EventManager.database) :
  names_colon_free db ->
  (forall req, names_colon_free (EventManager.add_checkpoint req db).2)
  /\ (forall req, names_colon_free (EventManager.remove_checkpoint req db).2)
  /\ (forall event_name items,
        names_colon_free (EventManager.update_checkpoint_order event_name items db).2)
  /\ (forall cfg now req, names_colon_free (EventManager.check cfg now req db).2)
  /\ (forall role event_name user_id,
        names_colon_free (EventManager.remove_participant role event_name user_id db).2)
  /\ (forall sch stored_number role event_name event_id participants,
        names_colon_free
          (EventManager.import_participants sch stored_number role event_name event_id
             participants db).2).
Proof.
  intros [Hc Hl]. split; [| split; [| split; [| split; [| split]]]].
  - intros req. split; [now apply add_checkpoint_names_colon_free |].
    unfold EventManager.add_checkpoint.
    repeat match goal with
           | |- context [if ?b then _ else _] => destruct b
           | |- context [match ?x with _ => _ end] => destruct x
           end; exact Hl.
  - intros req. unfold EventManager.remove_checkpoint.
    destruct (negb (EventManager.allowed_role _)); [now split |].
    destruct (_ || _); [now split |].
    split; [now apply deactivate_same_but_order | exact Hl].
  - intros event_name items. unfold EventManager.update_checkpoint_order.
    destruct items as [items|]; [|now split].
    destruct (negb (JS.truthy_ostr event_name)); [now split |].
    split; [|exact Hl]. cbn. eapply same_but_order_names; [apply reorder_keeps | exact Hc].
  - intros cfg now req. split; [|now apply check_logs_colon_free].
    destruct (EventManager.check cfg now req db) as [[http error|u cp t e] db'] eqn:E.
    + apply check_failed_unchanged in E. now subst db'.
    + apply check_checked_inv in E as (_&_&_&_&_&_&_&_&_& dbE & _ & HcE & _ & _ & ->).
      cbn. now rewrite HcE.
  - intros role event_name user_id. unfold EventManager.remove_participant.
    destruct (_ || _); [now split |].
    destruct (negb (EventManager.allowed_role role)); [now split |].
    destruct (EventManager.event_id_of _ db); [|now split].
    split; [exact Hc |]. cbn. apply Forall_forall.
    intros l [_ Hin]%list_elem_of_filter.
    exact (proj1 (Forall_forall _ _) Hl l Hin).
  - intros sch stored_number role event_name event_id participants.
    destruct (EventManager.import_participants sch stored_number role event_name
                event_id participants db) as [answer db'] eqn:E.
    cbn [snd]. destruct answer as [| status | r].
    + unfold EventManager.import_participants, EventManager.importParticipantsCore in E.
      repeat match type of E with
             | (if ?b then _ else _) = _ => destruct b
             | match ?x with _ => _ end = _ => destruct x
             end; try discriminate; injection E as <-; now split.
    + unfold EventManager.import_participants, EventManager.importParticipantsCore in E.
      repeat match type of E with
             | (if ?b then _ else _) = _ => destruct b
             | match ?x with _ => _ end = _ => destruct x
             end; try discriminate; injection E as _ <-; now split.
    + apply import_participants_inv in E as (items & e & _ & _ & _ & _ & _ & Hrun).
      destruct (import_loop sch stored_number e items db _ 0 0 empty_report_counts)
        as ((He & Hcp & Hlg) & _).
      cbv zeta in *. rewrite <- Hrun in *. cbn [fst] in *.
      split; congruence.
Qed.

Lemma routes_keep_names_colon_free_witness :
  names_colon_free (EventManager.check sqlite 100 gala_check gala).2.
Proof.
  destruct (routes_keep_names_colon_free gala) as (_ & _ & _ & H & _).
  - split; repeat constructor.
  - apply H.
Defined.
